(** * GloryPicks signal engine: a shallow embedding and its verified properties

    The development follows the Python sources under [backend/app]:
    [indicators/__init__.py], [engine/kill_zones.py],
    [engine/ict_strategies.py], [engine/smc_strategies.py],
    [engine/ict_phase1_enhancements.py], [engine/ai_enhancer.py] and
    [engine/__init__.py].

    Conventions of the embedding.
    - A Python [float] (and a numpy [float64]) is an exact rational, kept in
      lowest terms; rounding is not modelled, but for the moving average,
      which the module [Rounded] gives with a rounding after every
      operation.  Prices and volumes are assumed finite, as the data model
      of the candles requires.
    - A Python exception is a value [Raise e] of the result type; a method of
      a detector object is a function of the detector's state that returns the
      state it leaves behind, also when it raises.
    - Rationale strings (formatted floats) are not part of the model. *)

From Stdlib Require Import ZArith QArith Qabs Qminmax Qround Qpower.
From Stdlib Require Import List Bool Lia Lqa.
Import ListNotations.

(* ===================================================================== *)
(** ** Python values: exceptions, results, floats                         *)
(* ===================================================================== *)

Module Py.

Inductive exn : Type :=
| ValueError
| NameError
| IndexError
| KeyError
| TypeError
| ValidationError.

Inductive result (A : Type) : Type :=
| Ok (a : A)
| Raise (e : exn).
Arguments Ok {A} a.
Arguments Raise {A} e.

Definition rbind {A B} (r : result A) (k : A -> result B) : result B :=
  match r with
  | Ok a => k a
  | Raise e => Raise e
  end.

(** A method of an object with attributes [S]: it may mutate the attributes
    and may raise; the mutations made before the exception stay. *)
Definition M (S A : Type) : Type := S -> result A * S.

Definition ret {S A} (a : A) : M S A := fun s => (Ok a, s).
Definition raise {S A} (e : exn) : M S A := fun s => (Raise e, s).
Definition bind {S A B} (m : M S A) (k : A -> M S B) : M S B :=
  fun s => match m s with
           | (Ok a, s') => k a s'
           | (Raise e, s') => (Raise e, s')
           end.
Definition get {S} : M S S := fun s => (Ok s, s).
Definition put {S} (s : S) : M S unit := fun _ => (Ok tt, s).
Definition modify {S} (f : S -> S) : M S unit := fun s => (Ok tt, f s).
Definition lift {S A} (r : result A) : M S A := fun s => (r, s).

(** [for x in xs: body x] *)
Fixpoint for_each {S X} (xs : list X) (body : X -> M S unit) : M S unit :=
  match xs with
  | [] => ret tt
  | x :: xs' => bind (body x) (fun _ => for_each xs' body)
  end.

(** Floats. *)
Abbreviation float := Q (only parsing).

Definition fadd (x y : float) : float := Qred (x + y).
Definition fsub (x y : float) : float := Qred (x - y).
Definition fmul (x y : float) : float := Qred (x * y).
Definition fdiv (x y : float) : float := Qred (x / y).
Definition fneg (x : float) : float := Qred (- x).
Definition fabs (x : float) : float := Qred (Qabs x).
Definition of_int (z : Z) : float := inject_Z z.
Definition of_nat (n : nat) : float := inject_Z (Z.of_nat n).

Definition flt (x y : float) : bool :=
  match x ?= y with Lt => true | _ => false end.
Definition fle (x y : float) : bool :=
  match x ?= y with Gt => false | _ => true end.
Definition fgt (x y : float) : bool := flt y x.
Definition fge (x y : float) : bool := fle y x.
Definition feq (x y : float) : bool :=
  match x ?= y with Eq => true | _ => false end.

(** [min(a, b)] and [max(a, b)] of the builtins: the first argument wins a
    tie. *)
Definition pmin (a b : float) : float := if flt b a then b else a.
Definition pmax (a b : float) : float := if fgt b a then b else a.

(** [int(x)]: truncation toward zero. *)
Definition int_of_float (x : float) : Z := Z.quot (Qnum x) (Zpos (Qden x)).

Definition fsum (xs : list float) : float := fold_left fadd xs 0.

(** [np.mean(xs)] of a non-empty array (of an empty one numpy yields NaN,
    which no caller below lets happen for a period of at least 1). *)
Definition np_mean (xs : list float) : float :=
  fdiv (fsum xs) (of_nat (length xs)).

(** Slices.  [xs[-n:]] for [n >= 1]. *)
Definition last_n {A} (n : nat) (xs : list A) : list A :=
  skipn (length xs - n) xs.

(** [xs[-1]] *)
Definition last_opt {A} (xs : list A) : option A :=
  nth_error xs (length xs - 1).

End Py.
Import Py.

Declare Scope py_scope.
Delimit Scope py_scope with py.
Notation "x <- m ;; k" := (bind m (fun x => k))
  (at level 61, m at next level, right associativity) : py_scope.
Notation "m ;;; k" := (bind m (fun _ => k))
  (at level 61, right associativity) : py_scope.
Notation "x <~ r ;; k" := (rbind r (fun x => k))
  (at level 61, r at next level, right associativity) : py_scope.

(* ===================================================================== *)
(** ** indicators/__init__.py                                             *)
(* ===================================================================== *)

Module Indicators.

Local Open Scope Q_scope.

(** The [k] windows of width [m] of [a] that start at offsets 0, 1, ... *)
Fixpoint windows {A} (m : nat) (a : list A) (k : nat) : list (list A) :=
  match k with
  | O => []
  | S k' => firstn m a :: windows m (tl a) k'
  end.

Definition dot (xs ys : list float) : float :=
  fold_left (fun acc p => fadd acc (fmul (fst p) (snd p))) (combine xs ys) 0.

(** [np.convolve(a, v, mode='valid')] for [len(a) >= len(v) >= 1]:
    entry [k] is the sum over [j] of [a[k+j] * v[len(v)-1-j]]. *)
Definition np_convolve_valid (a v : list float) : list float :=
  map (fun w => dot w (rev v))
      (windows (length v) a (length a - length v + 1)).

(** [Indicators.sma].  A period of 0 reaches [np.convolve] with an empty
    kernel, which raises [ValueError]. *)
Definition sma (prices : list float) (period : nat)
  : result (list (option float)) :=
  if (length prices <? period)%nat then Ok (repeat None (length prices))
  else if (period =? 0)%nat then Raise ValueError
  else
    let kernel := repeat (fdiv 1 (of_nat period)) period in
    let sma_values := np_convolve_valid prices kernel in
    Ok (repeat None (period - 1) ++ map Some sma_values).

(** [np.diff] *)
Fixpoint np_diff (xs : list float) : list float :=
  match xs with
  | x :: (y :: _) as tl => fsub y x :: np_diff tl
  | _ => []
  end.

Definition gains_of (deltas : list float) : list float :=
  map (fun d => if fgt d 0 then d else 0) deltas.
Definition losses_of (deltas : list float) : list float :=
  map (fun d => if flt d 0 then fneg d else 0) deltas.

(** The loop [avg[i] = (avg[i-1] * (period - 1) + x[i-1]) / period]. *)
Fixpoint wilder (period : nat) (prev : float) (xs : list float)
  : list float :=
  match xs with
  | [] => []
  | x :: xs' =>
      let a := fdiv (fadd (fmul prev (of_int (Z.of_nat period - 1))) x)
                    (of_nat period) in
      a :: wilder period a xs'
  end.

(** The array [avg_gain] (or [avg_loss]) of [rsi] once the loop has run:
    zeros below [period], the simple mean of the first [period] changes at
    [period], Wilder smoothing after it.  Called with
    [period < len(prices)], that is [period <= len(xs)]. *)
Definition wilder_avg (period : nat) (xs : list float) : list float :=
  let seed := np_mean (firstn period xs) in
  repeat 0 period ++ seed :: wilder period seed (skipn period xs).

Definition avg_gain (prices : list float) (period : nat) : list float :=
  wilder_avg period (gains_of (np_diff prices)).
Definition avg_loss (prices : list float) (period : nat) : list float :=
  wilder_avg period (losses_of (np_diff prices)).

(** [rs = np.where(avg_loss != 0, avg_gain / avg_loss, 0)] *)
Definition rs_of (ag al : float) : float :=
  if feq al 0 then 0 else fdiv ag al.

(** [100 - (100 / (1 + rs))] *)
Definition rsi_of_rs (rs : float) : float :=
  fsub 100 (fdiv 100 (fadd 1 rs)).

Definition rsi_values (prices : list float) (period : nat) : list float :=
  map (fun p => rsi_of_rs (rs_of (fst p) (snd p)))
      (combine (avg_gain prices period) (avg_loss prices period)).

(** [Indicators.rsi] *)
Definition rsi (prices : list float) (period : nat) : list (option float) :=
  if (length prices <? period + 1)%nat then repeat None (length prices)
  else repeat None period ++ map Some (skipn period (rsi_values prices period)).

(** The loop [ema[i] = alpha * data[i] + (1 - alpha) * ema[i-1]]. *)
Fixpoint ema_loop (alpha prev : float) (xs : list float) : list float :=
  match xs with
  | [] => []
  | x :: xs' =>
      let e := fadd (fmul alpha x) (fmul (fsub 1 alpha) prev) in
      e :: ema_loop alpha e xs'
  end.

(** [Indicators._ema], for a period of at least 1.  The store
    [ema[period - 1] = ...] is out of bounds when the array is shorter than
    the period. *)
Definition _ema (data : list float) (period : nat) : result (list float) :=
  let alpha := fdiv 2 (of_nat (period + 1)) in
  if (length data <? period)%nat then Raise IndexError
  else
    let seed := np_mean (firstn period data) in
    Ok (repeat 0 (period - 1) ++ seed :: ema_loop alpha seed (skipn period data)).

(** Elementwise difference of two arrays of one length. *)
Definition arr_sub (xs ys : list float) : list float :=
  map (fun p => fsub (fst p) (snd p)) (combine xs ys).

Definition macd_triple : Type :=
  (list (option float) * list (option float) * list (option float))%type.

(** [Indicators.macd] *)
Definition macd (prices : list float) (fast_period slow_period signal_period : nat)
  : result macd_triple :=
  if (length prices <? slow_period)%nat then
    let none_list := repeat None (length prices) in
    Ok (none_list, none_list, none_list)
  else
    (ema_fast <~ _ema prices fast_period ;;
     ema_slow <~ _ema prices slow_period ;;
     let macd_line := arr_sub ema_fast ema_slow in
     signal_line <~ _ema macd_line signal_period ;;
     let histogram := arr_sub macd_line signal_line in
     let min_period := (slow_period + signal_period - 1)%nat in
     Ok (repeat None (slow_period - 1) ++ map Some (skipn (slow_period - 1) macd_line),
         repeat None min_period ++ map Some (skipn min_period signal_line),
         repeat None min_period ++ map Some (skipn min_period histogram)))%py.

End Indicators.

(* ===================================================================== *)
(** ** models/__init__.py: candles and the response                       *)
(* ===================================================================== *)

Module Models.

Record Candle : Type := mkCandle {
  t : Z;        (* Unix timestamp, seconds *)
  o : float;
  h : float;
  l : float;
  c : float;
  v : float
}.

Inductive Recommendation : Type := BUY | SELL | NEUTRAL.

Inductive MiniSignal : Type := BULLISH | BEARISH | MINI_NEUTRAL.

Record SignalBreakdown : Type := mkBreakdown {
  d1 : MiniSignal;
  h1 : MiniSignal;
  m15 : MiniSignal
}.

(** [SignalResponse]; its [strength] field is declared
    [Field(..., ge=0, le=100)]. *)
Record SignalResponse : Type := mkSignalResponse {
  recommendation : Recommendation;
  strength : Z;
  breakdown : SignalBreakdown
}.

(** Constructing a [SignalResponse] runs the validation of the pydantic
    model: a strength outside [0, 100] raises [ValidationError]. *)
Definition SignalResponse_new (r : Recommendation) (s : Z)
           (b : SignalBreakdown) : result SignalResponse :=
  if ((0 <=? s) && (s <=? 100))%Z then Ok (mkSignalResponse r s b)
  else Raise ValidationError.

End Models.
Import Models.

(* ===================================================================== *)
(** ** engine/kill_zones.py                                               *)
(* ===================================================================== *)

Module KillZones.

Local Open Scope Z_scope.

Inductive KillZoneType : Type :=
| LONDON_KILL_ZONE
| NY_KILL_ZONE
| LONDON_CLOSE
| ASIAN_SESSION
| OFF_HOURS.

Inductive SessionType : Type :=
| PRE_MARKET | MARKET_OPEN | MARKET_HOURS | MARKET_CLOSE | AFTER_HOURS.

Inductive Volatility : Type := vol_high | vol_medium | vol_low.

Definition KillZoneType_eqb (a b : KillZoneType) : bool :=
  match a, b with
  | LONDON_KILL_ZONE, LONDON_KILL_ZONE
  | NY_KILL_ZONE, NY_KILL_ZONE
  | LONDON_CLOSE, LONDON_CLOSE
  | ASIAN_SESSION, ASIAN_SESSION
  | OFF_HOURS, OFF_HOURS => true
  | _, _ => false
  end.

Record KillZoneInfo : Type := mkKillZoneInfo {
  zone_type : KillZoneType;
  is_active : bool;
  time_until_next : option Z;   (* minutes *)
  time_remaining : option Z;    (* minutes *)
  session : SessionType;
  optimal_for_entries : bool;
  volatility_expected : Volatility
}.

(** [datetime.time(h, m)], as seconds since midnight; times of day compare
    as these numbers do. *)
Definition time (hh mm : Z) : Z := hh * 3600 + mm * 60.

(** The class attribute [KILL_ZONES], in the order of the dict. *)
Definition KILL_ZONES : list (KillZoneType * (Z * Z)) :=
  [ (LONDON_KILL_ZONE, (time 3 0, time 5 0));
    (NY_KILL_ZONE, (time 9 30, time 11 30));
    (LONDON_CLOSE, (time 11 0, time 12 0));
    (ASIAN_SESSION, (time 20 0, time 0 0)) ].

(** The time of day of a Unix timestamp at the fixed offset UTC-5. *)
Definition est_time_of_day (timestamp : Z) : Z :=
  (timestamp - 5 * 3600) mod 86400.

Definition _is_time_in_window (current start end_ : Z) : bool :=
  if start <? end_ then (start <=? current) && (current <=? end_)
  else (start <=? current) || (current <=? end_).

Definition _get_session_type (current_time : Z) : SessionType :=
  if current_time <? time 9 30 then PRE_MARKET
  else if (time 9 30 <=? current_time) && (current_time <? time 10 0)
       then MARKET_OPEN
  else if (time 10 0 <=? current_time) && (current_time <? time 16 0)
       then MARKET_HOURS
  else if (time 16 0 <=? current_time) && (current_time <? time 20 0)
       then MARKET_CLOSE
  else AFTER_HOURS.

(** [min(candidates, key=lambda x: x[1])]: the first of the smallest. *)
Fixpoint min_by_minutes (best : KillZoneType * Z)
         (cs : list (KillZoneType * Z)) : KillZoneType * Z :=
  match cs with
  | [] => best
  | x :: cs' =>
      min_by_minutes (if snd x <? snd best then x else best) cs'
  end.

Definition _get_next_kill_zone (current_time : Z) : KillZoneType * Z :=
  let candidates :=
    map (fun z =>
           let start := fst (snd z) in
           let start_dt := if start <=? current_time then start + 86400
                           else start in
           (fst z, Z.quot (start_dt - current_time) 60))
        KILL_ZONES in
  match candidates with
  | [] => (OFF_HOURS, 0)
  | x :: cs => min_by_minutes x cs
  end.

Definition zone_window (zt : KillZoneType) : Z * Z :=
  match zt with
  | LONDON_KILL_ZONE => (time 3 0, time 5 0)
  | NY_KILL_ZONE => (time 9 30, time 11 30)
  | LONDON_CLOSE => (time 11 0, time 12 0)
  | _ => (time 20 0, time 0 0)
  end.

Definition _create_kill_zone_info (zt : KillZoneType) (active : bool)
           (current_time : Z) : KillZoneInfo :=
  let session := _get_session_type current_time in
  if active then
    let '(start, end_) := zone_window zt in
    let end_dt := if end_ <? start then end_ + 86400 else end_ in
    let remaining := Z.quot (end_dt - current_time) 60 in
    let '(optimal, volatility) :=
      match zt with
      | LONDON_KILL_ZONE => (true, vol_high)
      | NY_KILL_ZONE => (true, vol_high)
      | LONDON_CLOSE => (true, vol_medium)
      | _ => (false, vol_low)
      end in
    mkKillZoneInfo zt true None (Some remaining) session optimal volatility
  else
    let minutes_until := snd (_get_next_kill_zone current_time) in
    mkKillZoneInfo zt false (Some minutes_until) None session false vol_low.

Fixpoint first_zone (current_time : Z) (zs : list (KillZoneType * (Z * Z)))
  : option KillZoneType :=
  match zs with
  | [] => None
  | (zt, (start, end_)) :: zs' =>
      if _is_time_in_window current_time start end_ then Some zt
      else first_zone current_time zs'
  end.

(** [KillZoneDetector.get_current_kill_zone] at an explicit timestamp. *)
Definition get_current_kill_zone (timestamp : Z) : KillZoneInfo :=
  let current_time := est_time_of_day timestamp in
  match first_zone current_time KILL_ZONES with
  | Some zt => _create_kill_zone_info zt true current_time
  | None => _create_kill_zone_info OFF_HOURS false current_time
  end.

(** The reason returned next to the decision, as a tag. *)
Inductive Reason : Type :=
| high_strength_in_zone
| moderate_in_optimal_zone
| avoid_asian_session
| off_hours_exception
| wait_for_next_zone
| too_low_in_zone
| meets_criteria.

(** [KillZoneDetector.should_trade_signal] *)
Definition should_trade_signal (signal_timestamp : Z) (signal_strength : float)
  : bool * Reason :=
  let info := get_current_kill_zone signal_timestamp in
  if is_active info && fge signal_strength 70 then
    (true, high_strength_in_zone)
  else if is_active info && optimal_for_entries info
          && fge signal_strength 50 then
    (true, moderate_in_optimal_zone)
  else if KillZoneType_eqb (zone_type info) ASIAN_SESSION then
    (false, avoid_asian_session)
  else if KillZoneType_eqb (zone_type info) OFF_HOURS then
    if fge signal_strength 80 then (true, off_hours_exception)
    else (false, wait_for_next_zone)
  else if is_active info && flt signal_strength 50 then
    (false, too_low_in_zone)
  else (true, meets_criteria).

End KillZones.


(* ===================================================================== *)
(** ** engine/ict_strategies.py                                           *)
(* ===================================================================== *)

Module ICT.

Local Open Scope Q_scope.

Inductive ICTSignal : Type :=
| BULLISH_BREAKER | BEARISH_BREAKER
| FVG_BULLISH | FVG_BEARISH
| MM_BUY_MODEL | MM_SELL_MODEL
| BOS_BULLISH | BOS_BEARISH
| MSS_BULLISH | MSS_BEARISH
| ICT_NEUTRAL.

Definition ICTSignal_eqb (a b : ICTSignal) : bool :=
  match a, b with
  | BULLISH_BREAKER, BULLISH_BREAKER | BEARISH_BREAKER, BEARISH_BREAKER
  | FVG_BULLISH, FVG_BULLISH | FVG_BEARISH, FVG_BEARISH
  | MM_BUY_MODEL, MM_BUY_MODEL | MM_SELL_MODEL, MM_SELL_MODEL
  | BOS_BULLISH, BOS_BULLISH | BOS_BEARISH, BOS_BEARISH
  | MSS_BULLISH, MSS_BULLISH | MSS_BEARISH, MSS_BEARISH
  | ICT_NEUTRAL, ICT_NEUTRAL => true
  | _, _ => false
  end.

(** The [type] of an order block, the [direction] of a gap. *)
Inductive Side : Type := bullish | bearish.

Definition Side_eqb (a b : Side) : bool :=
  match a, b with
  | bullish, bullish | bearish, bearish => true
  | _, _ => false
  end.

Record OrderBlock : Type := mkOrderBlock {
  ob_high : float;
  ob_low : float;
  ob_timestamp : Z;
  ob_type : Side;
  confirmed : bool;
  broken : bool;
  breaker_confirmed : bool
}.

(** [OrderBlock(high=.., low=.., timestamp=.., type=..)] *)
Definition OrderBlock_new (hi lo : float) (ts : Z) (ty : Side) : OrderBlock :=
  mkOrderBlock hi lo ts ty false false false.

Record FairValueGap : Type := mkFairValueGap {
  fvg_high : float;
  fvg_low : float;
  start_timestamp : Z;
  end_timestamp : Z;
  direction : Side;
  filled : bool;
  fill_price : option float
}.

Record MarketStructure : Type := mkMarketStructure {
  last_swing_high : float;
  last_swing_low : float;
  swing_high_timestamp : Z;
  swing_low_timestamp : Z;
  bos_confirmed : bool;
  bos_direction : option Side
}.

Record ICTSignalResult : Type := mkICTSignalResult {
  signal_type : ICTSignal;
  strength : float;
  confidence : float;
  price : float;
  entry_zone : float * float;
  stop_loss : float;
  take_profit : float;
  liquidity_pool : option float
}.

(** The attributes of an [ICTStrategies] object. *)
Record State : Type := mkState {
  order_blocks : list OrderBlock;
  fair_value_gaps : list FairValueGap;
  market_structure : MarketStructure
}.

(** [ICTStrategies()] *)
Definition init : State :=
  mkState [] [] (mkMarketStructure 0 0 0 0 false None).

Definition append_order_block (b : OrderBlock) (s : State) : State :=
  mkState (order_blocks s ++ [b]) (fair_value_gaps s) (market_structure s).
Definition append_fvg (g : FairValueGap) (s : State) : State :=
  mkState (order_blocks s) (fair_value_gaps s ++ [g]) (market_structure s).
Definition set_order_blocks (bs : list OrderBlock) (s : State) : State :=
  mkState bs (fair_value_gaps s) (market_structure s).
Definition set_market_structure (ms : MarketStructure) (s : State) : State :=
  mkState (order_blocks s) (fair_value_gaps s) ms.

(** The pairs [(recent.iloc[i-1], recent.iloc[i])] for [i = 1, 2, ...]. *)
Definition adjacent {A} (xs : list A) : list (A * A) := combine xs (tl xs).

Definition _detect_order_blocks (df : list Candle) : M State unit :=
  let recent_candles := last_n 20 df in
  for_each (adjacent recent_candles) (fun p =>
    let previous := fst p in
    let current := snd p in
    if flt (c current) (fmul (c previous) 0.98) then
      modify (append_order_block
                (OrderBlock_new (h previous) (l previous) (t current) bearish))
    else if fgt (c current) (fmul (c previous) 1.02) then
      modify (append_order_block
                (OrderBlock_new (h previous) (l previous) (t current) bullish))
    else ret tt).

Definition _detect_fair_value_gaps (df : list Candle) : M State unit :=
  for_each (combine df (skipn 2 df)) (fun p =>
    let prev_candle := fst p in
    let current := snd p in
    if fgt (l current) (fmul (l prev_candle) 1.001) then
      modify (append_fvg
                (mkFairValueGap (l current) (l prev_candle)
                                (t prev_candle) (t current) bullish false None))
    else if flt (h current) (fmul (h prev_candle) 0.999) then
      modify (append_fvg
                (mkFairValueGap (h prev_candle) (h current)
                                (t prev_candle) (t current) bearish false None))
    else ret tt).

(** [max(xs)] and [min(xs)] of the builtins; an empty argument raises
    [ValueError]. *)
Definition py_max (xs : list float) : result float :=
  match xs with
  | [] => Raise ValueError
  | x :: xs' => Ok (fold_left pmax xs' x)
  end.
Definition py_min (xs : list float) : result float :=
  match xs with
  | [] => Raise ValueError
  | x :: xs' => Ok (fold_left pmin xs' x)
  end.

Definition blocks_of (ty : Side) (bs : list OrderBlock) : list OrderBlock :=
  filter (fun b => Side_eqb (ob_type b) ty) bs.

Definition _check_bullish_bos : M State bool :=
  (s <- get ;;
   if (length (order_blocks s) =? 0)%nat then ret false
   else
     recent_resistance <-
       lift (py_max (map ob_high (blocks_of bearish (order_blocks s)))) ;;
     ret (fgt (last_swing_high (market_structure s))
              (fmul recent_resistance 1.001)))%py.

Definition _check_bearish_bos : M State bool :=
  (s <- get ;;
   if (length (order_blocks s) =? 0)%nat then ret false
   else
     recent_support <-
       lift (py_min (map ob_low (blocks_of bullish (order_blocks s)))) ;;
     ret (flt (last_swing_low (market_structure s))
              (fmul recent_support 0.999)))%py.

(** A loop that appends to a local list: [acc] is the list so far. *)
Fixpoint for_acc {S X R} (xs : list X) (acc : R) (body : R -> X -> M S R)
  : M S R :=
  match xs with
  | [] => ret acc
  | x :: xs' => bind (body acc x) (fun acc' => for_acc xs' acc' body)
  end.

(** For [i] in [range(2, len(recent) - 2)]: the candle [recent.iloc[i]]
    with the five candles [recent.iloc[i-2 .. i+2]]. *)
Definition swing_windows (recent : list Candle)
  : list (Candle * list Candle) :=
  flat_map (fun w => match nth_error w 2 with
                     | Some cur => [(cur, w)]
                     | None => []
                     end)
           (Indicators.windows 5 recent (length recent - 4)).

Definition set_swing_high (x : float) (ts : Z) (ms : MarketStructure) :=
  mkMarketStructure x (last_swing_low ms) ts (swing_low_timestamp ms)
                    (bos_confirmed ms) (bos_direction ms).
Definition set_swing_low (x : float) (ts : Z) (ms : MarketStructure) :=
  mkMarketStructure (last_swing_high ms) x (swing_high_timestamp ms) ts
                    (bos_confirmed ms) (bos_direction ms).
Definition set_bos (d : Side) (ms : MarketStructure) :=
  mkMarketStructure (last_swing_high ms) (last_swing_low ms)
                    (swing_high_timestamp ms) (swing_low_timestamp ms)
                    true (Some d).

Definition update_ms (f : MarketStructure -> MarketStructure) : M State unit :=
  modify (fun s => set_market_structure (f (market_structure s)) s).

Definition _analyze_market_structure (df : list Candle)
  : M State (list ICTSignalResult) :=
  if (length df <? 10)%nat then ret []
  else
    let recent_data := last_n 10 df in
    for_acc (swing_windows recent_data) [] (fun results p =>
      let current := fst p in
      let window := snd p in
      if forallb (fun x => fge (h current) (h x)) window then
        (update_ms (set_swing_high (h current) (t current)) ;;;
         b <- _check_bullish_bos ;;
         if b then
           update_ms (set_bos bullish) ;;;
           ret (results ++
                [mkICTSignalResult BOS_BULLISH 75 80 (h current)
                   (l current, h current)
                   (fmul (l current) 0.995) (fmul (h current) 1.02)
                   (Some (h current))])
         else ret results)%py
      else if forallb (fun x => fle (l current) (l x)) window then
        (update_ms (set_swing_low (l current) (t current)) ;;;
         b <- _check_bearish_bos ;;
         if b then
           update_ms (set_bos bearish) ;;;
           ret (results ++
                [mkICTSignalResult BOS_BEARISH 75 80 (l current)
                   (l current, h current)
                   (fmul (h current) 1.005) (fmul (l current) 0.98)
                   (Some (l current))])
         else ret results)%py
      else ret results).

Definition mark_broken (b : OrderBlock) : OrderBlock :=
  mkOrderBlock (ob_high b) (ob_low b) (ob_timestamp b) (ob_type b)
               (confirmed b) true true.

(** One turn of the loop of [_detect_breaker_blocks] on one block: the
    block as the turn leaves it, and the signals the turn appends. *)
Definition breaker_step (current_price : float) (b : OrderBlock)
  : OrderBlock * list ICTSignalResult :=
  if negb (broken b) then
    if Side_eqb (ob_type b) bearish && fgt current_price (ob_high b) then
      (mark_broken b,
       [mkICTSignalResult BULLISH_BREAKER 85 90 current_price
          (ob_low b, ob_high b)
          (fmul (ob_low b) 0.997) (fmul (ob_high b) 1.03) None])
    else if Side_eqb (ob_type b) bullish && flt current_price (ob_low b) then
      (mark_broken b,
       [mkICTSignalResult BEARISH_BREAKER 85 90 current_price
          (ob_low b, ob_high b)
          (fmul (ob_high b) 1.003) (fmul (ob_low b) 0.97) None])
    else (b, [])
  else (b, []).

(** [_detect_breaker_blocks]: the blocks of [self.order_blocks[-10:]] are
    the objects of the list itself, so setting their flags changes the
    detector's state. *)
Definition _detect_breaker_blocks (recent_candles : list Candle)
  : M State (list ICTSignalResult) :=
  if (length recent_candles <? 3)%nat then ret []
  else
    match last_opt recent_candles with
    | None => ret []
    | Some last_candle =>
        let current_price := c last_candle in
        (s <- get ;;
         let obs := order_blocks s in
         let older := firstn (length obs - 10) obs in
         let scanned := map (breaker_step current_price) (last_n 10 obs) in
         modify (set_order_blocks (older ++ map fst scanned)) ;;;
         ret (flat_map snd scanned))%py
    end.

Definition all_adjacent (rel : float -> float -> bool) (xs : list float)
  : bool :=
  forallb (fun p => rel (snd p) (fst p)) (adjacent xs).

Definition list_max (xs : list float) : float :=
  match xs with [] => 0 | x :: xs' => fold_left pmax xs' x end.
Definition list_min (xs : list float) : float :=
  match xs with [] => 0 | x :: xs' => fold_left pmin xs' x end.

Definition last_close (df : list Candle) : float :=
  match last_opt df with Some x => c x | None => 0 end.

Definition _detect_market_maker_buy_model (df : list Candle) : bool :=
  let recent_lows := last_n 5 (map l df) in
  let current_price := last_close df in
  let higher_lows :=
    all_adjacent (fun cur prev => fge cur (fmul prev 0.9995)) recent_lows in
  let recent_high := list_max (last_n 10 (map h df)) in
  let above_range := fgt current_price (fmul recent_high 0.998) in
  higher_lows && above_range.

Definition _detect_market_maker_sell_model (df : list Candle) : bool :=
  let recent_highs := last_n 5 (map h df) in
  let current_price := last_close df in
  let lower_highs :=
    all_adjacent (fun cur prev => fle cur (fmul prev 1.0005)) recent_highs in
  let recent_low := list_min (last_n 10 (map l df)) in
  let below_range := flt current_price (fmul recent_low 1.002) in
  lower_highs && below_range.

Definition _analyze_market_maker_model (df : list Candle)
  : list ICTSignalResult :=
  if (length df <? 30)%nat then []
  else
    let recent_data := last_n 30 df in
    let current_price := last_close recent_data in
    let avg_price := np_mean (map c recent_data) in
    if _detect_market_maker_buy_model recent_data then
      [mkICTSignalResult MM_BUY_MODEL 90 85 current_price
         (fmul avg_price 0.99, avg_price)
         (fmul (list_min (map l recent_data)) 0.997)
         (fmul avg_price 1.05) None]
    else if _detect_market_maker_sell_model recent_data then
      [mkICTSignalResult MM_SELL_MODEL 90 85 current_price
         (avg_price, fmul avg_price 1.01)
         (fmul (list_max (map h recent_data)) 1.003)
         (fmul avg_price 0.95) None]
    else [].

Definition rank_key (x : ICTSignalResult) : float :=
  fmul (strength x) (confidence x).

(** [sorted(xs, key=.., reverse=True)]: descending, and signals of one key
    stay in the order they had.  An element is put in front of the sorted
    rest of the list, behind the elements of a greater key only. *)
Fixpoint insert_desc {A} (key : A -> float) (x : A) (sorted : list A)
  : list A :=
  match sorted with
  | [] => [x]
  | y :: ys => if fle (key y) (key x) then x :: sorted
               else y :: insert_desc key x ys
  end.
Definition sorted_desc {A} (key : A -> float) (xs : list A) : list A :=
  fold_right (insert_desc key) [] xs.

(** The loop that keeps the first signal of each type, three at most. *)
Fixpoint unique_top3 {A T} (eqb : T -> T -> bool) (ty : A -> T)
         (xs : list A) (seen : list T) (kept : list A) : list A :=
  match xs with
  | [] => kept
  | x :: xs' =>
      if negb (existsb (eqb (ty x)) seen) && (length kept <? 3)%nat
      then unique_top3 eqb ty xs' (ty x :: seen) (kept ++ [x])
      else unique_top3 eqb ty xs' seen kept
  end.

Definition _rank_and_filter_signals (signals : list ICTSignalResult)
  : list ICTSignalResult :=
  unique_top3 ICTSignal_eqb signal_type (sorted_desc rank_key signals) [] [].

(** [ICTStrategies.analyze_candles] *)
Definition analyze_candles (candles : list Candle)
  : M State (list ICTSignalResult) :=
  if (length candles <? 50)%nat then ret []
  else
    (_detect_order_blocks candles ;;;
     _detect_fair_value_gaps candles ;;;
     bos_mss_results <- _analyze_market_structure candles ;;
     breaker_results <- _detect_breaker_blocks (last_n 20 candles) ;;
     let mm_results := _analyze_market_maker_model candles in
     ret (_rank_and_filter_signals
            (bos_mss_results ++ breaker_results ++ mm_results)))%py.

(** [get_liquidity_pools]: two dicts keyed by the block's timestamp; a later
    block with the timestamp of an earlier one overwrites its value and
    keeps its place. *)
Fixpoint dict_set (k : Z) (x : float) (d : list (Z * float))
  : list (Z * float) :=
  match d with
  | [] => [(k, x)]
  | (k', x') :: d' => if (k' =? k)%Z then (k', x) :: d'
                      else (k', x') :: dict_set k x d'
  end.

Record LiquidityPools : Type := mkLiquidityPools {
  buy_side : list (Z * float);
  sell_side : list (Z * float)
}.

Definition get_liquidity_pools (s : State) : LiquidityPools :=
  mkLiquidityPools
    (fold_left (fun d b => dict_set (ob_timestamp b) (ob_high b) d)
               (blocks_of bearish (order_blocks s)) [])
    (fold_left (fun d b => dict_set (ob_timestamp b) (ob_low b) d)
               (blocks_of bullish (order_blocks s)) []).

End ICT.


(* ===================================================================== *)
(** ** engine/smc_strategies.py                                           *)
(* ===================================================================== *)

Module SMC.

Local Open Scope Q_scope.

Inductive SMCSignal : Type :=
| LIQUIDITY_SWEEP_BULLISH | LIQUIDITY_SWEEP_BEARISH
| INDUCEMENT_BULLISH | INDUCEMENT_BEARISH
| MITIGATION_BULLISH | MITIGATION_BEARISH
| BPR_BULLISH | BPR_BEARISH
| SMC_NEUTRAL.

Definition SMCSignal_eqb (a b : SMCSignal) : bool :=
  match a, b with
  | LIQUIDITY_SWEEP_BULLISH, LIQUIDITY_SWEEP_BULLISH
  | LIQUIDITY_SWEEP_BEARISH, LIQUIDITY_SWEEP_BEARISH
  | INDUCEMENT_BULLISH, INDUCEMENT_BULLISH
  | INDUCEMENT_BEARISH, INDUCEMENT_BEARISH
  | MITIGATION_BULLISH, MITIGATION_BULLISH
  | MITIGATION_BEARISH, MITIGATION_BEARISH
  | BPR_BULLISH, BPR_BULLISH | BPR_BEARISH, BPR_BEARISH
  | SMC_NEUTRAL, SMC_NEUTRAL => true
  | _, _ => false
  end.

Inductive PoolSide : Type := pool_buy_side | pool_sell_side.

Definition PoolSide_eqb (a b : PoolSide) : bool :=
  match a, b with
  | pool_buy_side, pool_buy_side | pool_sell_side, pool_sell_side => true
  | _, _ => false
  end.

Record LiquidityPool : Type := mkLiquidityPool {
  price_level : float;
  pool_type : PoolSide;
  pool_timestamp : Z;
  swept : bool;
  sweep_timestamp : option Z;
  subsequent_rejection : bool
}.

Record InducementPattern : Type := mkInducementPattern {
  ind_direction : ICT.Side;
  inducement_price : float;
  reversal_price : float;
  ind_timestamp : Z;
  (** [wick / (high - low) * 100]; [None] when [high = low], where numpy
      yields an infinity or NaN *)
  wick_percentage : option float
}.

Record MitigationZone : Type := mkMitigationZone {
  zone_high : float;
  zone_low : float;
  mz_fill_price : float;
  mz_timestamp : Z;
  mz_direction : ICT.Side;
  mz_subsequent_rejection : bool;
  (** whether the attribute [signal_generated] has been set on the object *)
  signal_generated : bool
}.

Record BalancedPriceRange : Type := mkBalancedPriceRange {
  bpr_high : float;
  bpr_low : float;
  bpr_start_timestamp : Z;
  bpr_end_timestamp : Z;
  equilibrium_price : float
}.

Record SMCSignalResult : Type := mkSMCSignalResult {
  signal_type : SMCSignal;
  strength : float;
  confidence : float;
  price : float;
  entry_zone : float * float;
  stop_loss : float;
  take_profit : float;
  liquidity_target : option float
}.

(** The attributes of an [SMCStrategies] object. *)
Record State : Type := mkState {
  liquidity_pools : list LiquidityPool;
  inducements : list InducementPattern;
  mitigation_zones : list MitigationZone;
  bpr_zones : list BalancedPriceRange
}.

(** [SMCStrategies()] *)
Definition init : State := mkState [] [] [] [].

Definition set_pools (ps : list LiquidityPool) (s : State) : State :=
  mkState ps (inducements s) (mitigation_zones s) (bpr_zones s).
Definition append_inducement (x : InducementPattern) (s : State) : State :=
  mkState (liquidity_pools s) (inducements s ++ [x]) (mitigation_zones s)
          (bpr_zones s).
Definition set_mitigation_zones (zs : list MitigationZone) (s : State) :=
  mkState (liquidity_pools s) (inducements s) zs (bpr_zones s).
Definition append_bpr (x : BalancedPriceRange) (s : State) : State :=
  mkState (liquidity_pools s) (inducements s) (mitigation_zones s)
          (bpr_zones s ++ [x]).

(** [abs(a - b) / b' < 0.001] on numpy floats: a zero divisor gives an
    infinity or NaN, and the comparison is then false. *)
Definition rel_close (a b : float) : bool :=
  if feq b 0 then false
  else flt (fdiv (fabs (fsub b a)) b) 0.001.

(** The pairs [(i, j)] with [i < j], in the order of the two nested loops,
    as the values at [i] and the values and rows at [j]. *)
Fixpoint index_pairs {A} (xs : list A) : list (A * A) :=
  match xs with
  | [] => []
  | x :: xs' => map (fun y => (x, y)) xs' ++ index_pairs xs'
  end.

(** The two loops of [_detect_liquidity_pools] for one side; [level] reads
    the high (or the low) of a candle. *)
Definition detect_pools_side (side : PoolSide) (level : Candle -> float)
           (recent_data : list Candle) : M State unit :=
  for_each (index_pairs recent_data) (fun p =>
    let ci := fst p in
    let cj := snd p in
    if rel_close (level cj) (level ci) then
      modify (fun s =>
        if negb (existsb (fun q => rel_close (price_level q) (level ci))
                         (filter (fun q => PoolSide_eqb (pool_type q) side)
                                 (liquidity_pools s)))
        then set_pools (liquidity_pools s
                        ++ [mkLiquidityPool (level ci) side (t cj)
                                            false None false]) s
        else s)
    else ret tt).

Definition _detect_liquidity_pools (df : list Candle) : M State unit :=
  if (length df <? 20)%nat then ret tt
  else
    let recent_data := last_n 20 df in
    (detect_pools_side pool_buy_side h recent_data ;;;
     detect_pools_side pool_sell_side l recent_data)%py.

Definition last_timestamp (df : list Candle) : Z :=
  match last_opt df with Some x => t x | None => 0%Z end.

Definition mark_swept (ts : Z) (p : LiquidityPool) : LiquidityPool :=
  mkLiquidityPool (price_level p) (pool_type p) (pool_timestamp p)
                  true (Some ts) true.

(** One turn of the loop of [_detect_liquidity_sweeps] on one pool. *)
Definition sweep_step (df : list Candle) (current_price : float)
           (p : LiquidityPool) : LiquidityPool * list SMCSignalResult :=
  let recent_data := last_n 5 df in
  if swept p then (p, [])
  else
    match pool_type p with
    | pool_buy_side =>
        let high_violation :=
          existsb (fun x => fgt (h x) (fmul (price_level p) 1.001))
                  recent_data in
        let rejection := flt current_price (price_level p) in
        if high_violation && rejection then
          let recent_low := ICT.list_min (last_n 10 (map l df)) in
          let target :=
            fadd (price_level p)
                 (fmul (fsub (price_level p) recent_low) 1.5) in
          (mark_swept (last_timestamp df) p,
           [mkSMCSignalResult LIQUIDITY_SWEEP_BEARISH 85 80 current_price
              (fmul current_price 0.998, fmul current_price 1.002)
              (fmul (price_level p) 1.005) target (Some recent_low)])
        else (p, [])
    | pool_sell_side =>
        let low_violation :=
          existsb (fun x => flt (l x) (fmul (price_level p) 0.999))
                  recent_data in
        let rejection := fgt current_price (price_level p) in
        if low_violation && rejection then
          let recent_high := ICT.list_max (last_n 10 (map h df)) in
          let target :=
            fsub (price_level p)
                 (fmul (fsub recent_high (price_level p)) 1.5) in
          (mark_swept (last_timestamp df) p,
           [mkSMCSignalResult LIQUIDITY_SWEEP_BULLISH 85 80 current_price
              (fmul current_price 0.998, fmul current_price 1.002)
              (fmul (price_level p) 0.995) target (Some recent_high)])
        else (p, [])
    end.

Definition _detect_liquidity_sweeps (df : list Candle) (current_price : float)
  : M State (list SMCSignalResult) :=
  (s <- get ;;
   let scanned := map (sweep_step df current_price) (liquidity_pools s) in
   modify (set_pools (map fst scanned)) ;;;
   ret (flat_map snd scanned))%py.

Definition wick_pct (wick : float) (x : Candle) : option float :=
  if feq (fsub (h x) (l x)) 0 then None
  else Some (fmul (fdiv wick (fsub (h x) (l x))) 100).

(** One turn of the loop of [_detect_inducements].  The rationale of either
    signal formats the name [wick_percentage], which the function never binds
    (it only occurs as a keyword of [InducementPattern(...)]): building the
    signal raises [NameError], after the pattern has been appended to
    [self.inducements]. *)
Definition inducement_turn (results : list SMCSignalResult) (candle : Candle)
  : M State (list SMCSignalResult) :=
  let body_size := fabs (fsub (c candle) (o candle)) in
  let lower_wick := fsub (pmin (o candle) (c candle)) (l candle) in
  (results1 <-
     (if fgt lower_wick (fmul body_size 2) && fgt (c candle) (o candle)
      then
        modify (append_inducement
                  (mkInducementPattern ICT.bullish (l candle) (c candle)
                     (t candle) (wick_pct lower_wick candle))) ;;;
        raise NameError
      else ret results) ;;
   let upper_wick := fsub (h candle) (pmax (o candle) (c candle)) in
   if fgt upper_wick (fmul body_size 2) && flt (c candle) (o candle)
   then
     modify (append_inducement
               (mkInducementPattern ICT.bearish (h candle) (c candle)
                  (t candle) (wick_pct upper_wick candle))) ;;;
     raise NameError
   else ret results1)%py.

(** [_detect_inducements]: the loop runs over [range(2, len(recent))], the
    last three of the last five candles. *)
Definition _detect_inducements (df : list Candle)
  : M State (list SMCSignalResult) :=
  if (length df <? 5)%nat then ret []
  else
    let recent := last_n 5 df in
    ICT.for_acc (skipn 2 recent) [] inducement_turn.

(** [sorted(xs)], ascending. *)
Fixpoint insert_asc (x : float) (sorted : list float) : list float :=
  match sorted with
  | [] => [x]
  | y :: ys => if fle x y then x :: sorted else y :: insert_asc x ys
  end.
Definition sorted_asc (xs : list float) : list float :=
  fold_right insert_asc [] xs.

(** [np.percentile(xs, q)] with the default linear interpolation, for a
    non-empty array: the value at the position [q / 100 * (n - 1)] of the
    sorted array. *)
Definition np_percentile (xs : list float) (q : float) : float :=
  let sorted := sorted_asc xs in
  let pos := fmul (fdiv q 100) (of_int (Z.of_nat (length xs) - 1)) in
  let lo := Z.to_nat (Qfloor pos) in
  let frac := fsub pos (of_int (Qfloor pos)) in
  let a := nth lo sorted 0 in
  let b := nth (S lo) sorted a in
  fadd a (fmul frac (fsub b a)).

Definition first_timestamp (df : list Candle) : Z :=
  match df with x :: _ => t x | [] => 0%Z end.

Definition _detect_bpr_zones (df : list Candle) (current_price : float)
  : M State (list SMCSignalResult) :=
  if (length df <? 10)%nat then ret []
  else
    let recent := last_n 10 df in
    let zone_high := np_percentile (map h recent) 75 in
    let zone_low := np_percentile (map l recent) 25 in
    if fgt zone_high (fmul zone_low 1.01) then
      if fle (fmul zone_low 0.995) current_price
         && fle current_price (fmul zone_high 1.005) then
        let equilibrium := fdiv (fadd zone_high zone_low) 2 in
        (modify (append_bpr
                   (mkBalancedPriceRange zone_high zone_low
                      (first_timestamp recent) (last_timestamp recent)
                      equilibrium)) ;;;
         if fgt current_price equilibrium then
           ret [mkSMCSignalResult BPR_BULLISH 65 60 current_price
                  (fmul equilibrium 0.998, fmul equilibrium 1.002)
                  (fmul zone_low 0.995)
                  (fadd zone_high (fsub zone_high zone_low)) None]
         else
           ret [mkSMCSignalResult BPR_BEARISH 65 60 current_price
                  (fmul equilibrium 0.998, fmul equilibrium 1.002)
                  (fmul zone_high 1.005)
                  (fsub zone_low (fsub zone_high zone_low)) None])%py
      else ret []
    else ret [].

Definition set_rejection (z : MitigationZone) : MitigationZone :=
  mkMitigationZone (zone_high z) (zone_low z) (mz_fill_price z)
                   (mz_timestamp z) (mz_direction z) true (signal_generated z).
Definition set_generated (z : MitigationZone) : MitigationZone :=
  mkMitigationZone (zone_high z) (zone_low z) (mz_fill_price z)
                   (mz_timestamp z) (mz_direction z)
                   (mz_subsequent_rejection z) true.

Definition _update_mitigation_tracking (df : list Candle) : M State unit :=
  let current_price := ICT.last_close df in
  modify (fun s =>
    set_mitigation_zones
      (map (fun z =>
              if negb (mz_subsequent_rejection z) then
                match mz_direction z with
                | ICT.bullish =>
                    if fgt current_price (fmul (mz_fill_price z) 1.01)
                    then set_rejection z else z
                | ICT.bearish =>
                    if flt current_price (fmul (mz_fill_price z) 0.99)
                    then set_rejection z else z
                end
              else z)
           (mitigation_zones s)) s).

Definition mitigation_step (current_price : float) (z : MitigationZone)
  : MitigationZone * list SMCSignalResult :=
  if mz_subsequent_rejection z && negb (signal_generated z) then
    (set_generated z,
     [match mz_direction z with
      | ICT.bullish =>
          mkSMCSignalResult MITIGATION_BULLISH 80 75 current_price
            (fmul (mz_fill_price z) 0.997, fmul (mz_fill_price z) 1.003)
            (fmul (zone_low z) 0.995)
            (fadd current_price (fmul (fsub current_price (zone_low z)) 2))
            None
      | ICT.bearish =>
          mkSMCSignalResult MITIGATION_BEARISH 80 75 current_price
            (fmul (mz_fill_price z) 0.997, fmul (mz_fill_price z) 1.003)
            (fmul (zone_high z) 1.005)
            (fsub current_price (fmul (fsub (zone_high z) current_price) 2))
            None
      end])
  else (z, []).

Definition _detect_mitigation_setups (current_price : float)
  : M State (list SMCSignalResult) :=
  (s <- get ;;
   let scanned := map (mitigation_step current_price) (mitigation_zones s) in
   modify (set_mitigation_zones (map fst scanned)) ;;;
   ret (flat_map snd scanned))%py.

(** [add_mitigation_zone] *)
Definition add_mitigation_zone (zh zl fill : float) (ts : Z)
           (d : ICT.Side) : M State unit :=
  modify (fun s =>
    set_mitigation_zones
      (mitigation_zones s ++ [mkMitigationZone zh zl fill ts d false false])
      s).

Definition rank_key (x : SMCSignalResult) : float :=
  fmul (strength x) (confidence x).

Definition _rank_and_filter_signals (signals : list SMCSignalResult)
  : list SMCSignalResult :=
  ICT.unique_top3 SMCSignal_eqb signal_type
                  (ICT.sorted_desc rank_key signals) [] [].

(** [SMCStrategies.analyze_candles] *)
Definition analyze_candles (candles : list Candle)
  : M State (list SMCSignalResult) :=
  if (length candles <? 30)%nat then ret []
  else
    let current_price := ICT.last_close candles in
    (_detect_liquidity_pools candles ;;;
     sweep_results <- _detect_liquidity_sweeps candles current_price ;;
     inducement_results <- _detect_inducements candles ;;
     bpr_results <- _detect_bpr_zones candles current_price ;;
     _update_mitigation_tracking candles ;;;
     mitigation_results <- _detect_mitigation_setups current_price ;;
     ret (_rank_and_filter_signals
            (sweep_results ++ inducement_results ++ bpr_results
             ++ mitigation_results)))%py.

End SMC.


(* ===================================================================== *)
(** ** config.py: the feature flags read by the Phase 1 enhancements      *)
(* ===================================================================== *)

Module Config.

Record Settings : Type := mkSettings {
  ENABLE_KILL_ZONES : bool;
  ENABLE_PD_ARRAYS : bool;
  ENABLE_LIQUIDITY_SWEEPS : bool
}.

(** The defaults of the class [Settings]. *)
Definition settings : Settings := mkSettings true true true.

End Config.

(* ===================================================================== *)
(** ** engine/ict_phase1_enhancements.py                                  *)
(* ===================================================================== *)

Module Phase1.

Local Open Scope Q_scope.

Inductive KillZoneType : Type :=
| ASIAN_SESSION | LONDON_OPEN | NY_OPEN | LONDON_CLOSE | NY_CLOSE | OFF_HOURS.

Record KillZoneInfo : Type := mkKillZoneInfo {
  zone_type : KillZoneType;
  is_active : bool;
  strength_multiplier : float;
  start_hour : Z;
  end_hour : Z
}.

(** The dict [kill_zones] of [get_kill_zone_info], in its order:
    zone, start, end, multiplier. *)
Definition kill_zones : list (KillZoneType * (float * float * float)) :=
  [ (LONDON_OPEN, (7, 10, 1.30));
    (NY_OPEN, (12, 15, 1.25));
    (LONDON_CLOSE, (15, 17, 1.15));
    (ASIAN_SESSION, (0, 8, 1.10));
    (NY_CLOSE, (19, 21, 1.05)) ].

Definition off_hours_info : KillZoneInfo :=
  mkKillZoneInfo OFF_HOURS false 1 0 24.

Fixpoint first_zone (time_decimal : float)
         (zs : list (KillZoneType * (float * float * float)))
  : KillZoneInfo :=
  match zs with
  | [] => off_hours_info
  | (zt, (start, end_, multiplier)) :: zs' =>
      if fle start time_decimal && flt time_decimal end_ then
        mkKillZoneInfo zt true multiplier
                       (int_of_float start) (int_of_float end_)
      else first_zone time_decimal zs'
  end.

(** [get_kill_zone_info]: hour and minute of the timestamp in UTC. *)
Definition get_kill_zone_info (cfg : Config.Settings) (timestamp : Z)
  : KillZoneInfo :=
  if negb (Config.ENABLE_KILL_ZONES cfg) then off_hours_info
  else
    let hour := ((timestamp mod 86400) / 3600)%Z in
    let minute := ((timestamp mod 3600) / 60)%Z in
    let time_decimal := fadd (of_int hour) (fdiv (of_int minute) 60) in
    first_zone time_decimal kill_zones.

Inductive Location : Type := premium | discount | equity | unknown.

Record PDArrayInfo : Type := mkPDArrayInfo {
  premium_zone : float * float;
  discount_zone : float * float;
  ote_zone : float * float;
  current_location : Location;
  range_size : float;
  optimal_entry : float;
  is_in_ote : bool;
  alignment_score : float
}.

Definition neutral_pd_info : PDArrayInfo :=
  mkPDArrayInfo (0, 0) (0, 0) (0, 0) unknown 0 0 false 50.

(** [calculate_pd_arrays], with the default [lookback] of 50. *)
Definition calculate_pd_arrays (cfg : Config.Settings) (candles : list Candle)
  : PDArrayInfo :=
  let lookback := 50%nat in
  if negb (Config.ENABLE_PD_ARRAYS cfg)
     || (length candles =? 0)%nat || (length candles <? lookback)%nat
  then neutral_pd_info
  else
    let recent_candles := last_n lookback candles in
    let high := ICT.list_max (map h recent_candles) in
    let low := ICT.list_min (map l recent_candles) in
    let range_size := fsub high low in
    if feq range_size 0 then neutral_pd_info
    else
      let premium_top := fsub high (fmul range_size 0.05) in
      let premium_bottom := fsub high (fmul range_size 0.50) in
      let discount_top := fadd low (fmul range_size 0.50) in
      let discount_bottom := fadd low (fmul range_size 0.05) in
      let ote_79 := fsub high (fmul range_size 0.79) in
      let ote_62 := fsub high (fmul range_size 0.62) in
      let current_price := ICT.last_close candles in
      let '(current_location, alignment_score, optimal_entry) :=
        if fgt current_price premium_bottom then
          (premium, (if fgt current_price premium_top then 20 else 40),
           discount_top)
        else if flt current_price discount_top then
          (discount, (if flt current_price discount_bottom then 90 else 75),
           ote_62)
        else (equity, 50, fdiv (fadd ote_62 ote_79) 2) in
      let is_in_ote := fle ote_79 current_price && fle current_price ote_62 in
      mkPDArrayInfo (premium_bottom, premium_top)
                    (discount_bottom, discount_top)
                    (ote_79, ote_62)
                    current_location range_size
                    (if is_in_ote then current_price else optimal_entry)
                    is_in_ote
                    (if is_in_ote then 95 else alignment_score).

Inductive Expectation : Type := bullish_move | bearish_move.

Record LiquiditySweep : Type := mkLiquiditySweep {
  expectation : Expectation;   (* the sweep type goes with it *)
  pool_level : float;
  sweep_timestamp : Z;
  sweep_strength : float;
  is_confirmed : bool;
  reversal_candle_index : nat
}.

(** [enumerate(recent_candles)] with the previous candle, if any. *)
Fixpoint enumerate_with_prev (i : nat) (prev : option Candle)
         (xs : list Candle) : list (nat * option Candle * Candle) :=
  match xs with
  | [] => []
  | x :: xs' => (i, prev, x) :: enumerate_with_prev (S i) (Some x) xs'
  end.

(** [detect_liquidity_sweeps], with the default [lookback] of 10. *)
Definition detect_liquidity_sweeps (cfg : Config.Settings)
           (candles : list Candle) (pools : ICT.LiquidityPools)
  : list LiquiditySweep :=
  let lookback := 10%nat in
  if negb (Config.ENABLE_LIQUIDITY_SWEEPS cfg) then []
  else if (length candles =? 0)%nat || (length candles <? lookback)%nat
  then []
  else
    let recent_candles := last_n lookback candles in
    let volumes := map v recent_candles in
    let avg_volume := fdiv (fsum volumes) (of_nat (length volumes)) in
    flat_map (fun e =>
      let '(i, prev, candle) := e in
      let sweep_of (ex : Expectation) (level : float) :=
        mkLiquiditySweep ex level (t candle)
          (pmin 95 (fadd 75 (if fgt (v candle) avg_volume then 20 else 0)))
          true (length candles - length recent_candles + i) in
      flat_map (fun kv =>
        let pool_level := snd kv in
        if fge (h candle) (fmul pool_level 1.001) then
          let is_bearish_reversal :=
            flt (c candle) (o candle)
            || match prev with
               | Some pc => flt (c candle) (c pc)
               | None => false
               end in
          if is_bearish_reversal then [sweep_of bearish_move pool_level]
          else []
        else []) (ICT.buy_side pools)
      ++
      flat_map (fun kv =>
        let pool_level := snd kv in
        if fle (l candle) (fmul pool_level 0.999) then
          let is_bullish_reversal :=
            fgt (c candle) (o candle)
            || match prev with
               | Some pc => fgt (c candle) (c pc)
               | None => false
               end in
          if is_bullish_reversal then [sweep_of bullish_move pool_level]
          else []
        else []) (ICT.sell_side pools))
      (enumerate_with_prev 0 None recent_candles).

(** The preliminary recommendation handed over by the engine. *)
Inductive Prelim : Type := buy | sell | neutral.

(** [max(xs, key=lambda x: x.strength)] of a non-empty list. *)
Definition best_sweep (x : LiquiditySweep) (xs : list LiquiditySweep)
  : LiquiditySweep :=
  fold_left (fun best y =>
               if fgt (sweep_strength y) (sweep_strength best) then y
               else best) xs x.

(** [calculate_phase1_enhancement]; the argument [base_strength] is not
    read by the function. *)
Definition calculate_phase1_enhancement (cfg : Config.Settings)
           (candles : list Candle) (pools : ICT.LiquidityPools)
           (base_strength : float) (recommendation : Prelim) : float :=
  match last_opt candles with
  | None => 0
  | Some last_candle =>
      let current_timestamp := t last_candle in
      let kill_zone_info := get_kill_zone_info cfg current_timestamp in
      let bonus1 :=
        if is_active kill_zone_info
        then fadd 0 (fmul (fsub (strength_multiplier kill_zone_info) 1) 100)
        else 0 in
      let pd_info := calculate_pd_arrays cfg candles in
      let bonus2 :=
        match recommendation, current_location pd_info with
        | buy, discount =>
            fadd bonus1 (if is_in_ote pd_info then 20 else 15)
        | sell, premium => fadd bonus1 15
        | _, _ => bonus1
        end in
      let sweeps := detect_liquidity_sweeps cfg candles pools in
      let recent_sweeps := filter is_confirmed sweeps in
      let aligned_sweeps :=
        filter (fun s =>
                  match recommendation, expectation s with
                  | buy, bullish_move | sell, bearish_move => true
                  | _, _ => false
                  end) recent_sweeps in
      let bonus3 :=
        match aligned_sweeps with
        | [] => bonus2
        | x :: xs =>
            fadd bonus2
                 (fmul (fdiv (sweep_strength (best_sweep x xs)) 100) 25)
        end in
      pmin bonus3 40
  end.

End Phase1.


(* ===================================================================== *)
(** ** engine/ai_enhancer.py                                              *)
(* ===================================================================== *)

Module AI.

Local Open Scope Q_scope.

Inductive MarketRegime : Type :=
| STRONG_TREND_UP | TREND_UP | RANGING | TREND_DOWN | STRONG_TREND_DOWN
| VOLATILE | UNKNOWN.

Inductive SignalQuality : Type := EXCELLENT | GOOD | MODERATE | POOR | REJECT.

Record AIConfidenceScore : Type := mkAIConfidenceScore {
  success_probability : float;
  quality_rating : SignalQuality;
  market_regime : MarketRegime;
  regime_alignment_score : float;
  false_signal_risk : float;
  confluence_bonus : float;
  adjusted_strength : float
}.

(** The two numpy routines of [_classify_market_regime] whose results are
    not computed here: the slope of [np.polyfit(x, closes, 1)] over
    [x = 0 .. n-1], and [np.std].  They are only called on 20 candles or
    more. *)
Record Numpy : Type := mkNumpy {
  np_polyfit_slope : list float -> float;
  np_std : list float -> float
}.

(** The [pattern_type] handed to the enhancer: the value of an ICT or SMC
    signal type, or the string "neutral". *)
Inductive Pattern : Type :=
| PatICT (s : ICT.ICTSignal)
| PatSMC (s : SMC.SMCSignal)
| PatNeutral.

(** Membership of the pattern's name in the list [bullish_patterns],
    respectively [bearish_patterns], of [_calculate_regime_alignment]. *)
Definition is_bullish_pattern (p : Pattern) : bool :=
  match p with
  | PatICT ICT.BULLISH_BREAKER | PatICT ICT.FVG_BULLISH
  | PatICT ICT.MM_BUY_MODEL | PatICT ICT.BOS_BULLISH
  | PatICT ICT.MSS_BULLISH
  | PatSMC SMC.LIQUIDITY_SWEEP_BULLISH | PatSMC SMC.INDUCEMENT_BULLISH
  | PatSMC SMC.MITIGATION_BULLISH | PatSMC SMC.BPR_BULLISH => true
  | _ => false
  end.
Definition is_bearish_pattern (p : Pattern) : bool :=
  match p with
  | PatICT ICT.BEARISH_BREAKER | PatICT ICT.FVG_BEARISH
  | PatICT ICT.MM_SELL_MODEL | PatICT ICT.BOS_BEARISH
  | PatICT ICT.MSS_BEARISH
  | PatSMC SMC.LIQUIDITY_SWEEP_BEARISH | PatSMC SMC.INDUCEMENT_BEARISH
  | PatSMC SMC.MITIGATION_BEARISH | PatSMC SMC.BPR_BEARISH => true
  | _ => false
  end.
(** ['breaker' in pattern_lower or 'mitigation' in pattern_lower] *)
Definition is_breaker_or_mitigation (p : Pattern) : bool :=
  match p with
  | PatICT ICT.BULLISH_BREAKER | PatICT ICT.BEARISH_BREAKER
  | PatSMC SMC.MITIGATION_BULLISH | PatSMC SMC.MITIGATION_BEARISH => true
  | _ => false
  end.

(** [_classify_market_regime].  Prices are positive, so the divisions by
    the mean close and by the recent low are divisions by non-zero
    numbers. *)
Definition _classify_market_regime (np : Numpy) (df : list Candle)
  : MarketRegime :=
  if (length df <? 20)%nat then UNKNOWN
  else
    let closes := map c df in
    let highs := map h df in
    let lows := map l df in
    let mean_close := np_mean closes in
    let slope := np_polyfit_slope np closes in
    let slope_normalized := fmul (fdiv slope mean_close) 100 in
    let ranges := Indicators.arr_sub highs lows in
    let recent_volatility :=
      fmul (fdiv (np_std np (last_n 10 ranges)) mean_close) 100 in
    let avg_volatility := fmul (fdiv (np_std np ranges) mean_close) 100 in
    let directional_movement :=
      fmul (fdiv (fabs (fsub (nth (length closes - 1) closes 0)
                             (nth (length closes - 10) closes 0)))
                 mean_close) 100 in
    let recent_high := ICT.list_max (last_n 20 highs) in
    let recent_low := ICT.list_min (last_n 20 lows) in
    let price_range :=
      fmul (fdiv (fsub recent_high recent_low) recent_low) 100 in
    if fgt recent_volatility (fmul avg_volatility 1.5) then VOLATILE
    else if flt (fabs slope_normalized) 0.1 && flt price_range 3 then RANGING
    else if fgt slope_normalized 0.3 && fgt directional_movement 2
         then STRONG_TREND_UP
    else if fgt slope_normalized 0.1 then TREND_UP
    else if flt slope_normalized (-0.3) && fgt directional_movement 2
         then STRONG_TREND_DOWN
    else if flt slope_normalized (-0.1) then TREND_DOWN
    else RANGING.

Definition _calculate_regime_alignment (pattern_type : Pattern)
           (regime : MarketRegime) (signal_strength : float) : float :=
  let is_bullish := is_bullish_pattern pattern_type in
  let is_bearish := is_bearish_pattern pattern_type in
  let alignment :=
    match regime with
    | STRONG_TREND_UP | TREND_UP =>
        if is_bullish then
          match regime with STRONG_TREND_UP => 85 | _ => 75 end
        else if is_bearish then 25 else 50
    | STRONG_TREND_DOWN | TREND_DOWN =>
        if is_bearish then
          match regime with STRONG_TREND_DOWN => 85 | _ => 75 end
        else if is_bullish then 25 else 50
    | RANGING =>
        if is_breaker_or_mitigation pattern_type then 80 else 60
    | VOLATILE => 40
    | UNKNOWN => 50
    end in
  let alignment := fmul alignment (fadd 0.5 (fdiv signal_strength 200)) in
  pmin 100 (pmax 0 alignment).

(** The loop that counts the direction changes over the last ten closes. *)
Fixpoint count_changes (prev_direction : Z) (ds : list Z) : nat :=
  match ds with
  | [] => 0
  | d :: ds' =>
      ((if negb (prev_direction =? 0)%Z && negb (d =? prev_direction)%Z
        then 1 else 0)
       + count_changes d ds')%nat
  end.

Definition direction_changes (closes : list float) : nat :=
  (* closes[-1], closes[-2], ..., closes[-10] *)
  let backwards := rev (last_n 10 closes) in
  let directions :=
    map (fun p => if fgt (fst p) (snd p) then 1%Z else (-1)%Z)
        (ICT.adjacent backwards) in
  count_changes 0 directions.

(** [_calculate_false_signal_risk].  A frame built from no candle has no
    column, and reading [df['volume']] raises [KeyError]. *)
Definition _calculate_false_signal_risk (df : list Candle)
           (regime : MarketRegime) : result float :=
  match df with
  | [] => Raise KeyError
  | _ =>
      let volumes := map v df in
      let recent_volume := np_mean (last_n 5 volumes) in
      let avg_volume := np_mean volumes in
      let r1 := if flt recent_volume (fmul avg_volume 0.5) then 20 else 0 in
      let closes := map c df in
      let r2 :=
        if (10 <=? length closes)%nat then
          if (4 <=? direction_changes closes)%nat then 25 else 0
        else 0 in
      let spreads :=
        map (fun x => fdiv (fsub (h x) (l x)) (c x)) df in
      let r3 :=
        if fgt (np_mean (last_n 3 spreads)) (fmul (np_mean spreads) 1.5)
        then 15 else 0 in
      let r4 := match regime with VOLATILE => 20 | _ => 0 end in
      Ok (pmin 100 (fadd (fadd (fadd (fadd 0 r1) r2) r3) r4))
  end.

(** ['bullish' in str(s.signal_type).lower()], and the same for
    ['bearish'], on the names of the enumeration members. *)
Definition ict_name_bullish (s : ICT.ICTSignal) : bool :=
  match s with
  | ICT.BULLISH_BREAKER | ICT.FVG_BULLISH | ICT.BOS_BULLISH
  | ICT.MSS_BULLISH => true
  | _ => false
  end.
Definition ict_name_bearish (s : ICT.ICTSignal) : bool :=
  match s with
  | ICT.BEARISH_BREAKER | ICT.FVG_BEARISH | ICT.BOS_BEARISH
  | ICT.MSS_BEARISH => true
  | _ => false
  end.
Definition smc_name_bullish (s : SMC.SMCSignal) : bool :=
  match s with
  | SMC.LIQUIDITY_SWEEP_BULLISH | SMC.INDUCEMENT_BULLISH
  | SMC.MITIGATION_BULLISH | SMC.BPR_BULLISH => true
  | _ => false
  end.
Definition smc_name_bearish (s : SMC.SMCSignal) : bool :=
  match s with
  | SMC.LIQUIDITY_SWEEP_BEARISH | SMC.INDUCEMENT_BEARISH
  | SMC.MITIGATION_BEARISH | SMC.BPR_BEARISH => true
  | _ => false
  end.

Definition _calculate_confluence_bonus
           (ict_signals : list ICT.ICTSignalResult)
           (smc_signals : list SMC.SMCSignalResult) : float :=
  match ict_signals, smc_signals with
  | [], _ | _, [] => 0
  | _, _ =>
      let ict_bullish :=
        existsb (fun s => ict_name_bullish (ICT.signal_type s)) ict_signals in
      let ict_bearish :=
        existsb (fun s => ict_name_bearish (ICT.signal_type s)) ict_signals in
      let smc_bullish :=
        existsb (fun s => smc_name_bullish (SMC.signal_type s)) smc_signals in
      let smc_bearish :=
        existsb (fun s => smc_name_bearish (SMC.signal_type s)) smc_signals in
      let bonus :=
        if ict_bullish && smc_bullish then fadd 0 12
        else if ict_bearish && smc_bearish then fadd 0 12
        else if (ict_bullish && smc_bearish) || (ict_bearish && smc_bullish)
             then fsub 0 5
        else 0 in
      let bonus :=
        if (2 <=? length ict_signals)%nat && (1 <=? length smc_signals)%nat
        then fadd bonus 5 else bonus in
      pmax 0 (pmin 20 bonus)
  end.

Definition _calculate_success_probability
           (base_confidence historical_win_rate regime_alignment
            false_signal_risk confluence_bonus : float) : float :=
  let w_base := 0.30 in
  let w_historical := 0.25 in
  let w_regime := 0.25 in
  let w_risk := 0.20 in
  let risk_score := fsub 100 false_signal_risk in
  let probability :=
    fadd (fadd (fadd (fmul base_confidence w_base)
                     (fmul historical_win_rate w_historical))
               (fmul regime_alignment w_regime))
         (fmul risk_score w_risk) in
  let probability := fadd probability confluence_bonus in
  pmin 100 (pmax 0 probability).

Definition _determine_quality_rating (probability : float) : SignalQuality :=
  if fge probability 90 then EXCELLENT
  else if fge probability 75 then GOOD
  else if fge probability 50 then MODERATE
  else if fge probability 25 then POOR
  else REJECT.

(** [enhance_signal].  The engine never calls
    [update_pattern_performance] on its enhancer, so
    [_get_pattern_performance] finds no record and returns the default one,
    whose [win_rate] is 50.0. *)
Definition enhance_signal (np : Numpy) (candles : list Candle)
           (pattern_type : Pattern) (base_strength base_confidence : float)
           (ict_signals : list ICT.ICTSignalResult)
           (smc_signals : list SMC.SMCSignalResult)
  : result AIConfidenceScore :=
  let df := candles in
  let regime := _classify_market_regime np df in
  let regime_alignment :=
    _calculate_regime_alignment pattern_type regime base_strength in
  let win_rate := 50 in
  (false_signal_risk <~ _calculate_false_signal_risk df regime ;;
   let confluence_bonus :=
     _calculate_confluence_bonus ict_signals smc_signals in
   let success_prob :=
     _calculate_success_probability base_confidence win_rate
       regime_alignment false_signal_risk confluence_bonus in
   let quality := _determine_quality_rating success_prob in
   let adjusted_strength := pmin 100 (fadd base_strength confluence_bonus) in
   Ok (mkAIConfidenceScore success_prob quality regime regime_alignment
         false_signal_risk confluence_bonus adjusted_strength))%py.

End AI.


(* ===================================================================== *)
(** ** engine/__init__.py: the signal engine                              *)
(* ===================================================================== *)

Module Engine.

Local Open Scope Q_scope.

(** The attributes of a [SignalEngine] that a call can change or read: the
    two detectors and the flags the Phase 1 object read at construction. *)
Record State : Type := mkState {
  ict_strategies : ICT.State;
  smc_strategies : SMC.State;
  phase1_flags : Config.Settings
}.

(** [SignalEngine()] *)
Definition init : State := mkState ICT.init SMC.init Config.settings.

(** A method call on [self.ict_strategies], or on [self.smc_strategies]. *)
Definition on_ict {A} (m : M ICT.State A) : M State A :=
  fun s => let '(r, i) := m (ict_strategies s) in
           (r, mkState i (smc_strategies s) (phase1_flags s)).
Definition on_smc {A} (m : M SMC.State A) : M State A :=
  fun s => let '(r, x) := m (smc_strategies s) in
           (r, mkState (ict_strategies s) x (phase1_flags s)).

Record AllIndicators : Type := mkAllIndicators {
  sma50 : list (option float);
  sma200 : list (option float);
  rsi14 : list (option float);
  macd_line : list (option float);
  macd_signal : list (option float);
  macd_histogram : list (option float);
  close_prices : list float
}.

(** [Indicators.calculate_all_indicators], for a non-empty list. *)
Definition calculate_all_indicators (candles : list Candle)
  : result AllIndicators :=
  let closes := map c candles in
  (s50 <~ Indicators.sma closes 50 ;;
   s200 <~ Indicators.sma closes 200 ;;
   let r := Indicators.rsi closes 14 in
   m <~ Indicators.macd closes 12 26 9 ;;
   let '(ml, sl, hl) := m in
   Ok (mkAllIndicators s50 s200 r ml sl hl closes))%py.

(** [xs[-1]] of a list of optional values that is known to be non-empty:
    the value, or [None] for the sentinel. *)
Definition latest (xs : list (option float)) : option float :=
  match last_opt xs with Some x => x | None => None end.

(** The scores of [evaluate_timeframe] from the latest indicator values. *)
Definition score_timeframe (close sma50 sma200 rsi macd_line macd_signal
                            macd_hist : float) : MiniSignal * float :=
  let bull1 := (if fgt sma50 sma200 then 30 else 0)%Z in
  let bear1 := (if fgt sma50 sma200 then 0
                else if flt sma50 sma200 then 30 else 0)%Z in
  let bull2 := (if fgt close sma50 then 25 else 0)%Z in
  let bear2 := (if fgt close sma50 then 0
                else if flt close sma50 then 25 else 0)%Z in
  let '(bull3, bear3) :=
    (if flt rsi 30 then (25, 0)
     else if fgt rsi 70 then (0, 25)
     else if fle 40 rsi && fle rsi 60 then (0, 0)
     else if fgt rsi 60 then (0, 10)
     else (10, 0))%Z in
  let '(bull4, bear4) :=
    (if fgt macd_line macd_signal && fgt macd_hist 0 then (20, 0)
     else if flt macd_line macd_signal && flt macd_hist 0 then (0, 20)
     else (0, 0))%Z in
  let bullish_score := (bull1 + bull2 + bull3 + bull4)%Z in
  let bearish_score := (bear1 + bear2 + bear3 + bear4)%Z in
  let net_score := (bullish_score - bearish_score)%Z in
  let mini_signal :=
    if (30 <? net_score)%Z then BULLISH
    else if (net_score <? -30)%Z then BEARISH
    else MINI_NEUTRAL in
  (mini_signal, of_int (Z.min 100 (Z.max 0 (Z.abs net_score)))).

(** [SignalEngine.evaluate_timeframe] *)
Definition evaluate_timeframe (candles : list Candle)
  : result (MiniSignal * float) :=
  if (length candles =? 0)%nat || (length candles <? 200)%nat then
    Ok (MINI_NEUTRAL, 0)
  else
    (ind <~ calculate_all_indicators candles ;;
     match last_opt (close_prices ind), latest (macd_histogram ind) with
     | Some close, hist =>
         match latest (sma50 ind), latest (sma200 ind), latest (rsi14 ind),
               latest (macd_line ind), latest (macd_signal ind) with
         | Some s50, Some s200, Some r, Some ml, Some sg =>
             match hist with
             | Some mh => Ok (score_timeframe close s50 s200 r ml sg mh)
             | None => Raise TypeError   (* [None > 0] *)
             end
         | _, _, _, _, _ => Ok (MINI_NEUTRAL, 0)
         end
     | None, _ => Raise IndexError
     end)%py.

Definition count_signal (x : MiniSignal) (xs : list MiniSignal) : Z :=
  Z.of_nat (length (filter (fun y => match x, y with
                                     | BULLISH, BULLISH
                                     | BEARISH, BEARISH
                                     | MINI_NEUTRAL, MINI_NEUTRAL => true
                                     | _, _ => false
                                     end) xs)).

(** [max(xs, key=lambda x: x.strength * x.confidence)]: the first of the
    largest, [None] for the empty list that the caller guards against. *)
Definition strongest {A} (key : A -> float) (xs : list A) : option A :=
  match xs with
  | [] => None
  | x :: xs' =>
      Some (fold_left (fun best y => if fgt (key y) (key best) then y
                                     else best) xs' x)
  end.

Definition is_poor_or_reject (q : AI.SignalQuality) : bool :=
  match q with AI.POOR | AI.REJECT => true | _ => false end.

(** Steps 6 and 7 of [generate_signal]: the final strength, the
    recommendation with its two overrides to neutral, and then the
    kill-zone adjustment of the strength, at the timestamp [now] that the
    method reads from the clock. *)
Definition finalize (weighted_strength : float) (confluence_bonus : Z)
           (phase1_bonus : float) (ai_score : AI.AIConfidenceScore)
           (bullish_count bearish_count : Z) (now : Z)
  : Recommendation * Z :=
  let final_strength :=
    Z.min 100
      (int_of_float
         (fadd (fadd (fadd weighted_strength (of_int confluence_bonus))
                     phase1_bonus)
               (fmul (fsub (AI.success_probability ai_score) 50) 0.3))) in
  let recommendation :=
    if (2 <=? bullish_count)%Z then BUY
    else if (2 <=? bearish_count)%Z then SELL
    else NEUTRAL in
  let recommendation :=
    if is_poor_or_reject (AI.quality_rating ai_score)
       && (final_strength <? 50)%Z
    then NEUTRAL else recommendation in
  let recommendation :=
    if (final_strength <? 40)%Z then NEUTRAL else recommendation in
  let kill_zone_info := KillZones.get_current_kill_zone now in
  let should_trade :=
    fst (KillZones.should_trade_signal now (of_int final_strength)) in
  let final_strength :=
    if KillZones.is_active kill_zone_info
       && KillZones.optimal_for_entries kill_zone_info
    then Z.min 100 (final_strength + 5)
    else if KillZones.KillZoneType_eqb (KillZones.zone_type kill_zone_info)
                                        KillZones.OFF_HOURS
            && negb should_trade
    then Z.max 0 (final_strength - 15)
    else final_strength in
  (recommendation, final_strength).

(** [SignalEngine.generate_signal].  [now] is the timestamp the method
    takes from the clock for the kill-zone step. *)
Definition generate_signal (np : AI.Numpy)
           (candles_15m candles_1h candles_1d : list Candle) (now : Z)
  : M State SignalResponse :=
  (* 1. ICT strategy analysis *)
  let analysis_candles :=
    match candles_1h with [] => candles_15m | _ => candles_1h end in
  (ict_signals <- on_ict (ICT.analyze_candles analysis_candles) ;;
   s1 <- get ;;
   let liquidity_pools := ICT.get_liquidity_pools (ict_strategies s1) in
   (* 2. SMC strategy analysis *)
   smc_signals <- on_smc (SMC.analyze_candles analysis_candles) ;;
   (* 3. traditional technical analysis *)
   r15 <- lift (evaluate_timeframe candles_15m) ;;
   r1h <- lift (evaluate_timeframe candles_1h) ;;
   r1d <- lift (evaluate_timeframe candles_1d) ;;
   let '(m15_signal, m15_strength) := r15 in
   let '(h1_signal, h1_strength) := r1h in
   let '(d1_signal, d1_strength) := r1d in
   let weighted_strength :=
     fadd (fadd (fmul m15_strength 0.35) (fmul h1_strength 0.35))
          (fmul d1_strength 0.30) in
   let signals := [m15_signal; h1_signal; d1_signal] in
   let bullish_count := count_signal BULLISH signals in
   let bearish_count := count_signal BEARISH signals in
   let confluence_bonus :=
     if (2 <=? bullish_count)%Z then (15 * bullish_count)%Z
     else if (2 <=? bearish_count)%Z then (15 * bearish_count)%Z
     else 0%Z in
   (* 4. Phase 1 enhancements *)
   let preliminary_rec :=
     if (2 <=? bullish_count)%Z then Phase1.buy
     else if (2 <=? bearish_count)%Z then Phase1.sell
     else Phase1.neutral in
   s2 <- get ;;
   let phase1_bonus :=
     Phase1.calculate_phase1_enhancement (phase1_flags s2) analysis_candles
       liquidity_pools (fadd weighted_strength (of_int confluence_bonus))
       preliminary_rec in
   (* 5. AI enhancement *)
   let strongest_ict := strongest ICT.rank_key ict_signals in
   let strongest_smc := strongest SMC.rank_key smc_signals in
   let '(pattern_type, base_strength, base_confidence) :=
     match strongest_ict, strongest_smc with
     | Some x, _ =>
         (AI.PatICT (ICT.signal_type x), ICT.strength x, ICT.confidence x)
     | None, Some x =>
         (AI.PatSMC (SMC.signal_type x), SMC.strength x, SMC.confidence x)
     | None, None => (AI.PatNeutral, weighted_strength, 50)
     end in
   ai_score <- lift (AI.enhance_signal np analysis_candles pattern_type
                       base_strength base_confidence ict_signals
                       smc_signals) ;;
   (* 6. final signal, 7. kill zone *)
   let '(recommendation, final_strength) :=
     finalize weighted_strength confluence_bonus phase1_bonus ai_score
              bullish_count bearish_count now in
   lift (SignalResponse_new recommendation final_strength
           (mkBreakdown d1_signal h1_signal m15_signal)))%py.

(** [SignalEngine.aggregate_signals], the deprecated sibling of
    [generate_signal]: the strength it returns is the strength its
    neutrality test has seen. *)
Definition aggregate_signals (r15 r1h r1d : MiniSignal * float)
  : Recommendation * Z :=
  let '(m15_signal, m15_strength) := r15 in
  let '(h1_signal, h1_strength) := r1h in
  let '(d1_signal, d1_strength) := r1d in
  let weighted_strength :=
    fadd (fadd (fmul m15_strength 0.35) (fmul h1_strength 0.35))
         (fmul d1_strength 0.30) in
  let signals := [m15_signal; h1_signal; d1_signal] in
  let bullish_count := count_signal BULLISH signals in
  let bearish_count := count_signal BEARISH signals in
  let confluence_bonus :=
    if (2 <=? bullish_count)%Z then (15 * bullish_count)%Z
    else if (2 <=? bearish_count)%Z then (15 * bearish_count)%Z
    else 0%Z in
  let final_strength :=
    Z.min 100 (int_of_float (fadd weighted_strength (of_int confluence_bonus))) in
  let recommendation :=
    if (2 <=? bullish_count)%Z then BUY
    else if (2 <=? bearish_count)%Z then SELL
    else NEUTRAL in
  (if (final_strength <? 40)%Z then NEUTRAL else recommendation,
   final_strength).

End Engine.

(* ===================================================================== *)
(** ** Yardsticks and fixtures of the properties                          *)
(* ===================================================================== *)

(** Plain sum of rationals, the yardstick for the float sums of the code. *)
Definition Qsum (xs : list Q) : Q := fold_right Qplus 0 xs.

(** The mean of the [p] prices that end at index [i], in the words of the
    specification: the sliding arithmetic mean. *)
Definition sliding_mean (prices : list Q) (p i : nat) : Q :=
  Qsum (firstn p (skipn (i + 1 - p) prices)) / inject_Z (Z.of_nat p).

(** The rising prices 1.0, 2.0, ..., 29.0 of the test [test_rsi_uptrend]. *)
Definition rsi_uptrend_prices : list float :=
  map (fun k => inject_Z (Z.of_nat k)) (seq 1 29).

(** A candle whose four prices are [x], with volume 1000. *)
Definition candle_at (x : float) (ts : Z) : Candle :=
  mkCandle ts x x x x 1000.

(** [n] hourly candles at the price [x], the first one stamped [ts]. *)
Definition flat_run (x : float) (ts : Z) (n : nat) : list Candle :=
  map (fun i => candle_at x (ts + 3600 * Z.of_nat i)) (seq 0 n).

(** A detector that holds one unbroken bearish block 108-110, and three
    candles closing at 109, 110 and 111. *)
Definition breaker_fixture_state : ICT.State :=
  ICT.mkState [ICT.OrderBlock_new 110 108 1737799200 ICT.bearish] []
              (ICT.market_structure ICT.init).
Definition breaker_fixture_candles : list Candle :=
  [candle_at 109 1737802800; candle_at 110 1737806400;
   candle_at 111 1737810000].

(** Fifty hourly candles of a first window: flat at 100, then flat at 97
    from the 37th candle on.  The drop of 3% leaves a bearish order block
    with high 100. *)
Definition earlier_window : list Candle :=
  flat_run 100 1737000000 36 ++ flat_run 97 (1737000000 + 3600 * 36) 14.

(** Fifty hourly candles of a later window, flat at 101. *)
Definition later_window : list Candle := flat_run 101 1737500000 50.

(** Thirty hourly candles, flat at 100 but for the last one, a hammer: open
    100, low 97, high and close 100.5. *)
Definition hammer_window : list Candle :=
  flat_run 100 1737000000 29
  ++ [mkCandle (1737000000 + 3600 * 29) 100 100.5 97 100.5 1000].

(** Thirty hourly candles, flat at 100 but for the fifth from the end, a
    hammer of the same shape. *)
Definition early_hammer_window : list Candle :=
  flat_run 100 1737000000 25
  ++ [mkCandle (1737000000 + 3600 * 25) 100 100.5 97 100.5 1000]
  ++ flat_run 100.5 (1737000000 + 3600 * 26) 4.

(** Fifty hourly candles: flat at 100, then flat at 103 from the 37th candle
    on.  The rise of 3% leaves a bullish order block, and no bearish one. *)
Definition rally_window : list Candle :=
  flat_run 100 1737000000 36 ++ flat_run 103 (1737000000 + 3600 * 36) 14.

(** Closes of a 200-candle series: a rise from 100 to 270 by 1 a candle, then
    29 candles that fall by 1.2 and recover by 1.0 in turn. *)
Definition uptrend_close (i : nat) : float :=
  if (i <=? 170)%nat then inject_Z (100 + Z.of_nat i)
  else
    let k := (i - 170)%nat in
    Qred (270 - inject_Z (Z.of_nat (k / 2)) * 0.2
          - (if Nat.odd k then 1.2 else 0)).

(** The series with its last candle stamped [last_ts], [step] seconds between
    candles. *)
Definition uptrend_series (last_ts step : Z) : list Candle :=
  map (fun i => candle_at (uptrend_close i)
                          (last_ts - step * (199 - Z.of_nat i)))
      (seq 0 200).

(** The 15-minute series ends at 2025-01-26T17:45:00Z, the daily one at
    2025-01-26T00:00:00Z; the single hourly candle is stamped
    2025-01-26T17:00:00Z and the evaluation time is 2025-01-26T18:00:00Z,
    13:00 in the detector's clock. *)
Definition signal_15m : list Candle := uptrend_series 1737913500 900.
Definition signal_1d : list Candle := uptrend_series 1737849600 86400.
Definition signal_1h : list Candle := [candle_at 266 1737910800].
Definition signal_now : Z := 1737914400.

(** Twelve hourly candles that end at 2025-01-25T23:00:00Z: closes that
    alternate between 100 and 101, a volume of 1000 that drops to 100 on the
    last five. *)
Definition choppy_candle (i : nat) : Candle :=
  let x := if Nat.even i then 100 else 101 in
  mkCandle (1737846000 - 3600 * (11 - Z.of_nat i))
           x (x + 0.5) (x - 0.5) x
           (if (i <? 7)%nat then 1000 else 100).
Definition choppy_1h : list Candle := map choppy_candle (seq 0 12).
(** 2025-01-26T02:00:00Z, 21:00 in the detector's clock. *)
Definition asian_now : Z := 1737856800.

(** The shape of an inducement candle, in prices: a close above the open
    under a lower wick longer than twice the body, or a close below the open
    under an upper wick longer than twice the body. *)
Definition bullish_inducement_candle (x : Candle) : Prop :=
  (o x < c x /\ 2 * (c x - o x) < o x - l x)%Q.
Definition bearish_inducement_candle (x : Candle) : Prop :=
  (c x < o x /\ 2 * (o x - c x) < h x - o x)%Q.

(* ===================================================================== *)
(** ** engine/kill_zones.py: grouping candles by zone                     *)
(* ===================================================================== *)

Module KillZoneGroups.

Import KillZones.

(** A dict with one entry for every member of [KillZoneType]. *)
Definition ZoneDict : Type := KillZoneType -> list Candle.

Definition dict_append (d : ZoneDict) (k : KillZoneType) (x : Candle)
  : ZoneDict :=
  fun k' => if KillZoneType_eqb k' k then d k' ++ [x] else d k'.

(** [KillZoneDetector.analyze_candles_in_kill_zones] *)
Definition analyze_candles_in_kill_zones (candles : list Candle) : ZoneDict :=
  fold_left (fun zone_candles candle =>
               let info := get_current_kill_zone (t candle) in
               dict_append zone_candles (zone_type info) candle)
            candles (fun _ => []).

End KillZoneGroups.


(** The head of a list bounds the keys of the list. *)
Definition head_is_max {A} (key : A -> Q) (l : list A) : Prop :=
  match l with
  | [] => True
  | x :: _ => forall y, In y l -> (key y <= key x)%Q
  end.

(** An order block as a later state of the detector holds it: the same
    prices, timestamp, type and [confirmed] flag, and a [broken] or
    [breaker_confirmed] flag that was set is still set. *)
Definition same_block (b b' : ICT.OrderBlock) : Prop :=
  ICT.ob_high b' = ICT.ob_high b
  /\ ICT.ob_low b' = ICT.ob_low b
  /\ ICT.ob_timestamp b' = ICT.ob_timestamp b
  /\ ICT.ob_type b' = ICT.ob_type b
  /\ ICT.confirmed b' = ICT.confirmed b
  /\ (ICT.broken b = true -> ICT.broken b' = true)
  /\ (ICT.breaker_confirmed b = true -> ICT.breaker_confirmed b' = true).

(** An order block as the constructor leaves it. *)
Definition fresh_block (b : ICT.OrderBlock) : Prop :=
  ICT.confirmed b = false /\ ICT.broken b = false
  /\ ICT.breaker_confirmed b = false.

(** The signals that [ICTStrategies.analyze_candles] can build, with the
    strength and the confidence each type is given. *)
Definition reported_ict_signal (x : ICT.ICTSignalResult) : Prop :=
  match ICT.signal_type x with
  | ICT.BOS_BULLISH | ICT.BOS_BEARISH =>
      ICT.strength x = 75%Q /\ ICT.confidence x = 80%Q
  | ICT.BULLISH_BREAKER | ICT.BEARISH_BREAKER =>
      ICT.strength x = 85%Q /\ ICT.confidence x = 90%Q
  | ICT.MM_BUY_MODEL | ICT.MM_SELL_MODEL =>
      ICT.strength x = 90%Q /\ ICT.confidence x = 85%Q
  | _ => False
  end.

(** A detector that holds a bearish block 110-108 and a bullish block
    100-98. *)
Definition two_sided_state : ICT.State :=
  ICT.mkState [ICT.OrderBlock_new 110 108 1737799200 ICT.bearish;
               ICT.OrderBlock_new 100 98 1737802800 ICT.bullish] []
              (ICT.market_structure ICT.init).

(** A liquidity pool as a later state of the detector holds it: the same
    level, side and timestamp, and swept if it was swept. *)
Definition same_pool (p p' : SMC.LiquidityPool) : Prop :=
  SMC.price_level p' = SMC.price_level p
  /\ SMC.pool_type p' = SMC.pool_type p
  /\ SMC.pool_timestamp p' = SMC.pool_timestamp p
  /\ (SMC.swept p = true -> SMC.swept p' = true).

(** No pool lies within 0.1% of a later pool of its side, the distance
    taken relative to the later level, as [_detect_liquidity_pools] tests
    it. *)
Definition no_close_pools (ps : list SMC.LiquidityPool) : Prop :=
  ForallOrdPairs
    (fun p q => SMC.pool_type p = SMC.pool_type q ->
                SMC.rel_close (SMC.price_level p) (SMC.price_level q) = false)
    ps.

(** The signals that [SMCStrategies.analyze_candles] can return, with the
    strength and the confidence each type is given. *)
Definition reported_smc_signal (x : SMC.SMCSignalResult) : Prop :=
  match SMC.signal_type x with
  | SMC.LIQUIDITY_SWEEP_BULLISH | SMC.LIQUIDITY_SWEEP_BEARISH =>
      SMC.strength x = 85%Q /\ SMC.confidence x = 80%Q
  | SMC.BPR_BULLISH | SMC.BPR_BEARISH =>
      SMC.strength x = 65%Q /\ SMC.confidence x = 60%Q
  | SMC.MITIGATION_BULLISH | SMC.MITIGATION_BEARISH =>
      SMC.strength x = 80%Q /\ SMC.confidence x = 75%Q
  | _ => False
  end.

(** Fifty hourly candles that span the range 100-200 and close at 130,
    between the 79% and the 62% retracement of the range. *)
Definition ote_window : list Candle :=
  flat_run 200 1737000000 1 ++ flat_run 100 (1737000000 + 3600) 48
  ++ [candle_at 130 (1737000000 + 3600 * 49)].

(** Numpy routines that answer 0: a flat regression line and no spread. *)
Definition flat_numpy : AI.Numpy :=
  AI.mkNumpy (fun _ => 0%Q) (fun _ => 0%Q).

(** Two runs of a method agree up to [R]: from states related by [R] they
    return the same value, or raise the same exception, and leave states
    related by [R]. *)
Definition agree {S A} (R : S -> S -> Prop) (m : M S A) : Prop :=
  forall s s', R s s' ->
    fst (m s) = fst (m s') /\ R (snd (m s)) (snd (m s')).

(** Detectors that differ in the fair value gaps they have recorded, at
    most. *)
Definition same_but_gaps (s s' : ICT.State) : Prop :=
  ICT.order_blocks s = ICT.order_blocks s'
  /\ ICT.market_structure s = ICT.market_structure s'.

(** Detectors that differ in the inducements and the balanced price ranges
    they have recorded, at most. *)
Definition same_but_records (s s' : SMC.State) : Prop :=
  SMC.liquidity_pools s = SMC.liquidity_pools s'
  /\ SMC.mitigation_zones s = SMC.mitigation_zones s'.

(** A detector that has recorded one fair value gap and nothing else, and
    one that has recorded one inducement and one balanced price range. *)
Definition gap_only_state : ICT.State :=
  ICT.mkState []
    [ICT.mkFairValueGap 101 100 1737000000 1737007200 ICT.bullish false None]
    (ICT.market_structure ICT.init).
Definition records_only_state : SMC.State :=
  SMC.mkState []
    [SMC.mkInducementPattern ICT.bullish 97 100 1737000000 None] []
    [SMC.mkBalancedPriceRange 102 100 1737000000 1737032400 101].

(* ===================================================================== *)
(** ** indicators/__init__.py: the moving average with its roundings      *)
(* ===================================================================== *)

Module Rounded.

Local Open Scope Q_scope.

Section Rounding.

(** The rounding of the result of one float operation. *)
Variable rnd : Q -> Q.

(** Every product is rounded, and every partial sum. *)
Definition dot (xs ys : list float) : float :=
  fold_left (fun acc p => rnd (acc + rnd (fst p * snd p))) (combine xs ys) 0.

Definition np_convolve_valid (a v : list float) : list float :=
  map (fun w => dot w (rev v))
      (Indicators.windows (length v) a (length a - length v + 1)).

(** [Indicators.sma]: the kernel [np.ones(period)/period] holds the rounded
    quotient. *)
Definition sma (prices : list float) (period : nat)
  : result (list (option float)) :=
  if (length prices <? period)%nat then Ok (repeat None (length prices))
  else if (period =? 0)%nat then Raise ValueError
  else
    let kernel := repeat (rnd (1 / of_nat period)) period in
    let sma_values := np_convolve_valid prices kernel in
    Ok (repeat None (period - 1) ++ map Some sma_values).

End Rounding.

End Rounded.

(** A rounding of relative error [u] at most.  Rounding to the nearest
    number of 53 significant bits is one for [u = 2^-53]; it is the
    rounding of doubles as long as no operation overflows or underflows. *)
Definition rounds_within (u : Q) (rnd : Q -> Q) : Prop :=
  forall x, (Qabs (rnd x - x) <= u * Qabs x)%Q.

(** The unit roundoff of double precision, [2^-53]. *)
Definition double_roundoff : Q := 1 # 9007199254740992.

(** A rounding that errs by the whole of [u], toward zero: the worst case
    that [rounds_within u] allows. *)
Definition rounding_short_by (u : Q) (x : Q) : Q := Qred (x * (1 - u)).

(** The order blocks that [_detect_order_blocks] finds in [candles]: those
    it leaves in a detector that held none. *)
Definition found_blocks (candles : list Candle) : list ICT.OrderBlock :=
  ICT.order_blocks (snd (ICT._detect_order_blocks candles ICT.init)).

(** Detectors whose order blocks give the two break-of-structure tests the
    same answers: both hold blocks or neither does, and the highest high of
    the bearish blocks and the lowest low of the bullish blocks are the
    same. *)
Definition same_break_levels (s s' : ICT.State) : Prop :=
  (length (ICT.order_blocks s) =? 0)%nat
  = (length (ICT.order_blocks s') =? 0)%nat
  /\ ICT.py_max (map ICT.ob_high
                     (ICT.blocks_of ICT.bearish (ICT.order_blocks s)))
     = ICT.py_max (map ICT.ob_high
                       (ICT.blocks_of ICT.bearish (ICT.order_blocks s')))
  /\ ICT.py_min (map ICT.ob_low
                     (ICT.blocks_of ICT.bullish (ICT.order_blocks s)))
     = ICT.py_min (map ICT.ob_low
                       (ICT.blocks_of ICT.bullish (ICT.order_blocks s'))).

(** Fifty hourly candles: flat at 100, a drop to 97 at the 34th candle, a
    recovery over 98.5 and 100, then flat at 101.  The drop of 3% leaves a
    bearish order block with high 100, which the last close exceeds. *)
Definition breakout_window : list Candle :=
  flat_run 100 1737000000 33
  ++ [candle_at 97 (1737000000 + 3600 * 33);
      candle_at 98.5 (1737000000 + 3600 * 34);
      candle_at 100 (1737000000 + 3600 * 35)]
  ++ flat_run 101 (1737000000 + 3600 * 36) 14.

(** A detector that holds a buy-side pool at 100.5 and a sell-side pool at
    90, both unswept. *)
Definition two_pool_state : SMC.State :=
  SMC.mkState
    [SMC.mkLiquidityPool 100.5 SMC.pool_buy_side 1736000000 false None false;
     SMC.mkLiquidityPool 90 SMC.pool_sell_side 1736003600 false None false]
    [] [] [].

(* ===================================================================== *)
(** * Properties                                                          *)
(* ===================================================================== *)

Section FloatFacts.

Local Open Scope Q_scope.

Lemma fadd_correct x y : fadd x y == x + y.
Proof. apply Qred_correct. Qed.

Lemma fsub_correct x y : fsub x y == x - y.
Proof. apply Qred_correct. Qed.

Lemma fmul_correct x y : fmul x y == x * y.
Proof. apply Qred_correct. Qed.

Lemma fdiv_correct x y : fdiv x y == x / y.
Proof. apply Qred_correct. Qed.

Lemma fneg_correct x : fneg x == - x.
Proof. apply Qred_correct. Qed.

Lemma flt_iff x y : flt x y = true <-> x < y.
Proof.
  unfold flt. rewrite Qlt_alt. destruct (x ?= y); split; congruence.
Qed.

Lemma fle_iff x y : fle x y = true <-> x <= y.
Proof.
  unfold fle. rewrite Qle_alt. destruct (x ?= y); split; congruence.
Qed.

Lemma feq_iff x y : feq x y = true <-> x == y.
Proof.
  unfold feq. rewrite Qeq_alt. destruct (x ?= y); split; congruence.
Qed.

Lemma flt_false_iff x y : flt x y = false <-> y <= x.
Proof.
  rewrite <- not_true_iff_false, flt_iff. split.
  - apply Qnot_lt_le.
  - intros H1 H2. exact (Qlt_not_le _ _ H2 H1).
Qed.

Lemma fle_false_iff x y : fle x y = false <-> y < x.
Proof.
  rewrite <- not_true_iff_false, fle_iff. split.
  - apply Qnot_le_lt.
  - intros H1 H2. exact (Qlt_not_le _ _ H1 H2).
Qed.

End FloatFacts.


Section ListFacts.

Context {A : Type}.

Lemma nth_error_pad_some (k : nat) (xs : list A) (i : nat) (v : A) :
  nth_error (repeat None k ++ map Some (skipn k xs)) i = Some (Some v)
  <-> (k <= i)%nat /\ nth_error xs i = Some v.
Proof.
  destruct (Nat.lt_ge_cases i k) as [Hlt | Hge].
  - rewrite nth_error_app1 by (rewrite repeat_length; exact Hlt).
    rewrite nth_error_repeat by exact Hlt.
    split; [discriminate | intros [Hk _]; lia].
  - rewrite nth_error_app2 by (rewrite repeat_length; exact Hge).
    rewrite repeat_length, nth_error_map, nth_error_skipn.
    replace (k + (i - k))%nat with i by lia.
    destruct (nth_error xs i) as [a |]; cbn; split.
    + intros H; inversion H; auto.
    + intros [_ H]; inversion H; reflexivity.
    + discriminate.
    + intros [_ H]; discriminate.
Qed.

Lemma nth_error_pad_none (k : nat) (xs : list A) (i : nat) :
  (i < k)%nat ->
  nth_error (repeat (@None A) k ++ map Some (skipn k xs)) i = Some None.
Proof.
  intros Hlt.
  rewrite nth_error_app1 by (rewrite repeat_length; exact Hlt).
  apply nth_error_repeat; exact Hlt.
Qed.

Lemma length_pad (k : nat) (xs : list A) :
  (k <= length xs)%nat ->
  length (repeat (@None A) k ++ map Some (skipn k xs)) = length xs.
Proof.
  intros H. rewrite length_app, repeat_length, length_map, length_skipn. lia.
Qed.

Lemma nth_error_repeat_some (x y : A) (n i : nat) :
  nth_error (repeat x n) i = Some y -> y = x.
Proof.
  intros H. apply nth_error_In, repeat_spec in H. exact H.
Qed.

Lemma rev_repeat_same (x : A) (n : nat) : rev (repeat x n) = repeat x n.
Proof.
  induction n as [| n IH]; [reflexivity |].
  cbn [repeat rev]. rewrite IH. symmetry. apply repeat_cons.
Qed.

End ListFacts.

(* ===================================================================== *)
(** ** Indicators: the moving average                                     *)
(* ===================================================================== *)

Section SmaFacts.

Import Indicators.
Local Open Scope Q_scope.


Lemma windows_length {A} (m : nat) (a : list A) (k : nat) :
  length (windows m a k) = k.
Proof.
  revert a; induction k as [| k IH]; intros a; cbn; [reflexivity |].
  now rewrite IH.
Qed.

Lemma skipn_tl {A} (i : nat) (a : list A) : skipn i (tl a) = skipn (S i) a.
Proof. destruct a as [| x a]; [now rewrite !skipn_nil | reflexivity]. Qed.

Lemma windows_nth {A} (m : nat) (a : list A) (k i : nat) :
  (i < k)%nat -> nth_error (windows m a k) i = Some (firstn m (skipn i a)).
Proof.
  revert a i; induction k as [| k IH]; intros a i Hi; [lia |].
  destruct i as [| i]; cbn [windows nth_error]; [reflexivity |].
  rewrite IH by lia. now rewrite skipn_tl.
Qed.

Lemma dot_const_acc (w : list float) (c : float) (n : nat) (a : float) :
  (length w <= n)%nat ->
  fold_left (fun acc p => fadd acc (fmul (fst p) (snd p)))
            (combine w (repeat c n)) a
  == a + c * Qsum w.
Proof.
  revert n a; induction w as [| x w IH]; intros n a Hn.
  - cbn [combine fold_left Qsum fold_right]. ring.
  - destruct n as [| n]; cbn [length] in Hn; [lia |].
    cbn [repeat combine fold_left fst snd Qsum fold_right].
    rewrite IH by lia.
    rewrite fadd_correct, fmul_correct. unfold Qsum. ring.
Qed.

Lemma dot_const (w : list float) (c : float) (n : nat) :
  (length w <= n)%nat -> dot w (rev (repeat c n)) == c * Qsum w.
Proof.
  intros Hn. unfold dot. rewrite rev_repeat_same, dot_const_acc by exact Hn.
  ring.
Qed.

Lemma convolve_valid_length (a v : list float) :
  length (np_convolve_valid a v) = (length a - length v + 1)%nat.
Proof. unfold np_convolve_valid. now rewrite length_map, windows_length. Qed.

Lemma sma_entry (prices : list float) (p i : nat) :
  (1 <= p)%nat -> (p - 1 <= i)%nat -> (i < length prices)%nat ->
  exists v,
    nth_error (repeat None (p - 1)
               ++ map Some (np_convolve_valid prices
                              (repeat (fdiv 1 (of_nat p)) p))) i
    = Some (Some v)
    /\ v == sliding_mean prices p i.
Proof.
  intros Hp Hlo Hhi.
  rewrite nth_error_app2 by (rewrite repeat_length; exact Hlo).
  rewrite repeat_length, nth_error_map.
  unfold np_convolve_valid. rewrite nth_error_map, repeat_length.
  rewrite windows_nth by lia. cbn [option_map].
  eexists; split; [reflexivity |].
  rewrite dot_const by (rewrite length_firstn; lia).
  unfold sliding_mean. replace (i + 1 - p)%nat with (i - (p - 1))%nat by lia.
  rewrite fdiv_correct. unfold of_nat.
  field. intros H.
  assert (H' : inject_Z (Z.of_nat p) == inject_Z 0) by exact H.
  rewrite inject_Z_injective in H'. lia.
Qed.

End SmaFacts.

Section RoundedSmaFacts.

Local Open Scope Q_scope.

Variables (rnd : Q -> Q) (u : Q).
Hypothesis u_nonneg : 0 <= u.
Hypothesis rnd_within : rounds_within u rnd.

Lemma pow_succ (n : nat) :
(1 + u) ^ Z.of_nat (S n) == (1 + u) * (1 + u) ^ Z.of_nat n.
Proof.
rewrite Nat2Z.inj_succ. unfold Z.succ.
rewrite Qpower_plus by lra. rewrite Qpower_1_r. ring.
Qed.

(** The rounded product of a price with the rounded weight. *)
Lemma rounded_product (w0 w a : Q) :
0 <= w0 -> Qabs (w - w0) <= u * w0 ->
Qabs (rnd (a * w) - a * w0) <= ((1 + u) * (1 + u) - 1) * (Qabs a * w0)
/\ Qabs (a * w0) <= Qabs a * w0.
Proof.
intros Hw0 Hw.
pose proof (rnd_within (a * w)) as Ht.
pose proof (Qabs_nonneg a) as HA.
assert (E1 : Qabs (a * w - a * w0) <= Qabs a * Qabs (w - w0)).
{ setoid_replace (a * w - a * w0) with (a * (w - w0)) by ring.
  rewrite Qabs_Qmult. apply Qle_refl. }
rewrite Qabs_Qmult in Ht.
pose proof (Qabs_nonneg (w - w0)) as Hd.
assert (Hq : Qabs w <= w0 + u * w0).
{ apply Qabs_Qle_condition. apply Qabs_Qle_condition in Hw.
  assert (0 <= u * w0) by (apply Qmult_le_0_compat; assumption). lra. }
pose proof (Qabs_nonneg w) as Hq0.
assert (H2 : Qabs (a * w0) <= Qabs a * w0).
{ rewrite Qabs_Qmult, (Qabs_pos w0) by assumption. apply Qle_refl. }
set (d := Qabs (w - w0)) in *. set (q := Qabs w) in *.
set (A0 := Qabs a) in *. clearbody d q A0.
assert (P1 : 0 <= A0 * (u * w0 - d))
  by (apply Qmult_le_0_compat; [assumption | lra]).
assert (P2 : 0 <= u * (A0 * (w0 + u * w0 - q))).
{ apply Qmult_le_0_compat; [assumption |].
  apply Qmult_le_0_compat; [assumption | lra]. }
apply Qabs_Qle_condition in E1, Ht.
split.
- apply Qabs_Qle_condition. split; lra.
- exact H2.
Qed.

(** One turn of the summation. *)
Lemma rounded_step (acc e t x B A C : Q) :
0 <= B -> 0 <= A -> (1 + u) * (1 + u) <= C ->
Qabs (acc - e) <= (C - 1) * B -> Qabs e <= B ->
Qabs (t - x) <= ((1 + u) * (1 + u) - 1) * A -> Qabs x <= A ->
Qabs (rnd (acc + t) - (e + x)) <= ((1 + u) * C - 1) * (B + A)
/\ Qabs (e + x) <= B + A.
Proof.
intros HB HA HC H1 H2 H3 H4.
pose proof (rnd_within (acc + t)) as H5.
apply Qabs_Qle_condition in H1, H2, H3, H4.
assert (Hm : Qabs (acc + t)
             <= B + A + ((C - 1) * B + ((1 + u) * (1 + u) - 1) * A)).
{ apply Qabs_Qle_condition. split; lra. }
pose proof (Qabs_nonneg (acc + t)) as Hm0.
set (m := Qabs (acc + t)) in *. clearbody m.
assert (P1 : 0 <= u * (B + A + ((C - 1) * B + ((1 + u) * (1 + u) - 1) * A)
                       - m))
  by (apply Qmult_le_0_compat; [assumption | lra]).
assert (P2 : 0 <= (C - (1 + u) * (1 + u)) * ((1 + u) * A)).
{ apply Qmult_le_0_compat; [lra |]. apply Qmult_le_0_compat; lra. }
apply Qabs_Qle_condition in H5.
split; apply Qabs_Qle_condition; split; lra.
Qed.

(** The summation over a window, from any partial sum [acc] that is within
    [(C - 1) * B] of an exact partial sum [e] bounded by [B]. *)
Lemma rounded_dot_acc (w0 w : Q) (ws : list Q) :
0 <= w0 -> Qabs (w - w0) <= u * w0 ->
forall (n : nat) (acc e B C : Q),
(length ws <= n)%nat ->
0 <= B -> (1 + u) * (1 + u) <= C ->
Qabs (acc - e) <= (C - 1) * B -> Qabs e <= B ->
Qabs (fold_left (fun acc p => rnd (acc + rnd (fst p * snd p)))
                (combine ws (repeat w n)) acc
      - (e + w0 * Qsum ws))
<= ((1 + u) ^ Z.of_nat (length ws) * C - 1)
   * (B + w0 * Qsum (map Qabs ws)).
Proof.
intros Hw0 Hw. induction ws as [| a ws IH]; intros n acc e B C Hn HB HC H1 H2.
- cbn [combine fold_left length map Qsum fold_right Z.of_nat].
  rewrite Qpower_0_r.
  setoid_replace (acc - (e + w0 * 0)) with (acc - e) by ring.
  setoid_replace ((1 * C - 1) * (B + w0 * 0)) with ((C - 1) * B) by ring.
  exact H1.
- destruct n as [| n]; cbn [length] in Hn; [lia |].
  cbn [repeat combine fold_left fst snd length map].
  change (Qsum (a :: ws)) with (a + Qsum ws).
  change (Qsum (Qabs a :: map Qabs ws)) with (Qabs a + Qsum (map Qabs ws)).
  destruct (rounded_product w0 w a Hw0 Hw) as [Hp1 Hp2].
  pose proof (Qabs_nonneg a) as HA0.
  assert (HA : 0 <= Qabs a * w0) by (apply Qmult_le_0_compat; assumption).
  destruct (rounded_step acc e (rnd (a * w)) (a * w0) B (Qabs a * w0) C
              HB HA HC H1 H2 Hp1 Hp2) as [Hs1 Hs2].
  assert (HC' : (1 + u) * (1 + u) <= (1 + u) * C).
  { assert (0 <= (1 + u) * (C - (1 + u) * (1 + u)))
      by (apply Qmult_le_0_compat; lra).
    assert (0 <= u * ((1 + u) * (1 + u)))
      by (apply Qmult_le_0_compat; [| apply Qmult_le_0_compat]; lra).
    lra. }
  assert (HB' : 0 <= B + Qabs a * w0) by lra.
  pose proof (IH n (rnd (acc + rnd (a * w))) (e + a * w0)
                 (B + Qabs a * w0) ((1 + u) * C)
                 ltac:(lia) HB' HC' Hs1 Hs2) as IH'.
  rewrite pow_succ.
  setoid_replace (e + w0 * (a + Qsum ws))
    with (e + a * w0 + w0 * Qsum ws) by ring.
  setoid_replace (((1 + u) * (1 + u) ^ Z.of_nat (length ws) * C - 1)
                  * (B + w0 * (Qabs a + Qsum (map Qabs ws))))
    with (((1 + u) ^ Z.of_nat (length ws) * ((1 + u) * C) - 1)
          * (B + Qabs a * w0 + w0 * Qsum (map Qabs ws))) by ring.
  exact IH'.
Qed.

Lemma kernel_weight_pos (p : nat) : (1 <= p)%nat -> 0 < of_nat p.
Proof.
intros Hp. unfold of_nat. change 0 with (inject_Z 0). rewrite <- Zlt_Qlt. lia.
Qed.

(** The rounded dot product of a window of [p] prices with the kernel is
    within [(1 + u)^(p + 2) - 1], relative to the mean of the absolute
    values, of the window's mean. *)
Lemma rounded_dot_mean (ws : list Q) (p : nat) :
(1 <= p)%nat -> length ws = p ->
Qabs (Rounded.dot rnd ws (rev (repeat (rnd (1 / of_nat p)) p))
      - Qsum ws / of_nat p)
<= ((1 + u) ^ Z.of_nat (p + 2) - 1) * (Qsum (map Qabs ws) / of_nat p).
Proof.
intros Hp Hlen. pose proof (kernel_weight_pos p Hp) as Hpos.
assert (Hw0 : 0 <= 1 / of_nat p).
{ apply Qle_shift_div_l; [exact Hpos | lra]. }
assert (Hw : Qabs (rnd (1 / of_nat p) - 1 / of_nat p) <= u * (1 / of_nat p)).
{ pose proof (rnd_within (1 / of_nat p)) as H.
  now rewrite (Qabs_pos (1 / of_nat p)) in H by exact Hw0. }
unfold Rounded.dot. rewrite rev_repeat_same.
pose proof (rounded_dot_acc (1 / of_nat p) (rnd (1 / of_nat p)) ws Hw0 Hw
              p 0 0 0 ((1 + u) * (1 + u))) as H.
rewrite Hlen in H.
replace (p + 2)%nat with (S (S p)) by lia. rewrite !pow_succ.
setoid_replace (Qsum ws / of_nat p) with (0 + 1 / of_nat p * Qsum ws)
  by (field; lra).
setoid_replace (((1 + u) * ((1 + u) * (1 + u) ^ Z.of_nat p) - 1)
                * (Qsum (map Qabs ws) / of_nat p))
  with (((1 + u) ^ Z.of_nat p * ((1 + u) * (1 + u)) - 1)
        * (0 + 1 / of_nat p * Qsum (map Qabs ws)))
  by (field; lra).
apply H.
- lia.
- apply Qle_refl.
- apply Qle_refl.
- setoid_replace (0 - 0) with 0 by ring.
  setoid_replace (((1 + u) * (1 + u) - 1) * 0) with 0 by ring.
  discriminate.
- discriminate.
Qed.

(** An entry behind the sentinels. *)
Lemma rounded_sma_entry (prices : list float) (p i : nat) :
(1 <= p)%nat -> (p - 1 <= i)%nat -> (i < length prices)%nat ->
exists v,
  nth_error (repeat None (p - 1)
             ++ map Some (Rounded.np_convolve_valid rnd prices
                            (repeat (rnd (1 / of_nat p)) p))) i
  = Some (Some v)
  /\ Qabs (v - sliding_mean prices p i)
     <= ((1 + u) ^ Z.of_nat (p + 2) - 1)
        * sliding_mean (map Qabs prices) p i.
Proof.
intros Hp Hlo Hhi.
rewrite nth_error_app2 by (rewrite repeat_length; exact Hlo).
rewrite repeat_length, nth_error_map.
unfold Rounded.np_convolve_valid. rewrite nth_error_map, repeat_length.
rewrite windows_nth by lia. cbn [option_map].
eexists; split; [reflexivity |].
unfold sliding_mean. replace (i + 1 - p)%nat with (i - (p - 1))%nat by lia.
rewrite skipn_map, firstn_map.
apply (rounded_dot_mean (firstn p (skipn (i - (p - 1)) prices)) p Hp).
rewrite length_firstn, length_skipn. lia.
Qed.

End RoundedSmaFacts.

(** The exact arithmetic of [Indicators.sma] is the rounding that rounds
    nothing. *)
Lemma sma_without_rounding (prices : list float) (p : nat) :
Indicators.sma prices p = Rounded.sma Qred prices p.
Proof. reflexivity. Qed.

Lemma Qred_rounds_within (u : Q) : (0 <= u)%Q -> rounds_within u Qred.
Proof.
intros Hu x. setoid_replace (Qred x - x)%Q with 0%Q
  by (rewrite Qred_correct; ring).
apply Qmult_le_0_compat; [exact Hu | apply Qabs_nonneg].
Qed.

(** C8 (counterexample). For a period of 0 [sma] returns no list: the kernel
    is empty, and [np.convolve] raises [ValueError], whatever the prices and
    the rounding. *)
Lemma sma_period_0_raises_value_error :
  Indicators.sma [10; 11]%Q 0 = Raise ValueError
  /\ Indicators.sma [] 0 = Raise ValueError
  /\ forall rnd prices, Rounded.sma rnd prices 0 = Raise ValueError.
Proof. repeat split. Qed.

(** C8 (amended). For a period [p] of at least 1, with every float operation
    rounded with a relative error of [u] at most: when [len(prices) >= p],
    [sma] returns a list as long as [prices] whose first [p - 1] entries are
    the not-ready sentinel [None] and whose every later entry is the
    arithmetic mean of the [p] prices ending at that index up to rounding,
    within [(1 + u)^(p + 2) - 1] times the mean of their absolute values;
    when [len(prices) < p] it returns [len(prices)] sentinels. *)
Theorem sma_sentinels_then_rounded_sliding_means
  (rnd : Q -> Q) (u : Q) (prices : list float) (p : nat) :
  (0 <= u)%Q -> rounds_within u rnd -> (1 <= p)%nat ->
  ((p <= length prices)%nat ->
   exists out,
     Rounded.sma rnd prices p = Ok out
     /\ length out = length prices
     /\ (forall i, (i < p - 1)%nat -> nth_error out i = Some None)
     /\ (forall i, (p - 1 <= i)%nat -> (i < length prices)%nat ->
           exists v,
             nth_error out i = Some (Some v)
             /\ (Qabs (v - sliding_mean prices p i)
                 <= ((1 + u) ^ Z.of_nat (p + 2) - 1)
                    * sliding_mean (map Qabs prices) p i)%Q))
  /\ ((length prices < p)%nat ->
      Rounded.sma rnd prices p = Ok (repeat None (length prices))).
Proof.
  intros Hu Hr Hp. unfold Rounded.sma. split.
  - intros Hlen.
    destruct (Nat.ltb_spec (length prices) p) as [Hlt | _]; [lia |].
    destruct (Nat.eqb_spec p 0) as [H0 | _]; [lia |].
    eexists; split; [reflexivity |]. split; [| split].
    + unfold Rounded.np_convolve_valid.
      rewrite length_app, repeat_length, !length_map, windows_length,
        repeat_length. lia.
    + intros i Hi. rewrite nth_error_app1 by (rewrite repeat_length; exact Hi).
      apply nth_error_repeat; exact Hi.
    + intros i Hlo Hhi. apply rounded_sma_entry; assumption.
  - intros Hlt.
    destruct (Nat.ltb_spec (length prices) p) as [_ | Hge]; [reflexivity | lia].
Qed.

Lemma rounding_short_by_within (u : Q) :
(0 <= u)%Q -> rounds_within u (rounding_short_by u).
Proof.
intros Hu x. unfold rounding_short_by.
setoid_replace (Qred (x * (1 - u)) - x)%Q with (- (u * x))%Q
  by (rewrite Qred_correct; ring).
rewrite Qabs_opp, Qabs_Qmult, (Qabs_pos u) by exact Hu. apply Qle_refl.
Qed.

Lemma sma_sentinels_then_rounded_sliding_means_witness :
  (0 <= double_roundoff)%Q
  /\ rounds_within double_roundoff (rounding_short_by double_roundoff)
  /\ (1 <= 3)%nat
  /\ (exists out v,
        Rounded.sma (rounding_short_by double_roundoff) [10; 11; 12; 14]%Q 3
        = Ok out
        /\ firstn 2 out = [None; None]
        /\ nth_error out 3 = Some (Some v)
        /\ (v < sliding_mean [10; 11; 12; 14] 3 3)%Q
        /\ (Qabs (v - sliding_mean [10; 11; 12; 14] 3 3)
            <= ((1 + double_roundoff) ^ 5 - 1)
               * sliding_mean [10; 11; 12; 14] 3 3)%Q)
  /\ Rounded.sma (rounding_short_by double_roundoff) [10; 11]%Q 3
     = Ok [None; None].
Proof.
  assert (Hu : (0 <= double_roundoff)%Q) by discriminate.
  pose proof (rounding_short_by_within double_roundoff Hu) as Hr.
  split; [exact Hu |]. split; [exact Hr |]. split; [lia |]. split.
  - destruct (sma_sentinels_then_rounded_sliding_means
                (rounding_short_by double_roundoff) double_roundoff
                [10; 11; 12; 14]%Q 3 Hu Hr ltac:(lia))
      as [H _].
    destruct (H ltac:(cbn; lia)) as (out & Hout & _ & Hs & Hv).
    destruct (Hv 3%nat ltac:(lia) ltac:(cbn; lia)) as (v & Hn & Hb).
    assert (Hlt : forall o w,
              Rounded.sma (rounding_short_by double_roundoff)
                          [10; 11; 12; 14]%Q 3 = Ok o ->
              nth_error o 3 = Some (Some w) ->
              firstn 2 o = [None; None]
              /\ (w < sliding_mean [10; 11; 12; 14] 3 3)%Q).
    { vm_compute. intros o w Ho Hw. injection Ho as <-.
      cbn [nth_error] in Hw. injection Hw as <-.
      split; reflexivity. }
    destruct (Hlt out v Hout Hn) as [Hf Hl].
    exists out, v. split; [exact Hout |]. split; [exact Hf |].
    split; [exact Hn |]. split; [exact Hl | exact Hb].
  - destruct (sma_sentinels_then_rounded_sliding_means
                (rounding_short_by double_roundoff) double_roundoff
                [10; 11]%Q 3 Hu Hr ltac:(lia))
      as [_ H].
    apply H. cbn. lia.
Defined.

(* ===================================================================== *)
(** ** Indicators: MACD                                                   *)
(* ===================================================================== *)

Section MacdFacts.

Import Indicators.
Local Open Scope Q_scope.

Lemma arr_sub_nth (xs ys : list float) (i : nat) (x y : float) :
  nth_error xs i = Some x -> nth_error ys i = Some y ->
  nth_error (arr_sub xs ys) i = Some (fsub x y).
Proof.
  revert ys i; induction xs as [| a xs IH]; intros ys i Hx Hy.
  - destruct i; discriminate.
  - destruct ys as [| b ys]; [destruct i; discriminate |].
    destruct i as [| i]; cbn in *.
    + now inversion Hx; inversion Hy.
    + now apply IH.
Qed.

Lemma ema_length (data : list float) (period : nat) (e : list float) :
  (1 <= period)%nat -> _ema data period = Ok e -> length e = length data.
Proof.
  intros Hp. unfold _ema.
  destruct (Nat.ltb_spec (length data) period) as [| Hge]; [discriminate |].
  intros H; inversion H; subst e; clear H.
  rewrite length_app, repeat_length. cbn [length].
  assert (Hl : forall a p xs, length (ema_loop a p xs) = length xs).
  { intros a p xs; revert p; induction xs as [| x xs IH]; intros p; cbn;
      [reflexivity | now rewrite IH]. }
  rewrite Hl, length_skipn. lia.
Qed.

Lemma ema_returns (data : list float) (period : nat) :
  (period <= length data)%nat -> exists e, _ema data period = Ok e.
Proof.
  intros H. unfold _ema.
  destruct (Nat.ltb_spec (length data) period); [lia |]. eauto.
Qed.

Lemma arr_sub_length (xs ys : list float) :
  length xs = length ys -> length (arr_sub xs ys) = length xs.
Proof.
  intros H. unfold arr_sub. rewrite length_map, length_combine. lia.
Qed.

(** With periods ordered as the callers order them, [macd] never raises. *)
Lemma macd_returns (prices : list float) (fast slow signal : nat) :
  (1 <= fast)%nat -> (fast <= slow)%nat ->
  (1 <= signal)%nat -> (signal <= slow)%nat ->
  exists t, macd prices fast slow signal = Ok t.
Proof.
  intros Hf Hfs Hs Hss. unfold macd.
  destruct (Nat.ltb_spec (length prices) slow) as [| Hge]; [eauto |].
  destruct (ema_returns prices fast ltac:(lia)) as [ef Hef].
  destruct (ema_returns prices slow ltac:(lia)) as [es Hes].
  rewrite Hef, Hes. cbn [rbind].
  assert (Hsl : (1 <= slow)%nat) by lia.
  pose proof (ema_length _ _ _ Hf Hef) as Lf.
  pose proof (ema_length _ _ _ Hsl Hes) as Ls.
  destruct (ema_returns (arr_sub ef es) signal) as [sg Hsg].
  { rewrite arr_sub_length by congruence. lia. }
  rewrite Hsg. cbn [rbind]. eauto.
Qed.

End MacdFacts.

(** C9. Whenever [macd] returns its three lists, at every index where both
    the MACD line and the signal line are defined the histogram is defined
    and equals the MACD-line value minus the signal-line value (so it is
    within the tolerance 1e-6 of it too). *)
Theorem macd_histogram_is_line_minus_signal
  (prices : list float) (fast slow signal : nat)
  (ml sl hl : list (option float)) :
  (1 <= fast)%nat -> (1 <= slow)%nat -> (1 <= signal)%nat ->
  Indicators.macd prices fast slow signal = Ok (ml, sl, hl) ->
  forall (i : nat) (m s : float),
    nth_error ml i = Some (Some m) ->
    nth_error sl i = Some (Some s) ->
    exists h, nth_error hl i = Some (Some h)
              /\ (h == m - s)%Q
              /\ (Qabs (h - (m - s)) <= 1e-6)%Q.
Proof.
  intros _ _ _ Hm i m s Hml Hsl. unfold Indicators.macd in Hm.
  destruct (length prices <? slow)%nat.
  - inversion Hm; subst. apply nth_error_repeat_some in Hml. discriminate.
  - destruct (Indicators._ema prices fast) as [ef |]; [| discriminate].
    destruct (Indicators._ema prices slow) as [es |]; [| discriminate].
    cbn [rbind] in Hm.
    destruct (Indicators._ema (Indicators.arr_sub ef es) signal) as [sg |];
      [| discriminate].
    cbn [rbind] in Hm. inversion Hm; subst ml sl hl; clear Hm.
    apply nth_error_pad_some in Hml as [_ Hml].
    apply nth_error_pad_some in Hsl as [Hi Hsl].
    exists (fsub m s). split; [| split].
    + apply nth_error_pad_some. split; [exact Hi |].
      now apply arr_sub_nth.
    + apply fsub_correct.
    + rewrite fsub_correct.
      setoid_replace (m - s - (m - s))%Q with 0%Q by ring.
      cbn. discriminate.
Qed.

Lemma macd_histogram_is_line_minus_signal_witness :
  exists ml sl hl m s h,
    Indicators.macd (map inject_Z [1; 2; 4; 8; 16; 32]%Z) 1 2 2 = Ok (ml, sl, hl)
    /\ nth_error ml 3 = Some (Some m)
    /\ nth_error sl 3 = Some (Some s)
    /\ nth_error hl 3 = Some (Some h)
    /\ (h == m - s)%Q.
Proof.
  destruct (Indicators.macd (map inject_Z [1; 2; 4; 8; 16; 32]%Z) 1 2 2)
    as [[[ml sl] hl] | e] eqn:Hr.
  2: { vm_compute in Hr. discriminate Hr. }
  pose proof Hr as Hc. vm_compute in Hc.
  inversion Hc as [[Hml Hsl Hhl]]. clear Hc.
  destruct (nth_error ml 3) as [[m |] |] eqn:Em;
    try (subst ml; discriminate Em).
  destruct (nth_error sl 3) as [[s |] |] eqn:Es;
    try (subst sl; discriminate Es).
  destruct (macd_histogram_is_line_minus_signal
              (map inject_Z [1; 2; 4; 8; 16; 32]%Z) 1 2 2 ml sl hl
              ltac:(lia) ltac:(lia) ltac:(lia) Hr 3%nat m s Em Es)
    as (h & Hh & Heq & _).
  exists ml, sl, hl, m, s, h. repeat split; assumption.
Defined.

(* ===================================================================== *)
(** ** Indicators: RSI                                                    *)
(* ===================================================================== *)

Section RsiFacts.

Import Indicators.
Local Open Scope Q_scope.

Lemma rsi_of_zero_rs : rsi_of_rs 0 = 0.
Proof. reflexivity. Qed.

Lemma rs_of_zero_loss (ag al : float) : al == 0 -> rs_of ag al = 0.
Proof.
  intros H. unfold rs_of. apply feq_iff in H. now rewrite H.
Qed.

Lemma rsi_values_nth (prices : list float) (period i : nat) (r : float) :
  nth_error (rsi_values prices period) i = Some r ->
  exists ag al,
    nth_error (avg_gain prices period) i = Some ag
    /\ nth_error (avg_loss prices period) i = Some al
    /\ r = rsi_of_rs (rs_of ag al).
Proof.
  unfold rsi_values. rewrite nth_error_map.
  generalize (avg_gain prices period) (avg_loss prices period).
  intros gs ls. revert ls i.
  induction gs as [| g gs IH]; intros ls i H.
  - destruct i; discriminate.
  - destruct ls as [| l ls]; [destruct i; discriminate |].
    destruct i as [| i]; cbn in H.
    + inversion H. exists g, l. auto.
    + apply IH in H. exact H.
Qed.

Lemma rsi_defined_nth (prices : list float) (period i : nat) (r : float) :
  nth_error (rsi prices period) i = Some (Some r) ->
  (period <= i)%nat /\ nth_error (rsi_values prices period) i = Some r.
Proof.
  unfold rsi. destruct (length prices <? period + 1)%nat.
  - intros H. apply nth_error_repeat_some in H. discriminate.
  - apply nth_error_pad_some.
Qed.

End RsiFacts.

(** C4 (what the code computes). At every index where [rsi] is defined and
    the Wilder-smoothed average loss is zero, the RSI value is 0, whatever the
    average gain is: [rs] is set to 0 there and [100 - 100 / (1 + 0)] is 0.
    So the value is 0 when the average gain is zero too, as claimed, but it
    is 0 and not 100 when gains exist. *)
Theorem rsi_is_zero_when_avg_loss_is_zero
  (prices : list float) (period i : nat) (r al : float) :
  (1 <= period)%nat ->
  nth_error (Indicators.rsi prices period) i = Some (Some r) ->
  nth_error (Indicators.avg_loss prices period) i = Some al ->
  (al == 0)%Q ->
  r = 0%Q.
Proof.
  intros _ Hr Hal Hz.
  apply rsi_defined_nth in Hr as [_ Hr].
  apply rsi_values_nth in Hr as (ag & al' & _ & Hal' & ->).
  rewrite Hal in Hal'. inversion Hal'; subst al'.
  rewrite rs_of_zero_loss by exact Hz. apply rsi_of_zero_rs.
Qed.


(** On the uptrend fixture every defined RSI value is 0 although the average
    gain is 1 and the average loss 0 at each of those indices. *)
Lemma rsi_uptrend_is_zero :
  Indicators.rsi rsi_uptrend_prices 14 = repeat None 14 ++ repeat (Some 0%Q) 15
  /\ skipn 14 (Indicators.avg_gain rsi_uptrend_prices 14) = repeat 1%Q 15
  /\ skipn 14 (Indicators.avg_loss rsi_uptrend_prices 14) = repeat 0%Q 15.
Proof. vm_compute. repeat split. Qed.

Lemma rsi_is_zero_when_avg_loss_is_zero_witness :
  nth_error (Indicators.avg_gain rsi_uptrend_prices 14) 20 = Some 1%Q
  /\ nth_error (Indicators.avg_loss rsi_uptrend_prices 14) 20 = Some 0%Q
  /\ nth_error (Indicators.rsi rsi_uptrend_prices 14) 20 = Some (Some 0%Q).
Proof.
  split; [reflexivity |]. split; [reflexivity |].
  destruct (nth_error (Indicators.rsi rsi_uptrend_prices 14) 20)
    as [[r |] |] eqn:Hr; try (vm_compute in Hr; discriminate Hr).
  rewrite (rsi_is_zero_when_avg_loss_is_zero rsi_uptrend_prices 14 20 r 0
             ltac:(lia) Hr ltac:(reflexivity) ltac:(reflexivity)).
  reflexivity.
Defined.

(* ===================================================================== *)
(** ** Kill zones: the trade decision                                     *)
(* ===================================================================== *)

Section KillZoneFacts.

Import KillZones.
Local Open Scope Z_scope.

Lemma zone_of_first_zone (ts : Z) :
  match first_zone (est_time_of_day ts) KILL_ZONES with
  | Some zt =>
      zone_type (get_current_kill_zone ts) = zt
      /\ is_active (get_current_kill_zone ts) = true
  | None =>
      zone_type (get_current_kill_zone ts) = OFF_HOURS
      /\ is_active (get_current_kill_zone ts) = false
  end.
Proof.
  unfold get_current_kill_zone.
  destruct (first_zone (est_time_of_day ts) KILL_ZONES) as [zt |];
    [| split; reflexivity].
  unfold _create_kill_zone_info.
  destruct (zone_window zt) as [s e]. destruct (e <? s), zt; split; reflexivity.
Qed.

Lemma first_zone_in (cur : Z) (zs : list (KillZoneType * (Z * Z)))
      (zt : KillZoneType) :
  first_zone cur zs = Some zt -> In zt (map fst zs).
Proof.
  induction zs as [| [z [s e]] zs IH]; cbn; [discriminate |].
  destruct (_is_time_in_window cur s e).
  - intros H; inversion H; auto.
  - intros H; right; auto.
Qed.

(** A timestamp classified as the Asian session is in an active zone that
    is not optimal for entries. *)
Lemma asian_session_info (ts : Z) :
  zone_type (get_current_kill_zone ts) = ASIAN_SESSION ->
  is_active (get_current_kill_zone ts) = true
  /\ optimal_for_entries (get_current_kill_zone ts) = false.
Proof.
  pose proof (zone_of_first_zone ts) as H.
  unfold get_current_kill_zone in *.
  destruct (first_zone (est_time_of_day ts) KILL_ZONES) as [zt |].
  - destruct H as [Hz Ha]. intros Hz'. rewrite Hz' in Hz. subst zt.
    split; [exact Ha | reflexivity].
  - destruct H as [Hz _]. intros Hz'. rewrite Hz' in Hz. discriminate.
Qed.

(** The Asian session of the detector: 20:00:00 to 23:59:59 and the single
    second 00:00:00, in the fixed UTC-5 clock. *)
Lemma asian_session_iff (ts : Z) :
  zone_type (get_current_kill_zone ts) = ASIAN_SESSION
  <-> (72000 <= est_time_of_day ts \/ est_time_of_day ts = 0).
Proof.
  pose proof (zone_of_first_zone ts) as H.
  assert (Hr : 0 <= est_time_of_day ts < 86400)
    by (unfold est_time_of_day; apply Z.mod_pos_bound; lia).
  assert (E : KILL_ZONES
              = [ (LONDON_KILL_ZONE, (10800, 18000));
                  (NY_KILL_ZONE, (34200, 41400));
                  (LONDON_CLOSE, (39600, 43200));
                  (ASIAN_SESSION, (72000, 0)) ]) by reflexivity.
  rewrite E in H. clear E. revert H.
  cbn [first_zone]. unfold _is_time_in_window.
  repeat match goal with
         | |- context [?a <=? ?b] => destruct (Z.leb_spec a b)
         | |- context [?a <? ?b] => destruct (Z.ltb_spec a b)
         end; cbn [andb orb]; intros [Hz _]; rewrite Hz;
    split; intros; try discriminate; try reflexivity; try lia.
Qed.

End KillZoneFacts.

(** C6 (counterexample). 2025-01-26T02:00:00Z is 21:00 in the detector's
    clock, inside the Asian session, and a signal of strength 70 is accepted
    there: the first rule of the decision table, "always trade high-strength
    signals in kill zones", fires before the Asian-session refusal. *)
Lemma should_trade_signal_asian_strength_70_accepted :
  KillZones.zone_type (KillZones.get_current_kill_zone 1737856800)
  = KillZones.ASIAN_SESSION
  /\ KillZones.should_trade_signal 1737856800 70
     = (true, KillZones.high_strength_in_zone).
Proof. split; reflexivity. Qed.

(** C6 (amended). For every timestamp that falls in the Asian session,
    [should_trade_signal] returns [False] exactly for the strengths below 70;
    from strength 70 on it returns [True]. *)
Theorem should_trade_signal_asian_session (ts : Z) (strength : float) :
  KillZones.zone_type (KillZones.get_current_kill_zone ts)
  = KillZones.ASIAN_SESSION ->
  ((strength < 70)%Q ->
   KillZones.should_trade_signal ts strength
   = (false, KillZones.avoid_asian_session))
  /\ ((70 <= strength)%Q ->
      KillZones.should_trade_signal ts strength
      = (true, KillZones.high_strength_in_zone)).
Proof.
  intros Hz. destruct (asian_session_info ts Hz) as [Ha Ho].
  unfold KillZones.should_trade_signal. rewrite Ha, Ho, Hz. cbn [andb].
  unfold fge. split; intros Hs.
  - apply fle_false_iff in Hs. rewrite Hs. reflexivity.
  - apply fle_iff in Hs. rewrite Hs. reflexivity.
Qed.

Lemma should_trade_signal_asian_session_witness :
  KillZones.should_trade_signal 1737856800 69
  = (false, KillZones.avoid_asian_session)
  /\ KillZones.should_trade_signal 1737856800 (141 # 2)
     = (true, KillZones.high_strength_in_zone).
Proof.
  destruct (should_trade_signal_asian_session 1737856800 69 eq_refl)
    as [H1 _].
  destruct (should_trade_signal_asian_session 1737856800 (141 # 2) eq_refl)
    as [_ H2].
  split; [apply H1; reflexivity | apply H2; discriminate].
Defined.

(* ===================================================================== *)
(** ** ICT: the breaker-block scan                                        *)
(* ===================================================================== *)

Section BreakerFacts.

Import ICT.
Local Open Scope Q_scope.

Lemma last_n_nth {A} (n : nat) (xs : list A) (i : nat) :
(length xs - n <= i)%nat ->
nth_error (last_n n xs) (i - (length xs - n)) = nth_error xs i.
Proof.
intros Hi. unfold last_n. rewrite nth_error_skipn. f_equal. lia.
Qed.

Lemma breaker_step_bearish_broken (price : float) (b : OrderBlock) :
broken b = false -> ob_type b = bearish -> ob_high b < price ->
breaker_step price b
= (mark_broken b,
   [mkICTSignalResult BULLISH_BREAKER 85 90 price (ob_low b, ob_high b)
      (fmul (ob_low b) 0.997) (fmul (ob_high b) 1.03) None]).
Proof.
intros Hb Ht Hp. unfold breaker_step. rewrite Hb, Ht. cbn [negb Side_eqb andb].
unfold fgt. apply flt_iff in Hp. rewrite Hp. reflexivity.
Qed.

(** The scan, on three candles or more, as a function of the state. *)
Lemma detect_breaker_blocks_run (recent_candles : list Candle) (last : Candle)
  (s : State) :
(3 <= length recent_candles)%nat ->
last_opt recent_candles = Some last ->
_detect_breaker_blocks recent_candles s
= (Ok (flat_map snd (map (breaker_step (c last)) (last_n 10 (order_blocks s)))),
   set_order_blocks
     (firstn (length (order_blocks s) - 10) (order_blocks s)
      ++ map fst (map (breaker_step (c last)) (last_n 10 (order_blocks s))))
     s).
Proof.
intros Hlen Hlast. unfold _detect_breaker_blocks.
destruct (Nat.ltb_spec (length recent_candles) 3) as [| _]; [lia |].
rewrite Hlast. reflexivity.
Qed.

(** Any unbroken bearish block among the ten most recent ones that the last
    close exceeds is marked in place and yields a bullish breaker. *)
Lemma breaker_scan_breaks_bearish_block
  (s : State) (recent_candles : list Candle) (last : Candle)
  (i : nat) (b : OrderBlock) :
nth_error (order_blocks s) i = Some b ->
(length (order_blocks s) - 10 <= i)%nat ->
ob_type b = bearish -> broken b = false ->
(3 <= length recent_candles)%nat ->
last_opt recent_candles = Some last ->
ob_high b < c last ->
exists results s',
  _detect_breaker_blocks recent_candles s = (Ok results, s')
  /\ nth_error (order_blocks s') i = Some (mark_broken b)
  /\ In (mkICTSignalResult BULLISH_BREAKER 85 90 (c last)
           (ob_low b, ob_high b)
           (fmul (ob_low b) 0.997) (fmul (ob_high b) 1.03) None) results.
Proof.
intros Hb Hi Hty Hbr Hlen Hlast Hp.
rewrite (detect_breaker_blocks_run _ _ _ Hlen Hlast).
do 2 eexists. split; [reflexivity |].
pose proof (last_n_nth 10 (order_blocks s) i Hi) as Hn. rewrite Hb in Hn.
split.
- cbn [order_blocks set_order_blocks].
  rewrite nth_error_app2 by (rewrite length_firstn; lia).
  rewrite length_firstn, Nat.min_l by lia.
  rewrite !nth_error_map, Hn. cbn [option_map].
  now rewrite breaker_step_bearish_broken.
- apply in_flat_map. exists (breaker_step (c last) b). split.
  + apply in_map. eapply nth_error_In; exact Hn.
  + rewrite breaker_step_bearish_broken by assumption. left; reflexivity.
Qed.

End BreakerFacts.

(** C5. If the detector holds, among its ten most recent order blocks, an
    unbroken block of type bearish with high 110 and low 108, and the
    breaker-block scan runs on at least three candles whose last close is
    111, then the scan returns normally, that block of the detector's list has
    [broken] and [breaker_confirmed] set to [True] (its other fields
    unchanged), and a [BULLISH_BREAKER] signal of strength 85 and confidence
    90 is among the signals returned. *)
Theorem breaker_scan_bearish_110_108_close_111
  (s : ICT.State) (recent_candles : list Candle) (last : Candle)
  (i : nat) (b : ICT.OrderBlock) :
  nth_error (ICT.order_blocks s) i = Some b ->
  (length (ICT.order_blocks s) - 10 <= i)%nat ->
  ICT.ob_type b = ICT.bearish ->
  (ICT.ob_high b == 110)%Q -> (ICT.ob_low b == 108)%Q ->
  ICT.broken b = false ->
  (3 <= length recent_candles)%nat ->
  last_opt recent_candles = Some last ->
  (c last == 111)%Q ->
  exists results s' b' sig,
    ICT._detect_breaker_blocks recent_candles s = (Ok results, s')
    /\ nth_error (ICT.order_blocks s') i = Some b'
    /\ ICT.broken b' = true /\ ICT.breaker_confirmed b' = true
    /\ ICT.ob_high b' = ICT.ob_high b /\ ICT.ob_low b' = ICT.ob_low b
    /\ ICT.ob_type b' = ICT.bearish
    /\ ICT.ob_timestamp b' = ICT.ob_timestamp b
    /\ length (ICT.order_blocks s') = length (ICT.order_blocks s)
    /\ In sig results
    /\ ICT.signal_type sig = ICT.BULLISH_BREAKER
    /\ ICT.strength sig = 85%Q /\ ICT.confidence sig = 90%Q
    /\ ICT.price sig = c last
    /\ ICT.entry_zone sig = (ICT.ob_low b, ICT.ob_high b).
Proof.
  intros Hb Hi Hty Hhi Hlo Hbr Hlen Hlast Hc.
  assert (Hp : (ICT.ob_high b < c last)%Q).
  { rewrite Hhi, Hc. reflexivity. }
  destruct (breaker_scan_breaks_bearish_block s recent_candles last i b
              Hb Hi Hty Hbr Hlen Hlast Hp) as (results & s' & Hrun & Hnth & Hin).
  exists results, s', (ICT.mark_broken b).
  eexists. split; [exact Hrun |]. split; [exact Hnth |].
  repeat (split; [reflexivity |]).
  split; [exact Hty |]. split; [reflexivity |]. split.
  - rewrite (detect_breaker_blocks_run _ _ _ Hlen Hlast) in Hrun.
    inversion Hrun. cbn [ICT.order_blocks ICT.set_order_blocks].
    rewrite length_app, !length_map, length_firstn.
    unfold last_n. rewrite length_skipn. lia.
  - split; [exact Hin |]. repeat split.
Qed.

Lemma breaker_scan_bearish_110_108_close_111_witness :
  exists results s' b',
    ICT._detect_breaker_blocks breaker_fixture_candles breaker_fixture_state
    = (Ok results, s')
    /\ nth_error (ICT.order_blocks s') 0 = Some b'
    /\ ICT.broken b' = true /\ ICT.breaker_confirmed b' = true
    /\ map ICT.signal_type results = [ICT.BULLISH_BREAKER].
Proof.
  destruct (breaker_scan_bearish_110_108_close_111
              breaker_fixture_state breaker_fixture_candles
              (candle_at 111 1737810000) 0
              (ICT.OrderBlock_new 110 108 1737799200 ICT.bearish)
              eq_refl ltac:(cbn; lia) eq_refl ltac:(reflexivity)
              ltac:(reflexivity) eq_refl ltac:(cbn; lia) eq_refl
              ltac:(reflexivity))
    as (results & s' & b' & sig & Hrun & Hnth & Hbr & Hbc & _).
  exists results, s', b'. repeat (split; [assumption |]).
  vm_compute in Hrun. inversion Hrun. reflexivity.
Defined.

(* ===================================================================== *)
(** ** SMC: the inducement scan                                           *)
(* ===================================================================== *)

Section InducementFacts.

Import SMC.
Local Open Scope Q_scope.

Lemma for_each_total {S X} (body : X -> M S unit) :
(forall x s, exists s', body x s = (Ok tt, s')) ->
forall xs s, exists s', for_each xs body s = (Ok tt, s').
Proof.
intros Hb xs. induction xs as [| x xs IH]; intros s; cbn [for_each].
- eexists; reflexivity.
- unfold bind. destruct (Hb x s) as [s1 ->]. apply IH.
Qed.

(** A loop whose turns either hand the list on or raise [e] raises [e] as
    soon as one turn is bound to raise. *)
Lemma for_acc_raises {S X R} (e : exn) (body : R -> X -> M S R) :
(forall a x s, (exists a' s', body a x s = (Ok a', s'))
               \/ (exists s', body a x s = (Raise e, s'))) ->
forall xs acc s,
  (exists x, In x xs /\ forall a s0, exists s', body a x s0 = (Raise e, s')) ->
  exists s', ICT.for_acc xs acc body s = (Raise e, s').
Proof.
intros Hcases xs. induction xs as [| x xs IH]; intros acc s (y & Hin & Hy).
- destruct Hin.
- cbn [ICT.for_acc]. unfold bind.
  destruct (Hcases acc x s) as [(a' & s1 & Hok) | (s1 & Hr)].
  + destruct Hin as [Hxy | Hin].
    * subst y. destruct (Hy acc s) as [s2 H2]. congruence.
    * rewrite Hok. apply IH. eauto.
  + rewrite Hr. eauto.
Qed.

Lemma inducement_turn_cases (results : list SMCSignalResult) (x : Candle)
  (s : State) :
(exists a' s', inducement_turn results x s = (Ok a', s'))
\/ (exists s', inducement_turn results x s = (Raise NameError, s')).
Proof.
unfold inducement_turn, bind, modify, raise, ret.
destruct (fgt _ _ && fgt (c x) (o x)); [right; eauto |].
destruct (fgt _ _ && flt (c x) (o x)); [right; eauto | left; eauto].
Qed.

Lemma fabs_nonneg (x : Q) : 0 <= x -> fabs x == x.
Proof. intros H. unfold fabs. rewrite Qred_correct. now apply Qabs_pos. Qed.

Lemma fabs_nonpos (x : Q) : x <= 0 -> fabs x == - x.
Proof. intros H. unfold fabs. rewrite Qred_correct. now apply Qabs_neg. Qed.

Lemma bullish_turn_raises (results : list SMCSignalResult) (x : Candle)
  (s : State) :
bullish_inducement_candle x ->
exists s', inducement_turn results x s = (Raise NameError, s').
Proof.
intros [Hoc Hw]. unfold inducement_turn, bind, modify, raise, ret.
assert (Hmin : pmin (o x) (c x) = o x).
{ unfold pmin. replace (flt (c x) (o x)) with false; [reflexivity |].
  symmetry. apply flt_false_iff. now apply Qlt_le_weak. }
assert (H1 : fgt (fsub (pmin (o x) (c x)) (l x))
                 (fmul (fabs (fsub (c x) (o x))) 2) = true).
{ assert (Hb : fabs (fsub (c x) (o x)) == c x - o x).
  { rewrite fabs_nonneg; [apply fsub_correct | rewrite fsub_correct; lra]. }
  unfold fgt. apply flt_iff.
  rewrite Hmin, fmul_correct, (fsub_correct (o x) (l x)), Hb. lra. }
assert (H2 : fgt (c x) (o x) = true) by (unfold fgt; now apply flt_iff).
rewrite H1, H2. cbn [andb]. eauto.
Qed.

Lemma bearish_turn_raises (results : list SMCSignalResult) (x : Candle)
  (s : State) :
bearish_inducement_candle x ->
exists s', inducement_turn results x s = (Raise NameError, s').
Proof.
intros [Hco Hw]. unfold inducement_turn, bind, modify, raise, ret.
destruct (fgt _ _ && fgt (c x) (o x)); [eauto |].
assert (Hmax : pmax (o x) (c x) = o x).
{ unfold pmax, fgt. replace (flt (o x) (c x)) with false; [reflexivity |].
  symmetry. apply flt_false_iff. now apply Qlt_le_weak. }
assert (H1 : fgt (fsub (h x) (pmax (o x) (c x)))
                 (fmul (fabs (fsub (c x) (o x))) 2) = true).
{ assert (Hb : fabs (fsub (c x) (o x)) == o x - c x).
  { rewrite fabs_nonpos; rewrite fsub_correct; lra. }
  unfold fgt. apply flt_iff.
  rewrite Hmax, fmul_correct, (fsub_correct (h x) (o x)), Hb. lra. }
assert (H2 : flt (c x) (o x) = true) by now apply flt_iff.
rewrite H1, H2. cbn [andb]. eauto.
Qed.

Lemma last_three_of_last_five {A} (xs : list A) :
(5 <= length xs)%nat -> skipn 2 (last_n 5 xs) = last_n 3 xs.
Proof.
intros H. unfold last_n. rewrite skipn_skipn. f_equal. lia.
Qed.

(** The scan raises as soon as one of the last three candles has the shape
    it looks for. *)
Lemma detect_inducements_raises (df : list Candle) (s : State) :
(5 <= length df)%nat ->
(exists x, In x (last_n 3 df)
           /\ (bullish_inducement_candle x \/ bearish_inducement_candle x)) ->
exists s', _detect_inducements df s = (Raise NameError, s').
Proof.
intros Hlen (x & Hin & Hx). unfold _detect_inducements.
destruct (Nat.ltb_spec (length df) 5) as [| _]; [lia |].
rewrite last_three_of_last_five by exact Hlen.
apply for_acc_raises.
- intros a y s0. apply inducement_turn_cases.
- exists x. split; [exact Hin |]. intros a s0.
  destruct Hx as [Hx | Hx];
    [now apply bullish_turn_raises | now apply bearish_turn_raises].
Qed.

(** The two steps before the inducement scan never raise. *)
Lemma detect_liquidity_pools_total (df : list Candle) (s : State) :
exists s', _detect_liquidity_pools df s = (Ok tt, s').
Proof.
unfold _detect_liquidity_pools.
destruct (length df <? 20)%nat; [eexists; reflexivity |].
assert (Hside : forall side level xs s0,
           exists s', detect_pools_side side level xs s0 = (Ok tt, s')).
{ intros side level xs s0. unfold detect_pools_side.
  apply for_each_total. intros p s1.
  destruct (rel_close _ _); eexists; reflexivity. }
unfold bind.
destruct (Hside pool_buy_side h (last_n 20 df) s) as [s1 ->].
apply Hside.
Qed.

Lemma detect_liquidity_sweeps_total (df : list Candle) (p : float) (s : State) :
exists r s', _detect_liquidity_sweeps df p s = (Ok r, s').
Proof.
unfold _detect_liquidity_sweeps, bind, get, modify, ret.
do 2 eexists. reflexivity.
Qed.

End InducementFacts.

(** C7 (what the code does). On every candle list of length at least 30 in
    which one of the last three candles is an inducement candle (a close
    above the open under a lower wick longer than twice the body, or a close
    below the open under an upper wick longer than twice the body),
    [analyze_candles] of the SMC detector raises [NameError]: it returns no
    signal list at all, and no inducement signal. *)
Theorem smc_inducement_candle_raises_name_error
  (candles : list Candle) (s : SMC.State) :
  (30 <= length candles)%nat ->
  (exists x, In x (last_n 3 candles)
             /\ (bullish_inducement_candle x \/ bearish_inducement_candle x)) ->
  exists s', SMC.analyze_candles candles s = (Raise NameError, s').
Proof.
  intros Hlen Hx. unfold SMC.analyze_candles.
  destruct (Nat.ltb_spec (length candles) 30) as [| _]; [lia |].
  unfold bind at 1.
  destruct (detect_liquidity_pools_total candles s) as [s1 ->].
  unfold bind at 1.
  destruct (detect_liquidity_sweeps_total candles (ICT.last_close candles) s1)
    as (r & s2 & ->).
  unfold bind at 1.
  destruct (detect_inducements_raises candles s2 ltac:(lia) Hx) as [s3 ->].
  eauto.
Qed.

Lemma smc_inducement_candle_raises_name_error_witness :
  (30 <= length hammer_window)%nat
  /\ bullish_inducement_candle
       (mkCandle (1737000000 + 3600 * 29) 100 100.5 97 100.5 1000)
  /\ fst (SMC.analyze_candles hammer_window SMC.init) = Raise NameError.
Proof.
  assert (Hlen : (30 <= length hammer_window)%nat) by (vm_compute; lia).
  assert (Hc : bullish_inducement_candle
                 (mkCandle (1737000000 + 3600 * 29) 100 100.5 97 100.5 1000))
    by (split; reflexivity).
  split; [exact Hlen |]. split; [exact Hc |].
  destruct (smc_inducement_candle_raises_name_error hammer_window SMC.init Hlen)
    as [s' Hs'].
  - eexists. split; [| left; exact Hc].
    vm_compute. right. right. left. reflexivity.
  - rewrite Hs'. reflexivity.
Defined.

(** A candle of that shape at the fifth place from the end is not looked at:
    the call returns, with a liquidity sweep and no inducement signal. *)
Lemma smc_inducement_fifth_from_end_not_scanned :
  bullish_inducement_candle
    (mkCandle (1737000000 + 3600 * 25) 100 100.5 97 100.5 1000)
  /\ nth_error (last_n 5 early_hammer_window) 0
     = Some (mkCandle (1737000000 + 3600 * 25) 100 100.5 97 100.5 1000)
  /\ exists r, fst (SMC.analyze_candles early_hammer_window SMC.init) = Ok r
               /\ map SMC.signal_type r = [SMC.LIQUIDITY_SWEEP_BULLISH].
Proof.
  split; [split; reflexivity |]. split; [reflexivity |].
  vm_compute. eexists. split; reflexivity.
Qed.

(* ===================================================================== *)
(** ** The engine: strength and recommendation of the response            *)
(* ===================================================================== *)

Section EngineFacts.

Import Engine.
Local Open Scope Z_scope.

Lemma bind_ok_inv {S A B} (m : M S A) (k : A -> M S B) (s s' : S) (b : B) :
bind m k s = (Ok b, s') ->
exists a s1, m s = (Ok a, s1) /\ k a s1 = (Ok b, s').
Proof.
unfold bind. destruct (m s) as [[a | e] s1]; [eauto | discriminate].
Qed.

Lemma SignalResponse_new_ok (r : Recommendation) (z : Z) (b : SignalBreakdown)
  (x : SignalResponse) :
SignalResponse_new r z b = Ok x ->
x = mkSignalResponse r z b /\ 0 <= z <= 100.
Proof.
unfold SignalResponse_new.
destruct (Z.leb_spec 0 z) as [H0 | H0], (Z.leb_spec z 100) as [H1 | H1];
  cbn [andb]; intros Hx; inversion Hx; split; [reflexivity | lia].
Qed.

(** The strength that [finalize] returns never exceeds 100; nothing bounds
    it from below outside the off-hours branch. *)
Lemma finalize_at_most_100 ws cb pb ai bc sc now :
snd (finalize ws cb pb ai bc sc now) <= 100.
Proof.
unfold finalize. cbn [snd].
repeat match goal with
       | |- context [if ?b then _ else _] => destruct b
       end; lia.
Qed.

(** The neutrality tests of [finalize] look at the strength before the
    kill-zone adjustment, which takes 15 points at most: a response that is
    not neutral has a strength of at least 25. *)
Lemma finalize_not_neutral_at_least_25 ws cb pb ai bc sc now :
fst (finalize ws cb pb ai bc sc now) <> NEUTRAL ->
25 <= snd (finalize ws cb pb ai bc sc now).
Proof.
unfold finalize. cbn [fst snd].
set (f0 := Z.min 100 (int_of_float _)).
destruct (Z.ltb_spec f0 40) as [Hlt | Hge]; [congruence |].
intros _.
repeat match goal with
       | |- context [if ?b then _ else _] => destruct b
       end; lia.
Qed.

(** The deprecated sibling keeps the invariant: the strength it returns is
    the strength it has tested. *)
Lemma aggregate_signals_neutral_below_40 r15 r1h r1d :
snd (aggregate_signals r15 r1h r1d) < 40 ->
fst (aggregate_signals r15 r1h r1d) = NEUTRAL.
Proof.
unfold aggregate_signals. destruct r15, r1h, r1d. cbn [fst snd].
intros H. apply Z.ltb_lt in H. rewrite H. reflexivity.
Qed.

(** Whatever [generate_signal] returns has passed the validation of the
    response model. *)
Lemma generate_signal_returned_strength_in_range
  np c15 c1h c1d now (s s' : State) (x : SignalResponse) :
generate_signal np c15 c1h c1d now s = (Ok x, s') ->
0 <= strength x <= 100.
Proof.
unfold generate_signal. intros H.
apply bind_ok_inv in H. destruct H as (ict_signals & s1 & _ & H).
apply bind_ok_inv in H. destruct H as (s1a & s1b & _ & H).
apply bind_ok_inv in H. destruct H as (smc_signals & s2 & _ & H).
apply bind_ok_inv in H. destruct H as ([m15s m15x] & s3 & _ & H).
apply bind_ok_inv in H. destruct H as ([h1s h1x] & s4 & _ & H).
apply bind_ok_inv in H. destruct H as ([d1s d1x] & s5 & _ & H).
apply bind_ok_inv in H. destruct H as (s6 & s7 & _ & H).
match type of H with
| context [let '(_, _) := ?p in _] => destruct p as [[pt bs] bc]
end.
apply bind_ok_inv in H. destruct H as (ai & s8 & _ & H).
match type of H with
| context [let '(_, _) := ?p in _] => destruct p as [rec fs]
end.
unfold lift in H. inversion H as [[Hx Hs]].
apply SignalResponse_new_ok in Hx. destruct Hx as [-> Hr]. exact Hr.
Qed.

End EngineFacts.

(** C1 (the code at the failing input). Two 200-candle series that score
    bullish with strength 35 on the 15-minute and the daily timeframe, one
    hourly candle, and an evaluation at 2025-01-26T18:00:00Z, outside every
    kill zone: the strength is 54 when the neutrality tests run, the
    off-hours adjustment then takes 15, and [generate_signal] returns [Buy]
    with strength 39. *)
Theorem generate_signal_buy_with_strength_39 (np : AI.Numpy) :
  Engine.evaluate_timeframe signal_15m = Ok (BULLISH, 35%Q)
  /\ Engine.evaluate_timeframe signal_1d = Ok (BULLISH, 35%Q)
  /\ KillZones.zone_type (KillZones.get_current_kill_zone signal_now)
     = KillZones.OFF_HOURS
  /\ fst (Engine.generate_signal np signal_15m signal_1h signal_1d signal_now
            Engine.init)
     = Ok (mkSignalResponse BUY 39
             (mkBreakdown BULLISH MINI_NEUTRAL BULLISH)).
Proof. vm_compute. repeat split. Qed.

(** C2 (the code at the failing input). Twelve choppy hourly candles on
    falling volume, nothing on the other timeframes, and an evaluation at
    2025-01-26T02:00:00Z, in the detector's Asian session: the success
    probability is 44.75, the combined value is -1.575, [int] makes it -1,
    [min(100, .)] leaves it, no kill-zone branch applies, and the response
    model rejects the strength -1 with [ValidationError]. *)
Theorem generate_signal_negative_strength_rejected (np : AI.Numpy) :
  exists ai,
    AI.enhance_signal np choppy_1h AI.PatNeutral 0 50 [] [] = Ok ai
    /\ AI.success_probability ai = (179 # 4)%Q
    /\ Engine.finalize 0 0 0 ai 0 0 asian_now = (NEUTRAL, (-1)%Z)
    /\ fst (Engine.generate_signal np [] choppy_1h [] asian_now Engine.init)
       = Raise ValidationError.
Proof.
  exists (AI.mkAIConfidenceScore (179 # 4) AI.POOR AI.UNKNOWN 25 45 0 0).
  vm_compute. repeat split.
Qed.

(** C3 (the code at the failing inputs). [generate_signal] raises, whatever
    the evaluation time: [KeyError] on three empty series, [NameError] when
    the hourly series ends in a hammer candle, [ValueError] when the hourly
    series has left a bullish order block and no bearish one and shows a
    swing high. *)
Theorem generate_signal_raises (np : AI.Numpy) (now : Z) :
  fst (Engine.generate_signal np [] [] [] now Engine.init) = Raise KeyError
  /\ fst (Engine.generate_signal np [] hammer_window [] now Engine.init)
     = Raise NameError
  /\ fst (Engine.generate_signal np [] rally_window [] now Engine.init)
     = Raise ValueError
  /\ fst (SMC._detect_inducements hammer_window SMC.init) = Raise NameError
  /\ fst (ICT._check_bullish_bos
            (snd (ICT._detect_order_blocks rally_window ICT.init)))
     = Raise ValueError.
Proof. vm_compute. repeat split. Qed.

(* ===================================================================== *)
(** ** Indicators: shapes and ranges                                      *)
(* ===================================================================== *)

Section IndicatorShapes.

Import Indicators.
Local Open Scope Q_scope.

Lemma Forall_firstn_skipn {A} (P : A -> Prop) (n : nat) (xs : list A) :
Forall P xs -> Forall P (firstn n xs) /\ Forall P (skipn n xs).
Proof.
intros H. rewrite <- (firstn_skipn n xs) in H. now apply Forall_app in H.
Qed.

Lemma fsum_acc (xs : list Q) (a : Q) : fold_left fadd xs a == a + Qsum xs.
Proof.
revert a; induction xs as [| x xs IH]; intros a.
- cbn [fold_left Qsum fold_right]. ring.
- cbn [fold_left Qsum fold_right]. rewrite IH, fadd_correct.
  unfold Qsum. ring.
Qed.

Lemma fsum_correct (xs : list Q) : fsum xs == Qsum xs.
Proof. unfold fsum. rewrite fsum_acc. ring. Qed.

Lemma of_nat_pos (n : nat) : (1 <= n)%nat -> 0 < of_nat n.
Proof.
intros H. unfold of_nat. change 0 with (inject_Z 0).
rewrite <- Zlt_Qlt. lia.
Qed.

Lemma np_diff_length (xs : list Q) : length (np_diff xs) = (length xs - 1)%nat.
Proof.
induction xs as [| x [| y xs] IH]; [reflexivity | reflexivity |].
change (np_diff (x :: y :: xs)) with (fsub y x :: np_diff (y :: xs)).
cbn [length] in *. rewrite IH. lia.
Qed.

Lemma wilder_length (period : nat) (prev : Q) (xs : list Q) :
length (wilder period prev xs) = length xs.
Proof.
revert prev; induction xs as [| x xs IH]; intros prev; cbn;
  [reflexivity | now rewrite IH].
Qed.

Lemma wilder_avg_length (period : nat) (xs : list Q) :
(period <= length xs)%nat ->
length (wilder_avg period xs) = S (length xs).
Proof.
intros H. unfold wilder_avg.
rewrite length_app, repeat_length. cbn [length].
rewrite wilder_length, length_skipn. lia.
Qed.

Lemma gains_length (ds : list Q) : length (gains_of ds) = length ds.
Proof. apply length_map. Qed.

Lemma losses_length (ds : list Q) : length (losses_of ds) = length ds.
Proof. apply length_map. Qed.

Lemma rsi_values_length (prices : list Q) (period : nat) :
(period + 1 <= length prices)%nat ->
length (rsi_values prices period) = length prices.
Proof.
intros H. unfold rsi_values, avg_gain, avg_loss.
rewrite length_map, length_combine.
rewrite !wilder_avg_length
  by (rewrite ?gains_length, ?losses_length, np_diff_length; lia).
rewrite gains_length, losses_length, np_diff_length. lia.
Qed.

Lemma gains_nonneg (ds : list Q) : Forall (fun x => 0 <= x) (gains_of ds).
Proof.
unfold gains_of. apply Forall_map, Forall_forall. intros d _.
unfold fgt. destruct (flt 0 d) eqn:E.
- apply flt_iff in E. now apply Qlt_le_weak.
- apply Qle_refl.
Qed.

Lemma losses_nonneg (ds : list Q) : Forall (fun x => 0 <= x) (losses_of ds).
Proof.
unfold losses_of. apply Forall_map, Forall_forall. intros d _.
destruct (flt d 0) eqn:E.
- apply flt_iff in E. rewrite fneg_correct. lra.
- apply Qle_refl.
Qed.

Lemma Qsum_nonneg (xs : list Q) : Forall (fun x => 0 <= x) xs -> 0 <= Qsum xs.
Proof.
induction 1 as [| x xs Hx _ IH]; cbn; [apply Qle_refl |].
unfold Qsum in IH. lra.
Qed.

Lemma np_mean_nonneg (xs : list Q) :
Forall (fun x => 0 <= x) xs -> 0 <= np_mean xs.
Proof.
intros H. unfold np_mean. rewrite fdiv_correct, fsum_correct.
destruct xs as [| x xs].
- cbn. discriminate.
- apply Qle_shift_div_l; [apply of_nat_pos; cbn; lia |].
  pose proof (Qsum_nonneg _ H). lra.
Qed.

Lemma wilder_nonneg (period : nat) (prev : Q) (xs : list Q) :
(1 <= period)%nat -> 0 <= prev -> Forall (fun x => 0 <= x) xs ->
Forall (fun x => 0 <= x) (wilder period prev xs).
Proof.
intros Hp Hprev Hxs. revert prev Hprev.
induction Hxs as [| x xs Hx _ IH]; intros prev Hprev; cbn [wilder];
  [constructor |].
assert (Ha : 0 <= fdiv (fadd (fmul prev (of_int (Z.of_nat period - 1))) x)
                       (of_nat period)).
{ rewrite fdiv_correct, fadd_correct, fmul_correct.
  apply Qle_shift_div_l; [now apply of_nat_pos |].
  assert (Hk : 0 <= of_int (Z.of_nat period - 1)).
  { unfold of_int. change 0 with (inject_Z 0). rewrite <- Zle_Qle. lia. }
  pose proof (Qmult_le_0_compat _ _ Hprev Hk). lra. }
constructor; [exact Ha | now apply IH].
Qed.

Lemma wilder_avg_nonneg (period : nat) (xs : list Q) :
(1 <= period)%nat -> Forall (fun x => 0 <= x) xs ->
Forall (fun x => 0 <= x) (wilder_avg period xs).
Proof.
intros Hp Hxs. unfold wilder_avg. apply Forall_app. split.
- apply Forall_forall. intros x Hx. apply repeat_spec in Hx. subst x.
  apply Qle_refl.
- assert (Hseed : 0 <= np_mean (firstn period xs)).
  { apply np_mean_nonneg. now apply Forall_firstn_skipn. }
  constructor; [exact Hseed |].
  apply wilder_nonneg; [exact Hp | exact Hseed |].
  now apply Forall_firstn_skipn.
Qed.

Lemma rs_of_nonneg (ag al : Q) : 0 <= ag -> 0 <= al -> 0 <= rs_of ag al.
Proof.
intros Hg Hl. unfold rs_of. destruct (feq al 0) eqn:E; [apply Qle_refl |].
rewrite fdiv_correct. apply Qle_shift_div_l; [| lra].
destruct (Qlt_le_dec 0 al) as [Hlt | Hle]; [exact Hlt |].
assert (Hz : al == 0) by lra. apply feq_iff in Hz. congruence.
Qed.

Lemma rsi_of_rs_range (rs : Q) : 0 <= rs -> 0 <= rsi_of_rs rs <= 100.
Proof.
intros H. unfold rsi_of_rs. rewrite fsub_correct, fdiv_correct, fadd_correct.
assert (Hp : 0 < 1 + rs) by lra.
assert (H1 : 0 <= 100 / (1 + rs)) by (apply Qle_shift_div_l; lra).
assert (H2 : 100 / (1 + rs) <= 100) by (apply Qle_shift_div_r; lra).
lra.
Qed.

End IndicatorShapes.

(** X1. For a period of at least 1, every value that [rsi] defines lies
    between 0 and 100. *)
Theorem rsi_defined_values_in_0_100
  (prices : list float) (period i : nat) (r : float) :
  (1 <= period)%nat ->
  nth_error (Indicators.rsi prices period) i = Some (Some r) ->
  (0 <= r <= 100)%Q.
Proof.
  intros Hp Hr.
  apply rsi_defined_nth in Hr as [_ Hr].
  apply rsi_values_nth in Hr as (ag & al & Hag & Hal & ->).
  apply rsi_of_rs_range, rs_of_nonneg.
  - pose proof (wilder_avg_nonneg period _ Hp
                  (gains_nonneg (Indicators.np_diff prices))) as H.
    apply (proj1 (Forall_forall _ _) H). eapply nth_error_In; exact Hag.
  - pose proof (wilder_avg_nonneg period _ Hp
                  (losses_nonneg (Indicators.np_diff prices))) as H.
    apply (proj1 (Forall_forall _ _) H). eapply nth_error_In; exact Hal.
Qed.

Lemma rsi_defined_values_in_0_100_witness :
  exists r, nth_error (Indicators.rsi [1; 2; 3; 2]%Q 2) 3 = Some (Some r)
            /\ (0 <= r <= 100)%Q.
Proof.
  exists 50%Q. split; [reflexivity |].
  apply (rsi_defined_values_in_0_100 [1; 2; 3; 2]%Q 2 3 50%Q);
    [lia | reflexivity].
Defined.

(** X2. [rsi] returns a list as long as [prices]: all sentinels when
    [len(prices) <= period], and otherwise exactly [period] leading
    sentinels followed by a value at every later index. *)
Theorem rsi_shape (prices : list float) (period : nat) :
  length (Indicators.rsi prices period) = length prices
  /\ ((length prices <= period)%nat ->
      Indicators.rsi prices period = repeat None (length prices))
  /\ ((period < length prices)%nat ->
      forall i, (i < length prices)%nat ->
        if (i <? period)%nat
        then nth_error (Indicators.rsi prices period) i = Some None
        else exists r, nth_error (Indicators.rsi prices period) i
                       = Some (Some r)).
Proof.
  unfold Indicators.rsi.
  destruct (Nat.ltb_spec (length prices) (period + 1)) as [Hlt | Hge].
  - split; [apply repeat_length |]. split; [reflexivity | lia].
  - pose proof (rsi_values_length prices period Hge) as Hl.
    split; [| split; [lia |]].
    + rewrite length_pad by lia. exact Hl.
    + intros _ i Hi. destruct (Nat.ltb_spec i period) as [Hip | Hip].
      * now apply nth_error_pad_none.
      * destruct (nth_error (Indicators.rsi_values prices period) i)
          as [r |] eqn:E.
        -- exists r. apply nth_error_pad_some. auto.
        -- apply nth_error_None in E. lia.
Qed.

Section EmaFacts.

Import Indicators.
Local Open Scope Q_scope.

Lemma ema_loop_length (alpha prev : Q) (xs : list Q) :
length (ema_loop alpha prev xs) = length xs.
Proof.
revert prev; induction xs as [| x xs IH]; intros prev; cbn;
  [reflexivity | now rewrite IH].
Qed.

Lemma pad_length {A} (k : nat) (xs : list A) :
length (repeat (@None A) k ++ map Some (skipn k xs))
= Nat.max k (length xs).
Proof. rewrite length_app, repeat_length, length_map, length_skipn. lia. Qed.

Lemma pad_defined_iff {A} (k : nat) (xs : list A) (i : nat) :
(exists x, nth_error (repeat None k ++ map Some (skipn k xs)) i
           = Some (Some x))
<-> (k <= i < length xs)%nat.
Proof.
split.
- intros [x Hx]. apply nth_error_pad_some in Hx as [Hk Hx].
  split; [exact Hk |]. apply nth_error_Some. congruence.
- intros [Hk Hi]. destruct (nth_error xs i) as [x |] eqn:E.
  + exists x. apply nth_error_pad_some. auto.
  + apply nth_error_None in E. lia.
Qed.

End EmaFacts.

Lemma ema_loop_firstn (alpha prev : Q) (xs : list Q) (k : nat) :
firstn k (Indicators.ema_loop alpha prev xs)
= Indicators.ema_loop alpha prev (firstn k xs).
Proof.
revert prev k. induction xs as [| x xs IH]; intros prev k.
- now rewrite !firstn_nil.
- destruct k as [| k]; [reflexivity |].
  cbn [Indicators.ema_loop firstn]. now rewrite IH.
Qed.

(** X3. For a period of at least 1, [_ema] raises [IndexError] when the
    array is shorter than the period; otherwise it returns an array of the
    same length whose entries before index [period - 1] are 0, and whose
    first [n] entries, for any [n] from the period on, are what [_ema]
    returns for the first [n] values alone. *)
Theorem ema_shape_and_prefixes (data : list float) (period : nat) :
  (1 <= period)%nat ->
  ((length data < period)%nat ->
   Indicators._ema data period = Raise IndexError)
  /\ ((period <= length data)%nat ->
      exists e,
        Indicators._ema data period = Ok e
        /\ length e = length data
        /\ (forall i, (i < period - 1)%nat -> nth_error e i = Some 0%Q)
        /\ (forall n, (period <= n)%nat -> (n <= length data)%nat ->
              Indicators._ema (firstn n data) period = Ok (firstn n e))).
Proof.
  intros Hp. unfold Indicators._ema. split.
  - intros Hlt.
    destruct (Nat.ltb_spec (length data) period); [reflexivity | lia].
  - intros Hge.
    destruct (Nat.ltb_spec (length data) period) as [| _]; [lia |].
    eexists. split; [reflexivity |]. split; [| split].
    + rewrite length_app, repeat_length. cbn [length].
      rewrite ema_loop_length, length_skipn. lia.
    + intros i Hi. rewrite nth_error_app1 by (rewrite repeat_length; lia).
      now apply nth_error_repeat.
    + intros n Hn1 Hn2.
      destruct (Nat.ltb_spec (length (firstn n data)) period) as [Hlt | _];
        [rewrite length_firstn in Hlt; lia |].
      f_equal. rewrite firstn_app.
      rewrite (firstn_all2 (repeat 0%Q (period - 1)))
        by (rewrite repeat_length; lia).
      rewrite repeat_length. f_equal.
      replace (n - (period - 1))%nat with (S (n - period)) by lia.
      cbn [firstn]. rewrite ema_loop_firstn, firstn_firstn.
      replace (Nat.min period n) with period by lia.
      f_equal. f_equal.
      rewrite firstn_skipn_comm. f_equal. f_equal. lia.
Qed.

Lemma ema_shape_and_prefixes_witness :
  Indicators._ema [10; 11; 12]%Q 5 = Raise IndexError
  /\ exists e, Indicators._ema [10; 12; 11; 13]%Q 2 = Ok e
               /\ nth_error e 0 = Some 0%Q
               /\ Indicators._ema [10; 12; 11]%Q 2 = Ok (firstn 3 e).
Proof.
  destruct (ema_shape_and_prefixes [10; 11; 12]%Q 5 ltac:(lia)) as [H1 _].
  split; [apply H1; cbn; lia |].
  destruct (ema_shape_and_prefixes [10; 12; 11; 13]%Q 2 ltac:(lia))
    as [_ H2].
  destruct H2 as (e & He & _ & Hz & Hpre); [cbn; lia |].
  exists e. split; [exact He |]. split; [apply Hz; lia |].
  apply (Hpre 3%nat); cbn; lia.
Defined.

(** On [slow] prices or more, [macd] returns the three arrays of its body,
    each as long as [prices], behind their leading sentinels. *)
Lemma macd_lists (prices : list float) (fast slow signal : nat) :
(1 <= fast)%nat -> (fast <= slow)%nat ->
(1 <= signal)%nat -> (signal <= slow)%nat ->
(slow <= length prices)%nat ->
exists m g d,
  length m = length prices /\ length g = length prices
  /\ length d = length prices
  /\ Indicators.macd prices fast slow signal
     = Ok (repeat None (slow - 1) ++ map Some (skipn (slow - 1) m),
           repeat None (slow + signal - 1)
           ++ map Some (skipn (slow + signal - 1) g),
           repeat None (slow + signal - 1)
           ++ map Some (skipn (slow + signal - 1) d)).
Proof.
intros Hf Hfs Hs Hss Hge. unfold Indicators.macd.
destruct (Nat.ltb_spec (length prices) slow) as [Hlt | _]; [lia |].
destruct (ema_returns prices fast ltac:(lia)) as [ef Hef].
destruct (ema_returns prices slow ltac:(lia)) as [es Hes].
rewrite Hef, Hes. cbn [rbind].
assert (Hsl : (1 <= slow)%nat) by lia.
pose proof (ema_length _ _ _ Hf Hef) as Lf.
pose proof (ema_length _ _ _ Hsl Hes) as Ls.
assert (Lm : length (Indicators.arr_sub ef es) = length prices)
  by (rewrite arr_sub_length; congruence).
destruct (ema_returns (Indicators.arr_sub ef es) signal) as [sg Hsg];
  [lia |].
rewrite Hsg. cbn [rbind].
pose proof (ema_length _ _ _ Hs Hsg) as Lg.
assert (Lh : length (Indicators.arr_sub (Indicators.arr_sub ef es) sg)
             = length prices)
  by (rewrite arr_sub_length; congruence).
exists (Indicators.arr_sub ef es), sg,
  (Indicators.arr_sub (Indicators.arr_sub ef es) sg).
split; [exact Lm |]. split; [congruence |].
split; [exact Lh | reflexivity].
Qed.

(** X4. With [1 <= fast <= slow] and [1 <= signal <= slow], [macd] always
    returns.  On fewer than [slow] prices the three lists are all sentinels,
    as long as [prices].  Otherwise the MACD line is as long as [prices] and
    defined exactly from index [slow - 1] on; the signal line and the
    histogram are defined exactly from index [slow + signal - 1] on, and have
    the length of [prices] or [slow + signal - 1], whichever is larger: on
    fewer than [slow + signal - 1] prices they are longer than [prices]. *)
Theorem macd_shape (prices : list float) (fast slow signal : nat) :
  (1 <= fast)%nat -> (fast <= slow)%nat ->
  (1 <= signal)%nat -> (signal <= slow)%nat ->
  exists ml sl hl,
    Indicators.macd prices fast slow signal = Ok (ml, sl, hl)
    /\ length ml = length prices
    /\ length sl = length hl
    /\ ((length prices < slow)%nat ->
        ml = repeat None (length prices) /\ sl = ml /\ hl = ml)
    /\ ((slow <= length prices)%nat ->
        length sl = Nat.max (slow + signal - 1) (length prices)
        /\ (forall i, (exists x, nth_error ml i = Some (Some x))
                      <-> (slow - 1 <= i < length prices)%nat)
        /\ (forall i, (exists x, nth_error sl i = Some (Some x))
                      <-> (slow + signal - 1 <= i < length prices)%nat)
        /\ (forall i, (exists x, nth_error hl i = Some (Some x))
                      <-> (slow + signal - 1 <= i < length prices)%nat)).
Proof.
  intros Hf Hfs Hs Hss.
  destruct (Nat.ltb_spec (length prices) slow) as [Hlt | Hge].
  - unfold Indicators.macd.
    destruct (Nat.ltb_spec (length prices) slow) as [_ | Hge]; [| lia].
    do 3 eexists. split; [reflexivity |].
    split; [apply repeat_length |]. split; [reflexivity |].
    split; [auto | lia].
  - destruct (macd_lists prices fast slow signal Hf Hfs Hs Hss Hge)
      as (m & g & d & Lm & Lg & Ld & ->).
    do 3 eexists. split; [reflexivity |].
    split; [rewrite pad_length; lia |].
    split; [rewrite !pad_length; lia |].
    split; [lia |]. intros _.
    split; [rewrite pad_length; lia |].
    split; [| split]; intros i; rewrite pad_defined_iff; lia.
Qed.

Lemma macd_shape_witness :
  exists ml sl hl,
    Indicators.macd (map inject_Z [1; 2; 4; 8]%Z) 1 3 3 = Ok (ml, sl, hl)
    /\ length ml = 4%nat /\ length sl = 5%nat /\ length hl = 5%nat.
Proof.
  destruct (macd_shape (map inject_Z [1; 2; 4; 8]%Z) 1 3 3
              ltac:(lia) ltac:(lia) ltac:(lia) ltac:(lia))
    as (ml & sl & hl & Hm & Hl & Hsh & _ & Hge).
  destruct Hge as (Hsl & _); [cbn; lia |].
  exists ml, sl, hl. cbn in Hl, Hsl. repeat split; try assumption; congruence.
Defined.

(* ===================================================================== *)
(** ** Kill zones: the classification and the decision table              *)
(* ===================================================================== *)

Section KillZoneTable.

Import KillZones.
Local Open Scope Z_scope.

Lemma est_time_of_day_range (ts : Z) : 0 <= est_time_of_day ts < 86400.
Proof. unfold est_time_of_day. apply Z.mod_pos_bound. lia. Qed.

Lemma first_zone_table (tod : Z) :
0 <= tod < 86400 ->
first_zone tod KILL_ZONES
= if (10800 <=? tod) && (tod <=? 18000) then Some LONDON_KILL_ZONE
  else if (34200 <=? tod) && (tod <=? 41400) then Some NY_KILL_ZONE
  else if (41400 <? tod) && (tod <=? 43200) then Some LONDON_CLOSE
  else if (72000 <=? tod) || (tod =? 0) then Some ASIAN_SESSION
  else None.
Proof.
intros Hr.
change KILL_ZONES with [ (LONDON_KILL_ZONE, (10800, 18000));
                         (NY_KILL_ZONE, (34200, 41400));
                         (LONDON_CLOSE, (39600, 43200));
                         (ASIAN_SESSION, (72000, 0)) ].
cbn [first_zone]. unfold _is_time_in_window.
change (10800 <? 18000) with true. change (34200 <? 41400) with true.
change (39600 <? 43200) with true. change (72000 <? 0) with false.
cbv iota.
repeat match goal with
       | |- context [?a <=? ?b] => destruct (Z.leb_spec a b)
       | |- context [?a <? ?b] => destruct (Z.ltb_spec a b)
       | |- context [?a =? ?b] => destruct (Z.eqb_spec a b)
       end; cbn [andb orb]; try reflexivity; lia.
Qed.

(** The fields of the info record, zone by zone. *)
Lemma kill_zone_info_flags (ts : Z) :
match zone_type (get_current_kill_zone ts) with
| LONDON_KILL_ZONE | NY_KILL_ZONE | LONDON_CLOSE =>
    is_active (get_current_kill_zone ts) = true
    /\ optimal_for_entries (get_current_kill_zone ts) = true
| ASIAN_SESSION =>
    is_active (get_current_kill_zone ts) = true
    /\ optimal_for_entries (get_current_kill_zone ts) = false
| OFF_HOURS =>
    is_active (get_current_kill_zone ts) = false
    /\ optimal_for_entries (get_current_kill_zone ts) = false
end.
Proof.
unfold get_current_kill_zone.
rewrite (first_zone_table _ (est_time_of_day_range ts)).
repeat match goal with
       | |- context [if ?b then _ else _] => destruct b
       end; split; reflexivity.
Qed.

End KillZoneTable.

(** X5. The zone of a timestamp depends on its time of day in the fixed
    UTC-5 clock alone, in seconds since midnight: London 03:00:00-05:00:00
    and New York 09:30:00-11:30:00, both ends included; London close only
    after 11:30:00 and up to 12:00:00, because New York is tested first on
    the half hour the two windows share; the Asian session from 20:00:00 to
    the end of the day and on the one second 00:00:00; off-hours otherwise. *)
Theorem kill_zone_classification (ts : Z) :
  let tod := KillZones.est_time_of_day ts in
  let zone := KillZones.zone_type (KillZones.get_current_kill_zone ts) in
  (zone = KillZones.LONDON_KILL_ZONE <-> 10800 <= tod <= 18000)%Z
  /\ (zone = KillZones.NY_KILL_ZONE <-> 34200 <= tod <= 41400)%Z
  /\ (zone = KillZones.LONDON_CLOSE <-> 41400 < tod <= 43200)%Z
  /\ (zone = KillZones.ASIAN_SESSION <-> 72000 <= tod \/ tod = 0)%Z
  /\ (zone = KillZones.OFF_HOURS
      <-> 0 < tod < 10800 \/ 18000 < tod < 34200 \/ 43200 < tod < 72000)%Z.
Proof.
  cbv zeta. pose proof (est_time_of_day_range ts) as Hr.
  pose proof (zone_of_first_zone ts) as H.
  rewrite (first_zone_table _ Hr) in H. revert H.
  repeat match goal with
         | |- context [(?a <=? ?b)%Z] => destruct (Z.leb_spec a b)
         | |- context [(?a <? ?b)%Z] => destruct (Z.ltb_spec a b)
         | |- context [(?a =? ?b)%Z] => destruct (Z.eqb_spec a b)
         end; cbn [andb orb]; intros [Hz _]; rewrite Hz;
    repeat split; intros; try discriminate; try reflexivity; try lia.
Qed.

(** X6. The decision of [should_trade_signal], zone by zone: in London, New
    York and London close a signal is traded exactly from strength 50 on, in
    the Asian session exactly from strength 70 on, off-hours exactly from
    strength 80 on.  The last line of the function, the default "Signal meets
    criteria", is never reached. *)
Theorem should_trade_signal_decision_table (ts : Z) (strength : float) :
  let zone := KillZones.zone_type (KillZones.get_current_kill_zone ts) in
  (fst (KillZones.should_trade_signal ts strength) = true
   <-> match zone with
       | KillZones.LONDON_KILL_ZONE | KillZones.NY_KILL_ZONE
       | KillZones.LONDON_CLOSE => (50 <= strength)%Q
       | KillZones.ASIAN_SESSION => (70 <= strength)%Q
       | KillZones.OFF_HOURS => (80 <= strength)%Q
       end)
  /\ snd (KillZones.should_trade_signal ts strength)
     <> KillZones.meets_criteria.
Proof.
  cbv zeta. pose proof (kill_zone_info_flags ts) as H.
  unfold KillZones.should_trade_signal.
  destruct (KillZones.zone_type (KillZones.get_current_kill_zone ts));
    destruct H as [-> ->]; cbn [andb KillZones.KillZoneType_eqb];
    unfold fge;
    destruct (fle 70 strength) eqn:E70;
    destruct (fle 50 strength) eqn:E50;
    destruct (fle 80 strength) eqn:E80;
    destruct (flt strength 50) eqn:L50;
    cbn [fst snd andb];
    rewrite ?fle_iff, ?fle_false_iff, ?flt_iff, ?flt_false_iff in *;
    try (exfalso; lra);
    (split; [split; intros; try discriminate; try reflexivity; try lra
            | discriminate]).
Qed.

Section KillZoneTimes.

Import KillZones.
Local Open Scope Z_scope.

Lemma next_kill_zone_minutes (tod : Z) :
0 <= tod < 86400 ->
snd (_get_next_kill_zone tod)
= if tod <? 10800 then (10800 - tod) / 60
  else if tod <? 34200 then (34200 - tod) / 60
  else if tod <? 39600 then (39600 - tod) / 60
  else if tod <? 72000 then (72000 - tod) / 60
  else (10800 + 86400 - tod) / 60.
Proof.
intros Hr. unfold _get_next_kill_zone.
change KILL_ZONES with [ (LONDON_KILL_ZONE, (10800, 18000));
                         (NY_KILL_ZONE, (34200, 41400));
                         (LONDON_CLOSE, (39600, 43200));
                         (ASIAN_SESSION, (72000, 0)) ].
cbn [map fst snd min_by_minutes].
repeat match goal with
       | |- context [?a <=? ?b] =>
           destruct (Z.leb_spec a b); try (exfalso; lia)
       end;
  repeat match goal with
         | |- context [?a <? tod] => destruct (Z.ltb_spec a tod)
         | |- context [tod <? ?a] => destruct (Z.ltb_spec tod a)
         end; try (exfalso; lia);
  rewrite ?Z.quot_div_nonneg by lia;
  repeat match goal with
         | |- context [if ?b then _ else _] => destruct b eqn:?
         | H : context [if ?b then _ else _] |- _ => destruct b eqn:?
         end; cbn [fst snd] in *;
  repeat match goal with
         | H : (_ <? _) = true |- _ => apply Z.ltb_lt in H
         | H : (_ <? _) = false |- _ => apply Z.ltb_ge in H
         end;
  try reflexivity;
  exfalso; Z.to_euclidean_division_equations; lia.
Qed.

Lemma create_info_active (zt : KillZoneType) (tod : Z) :
is_active (_create_kill_zone_info zt true tod) = true
/\ time_until_next (_create_kill_zone_info zt true tod) = None
/\ time_remaining (_create_kill_zone_info zt true tod)
   = Some (Z.quot (match zt with
                   | LONDON_KILL_ZONE => 18000
                   | NY_KILL_ZONE => 41400
                   | LONDON_CLOSE => 43200
                   | _ => 86400
                   end - tod) 60).
Proof. destruct zt; repeat split. Qed.

Lemma create_info_inactive (zt : KillZoneType) (tod : Z) :
is_active (_create_kill_zone_info zt false tod) = false
/\ time_remaining (_create_kill_zone_info zt false tod) = None
/\ time_until_next (_create_kill_zone_info zt false tod)
   = Some (snd (_get_next_kill_zone tod)).
Proof. repeat split. Qed.

End KillZoneTimes.

(** X7. Off-hours the info record carries no remaining time and a wait for
    the next kill zone of less than eight hours.  In an active zone it
    carries no wait and a remaining time of at most four hours, except on
    the second 00:00:00, where the Asian session is reported with 1440
    minutes remaining. *)
Theorem kill_zone_info_times (ts : Z) :
  let info := KillZones.get_current_kill_zone ts in
  if KillZones.is_active info then
    KillZones.time_until_next info = None
    /\ exists r, KillZones.time_remaining info = Some r
                 /\ (0 <= r <= 1440)%Z
                 /\ (KillZones.est_time_of_day ts <> 0 -> r <= 240)%Z
                 /\ (KillZones.est_time_of_day ts = 0 -> r = 1440)%Z
  else
    KillZones.time_remaining info = None
    /\ exists m, KillZones.time_until_next info = Some m
                 /\ (0 <= m < 480)%Z.
Proof.
  cbv zeta. pose proof (est_time_of_day_range ts) as Hr.
  unfold KillZones.get_current_kill_zone.
  rewrite (first_zone_table _ Hr).
  repeat match goal with
         | |- context [(?a <=? ?b)%Z] => destruct (Z.leb_spec a b)
         | |- context [(?a <? ?b)%Z] => destruct (Z.ltb_spec a b)
         | |- context [(?a =? ?b)%Z] => destruct (Z.eqb_spec a b)
         end; cbn [andb orb]; try lia;
    match goal with
    | |- context [KillZones._create_kill_zone_info ?z true ?x] =>
        destruct (create_info_active z x) as (-> & -> & ->)
    | |- context [KillZones._create_kill_zone_info ?z false ?x] =>
        destruct (create_info_inactive z x) as (-> & -> & ->)
    end;
    (split; [reflexivity |]); eexists; (split; [reflexivity |]);
    rewrite ?next_kill_zone_minutes by lia;
    repeat match goal with
           | |- context [(?a <? ?b)%Z] => destruct (Z.ltb_spec a b)
           end; try lia;
    rewrite ?Z.quot_div_nonneg by lia;
    Z.to_euclidean_division_equations; lia.
Qed.

Section KillZoneGroupFacts.

Import KillZones KillZoneGroups.

Lemma KillZoneType_eqb_eq (a b : KillZoneType) :
KillZoneType_eqb a b = true <-> a = b.
Proof. destruct a, b; cbn; split; congruence. Qed.

Lemma analyze_fold_filter (candles : list Candle) (d : ZoneDict)
  (z : KillZoneType) :
fold_left (fun zone_candles candle =>
             dict_append zone_candles
               (zone_type (get_current_kill_zone (t candle))) candle)
          candles d z
= d z ++ filter (fun x => KillZoneType_eqb z
                            (zone_type (get_current_kill_zone (t x))))
                candles.
Proof.
revert d; induction candles as [| x xs IH]; intros d; cbn [fold_left filter].
- now rewrite app_nil_r.
- rewrite IH. unfold dict_append at 1.
  destruct (KillZoneType_eqb z _); [now rewrite <- app_assoc | reflexivity].
Qed.

End KillZoneGroupFacts.

(** X8. [analyze_candles_in_kill_zones] sorts the candles without losing or
    repeating one: the list under a zone holds exactly the candles whose
    timestamp falls in that zone, in their order, and the five lists
    together have as many candles as the input. *)
Theorem analyze_candles_in_kill_zones_partition (candles : list Candle) :
  let groups := KillZoneGroups.analyze_candles_in_kill_zones candles in
  (forall z,
     groups z
     = filter (fun x => KillZones.KillZoneType_eqb z
                          (KillZones.zone_type
                             (KillZones.get_current_kill_zone (t x))))
              candles)
  /\ (length (groups KillZones.LONDON_KILL_ZONE)
      + length (groups KillZones.NY_KILL_ZONE)
      + length (groups KillZones.LONDON_CLOSE)
      + length (groups KillZones.ASIAN_SESSION)
      + length (groups KillZones.OFF_HOURS)
      = length candles)%nat.
Proof.
  cbv zeta.
  assert (H : forall z,
             KillZoneGroups.analyze_candles_in_kill_zones candles z
             = filter (fun x => KillZones.KillZoneType_eqb z
                          (KillZones.zone_type
                             (KillZones.get_current_kill_zone (t x))))
                      candles).
  { intros z. unfold KillZoneGroups.analyze_candles_in_kill_zones.
    now rewrite analyze_fold_filter. }
  split; [exact H |]. rewrite !H. clear H.
  induction candles as [| x xs IH]; [reflexivity |].
  cbn [filter length].
  destruct (KillZones.zone_type (KillZones.get_current_kill_zone (t x)));
    cbn [KillZones.KillZoneType_eqb length] in *; lia.
Qed.

(* ===================================================================== *)
(** ** ICT and SMC: ranking and filtering                                 *)
(* ===================================================================== *)

Section RankFacts.

Import ICT.
Local Open Scope Q_scope.

Context {A T : Type} (eqb : T -> T -> bool) (ty : A -> T) (key : A -> Q).
Hypothesis eqb_eq : forall a b, eqb a b = true <-> a = b.

Lemma insert_desc_in (x y : A) (sorted : list A) :
In y (insert_desc key x sorted) <-> y = x \/ In y sorted.
Proof.
induction sorted as [| z zs IH]; cbn [insert_desc].
- cbn. intuition.
- destruct (fle (key z) (key x)); cbn [In]; [intuition |].
  rewrite IH. intuition.
Qed.

Lemma sorted_desc_in (y : A) (xs : list A) :
In y (sorted_desc key xs) <-> In y xs.
Proof.
induction xs as [| x xs IH]; cbn [sorted_desc fold_right]; [reflexivity |].
fold (sorted_desc key xs). rewrite insert_desc_in, IH. cbn. intuition.
Qed.

Lemma insert_desc_sorted (x : A) (sorted : list A) :
head_is_max key sorted -> head_is_max key (insert_desc key x sorted).
Proof.
destruct sorted as [| z zs]; cbn [insert_desc head_is_max].
- intros _ y [-> | []]. apply Qle_refl.
- intros Hz. destruct (fle (key z) (key x)) eqn:E.
  + apply fle_iff in E. intros y [-> | Hy]; [apply Qle_refl |].
    apply Qle_trans with (key z); [now apply Hz | exact E].
  + apply fle_false_iff in E. intros y [-> | Hy]; [apply Qle_refl |].
    apply insert_desc_in in Hy. destruct Hy as [-> | Hy].
    * now apply Qlt_le_weak.
    * apply Hz. now right.
Qed.

Lemma sorted_desc_head_is_max (xs : list A) :
head_is_max key (sorted_desc key xs).
Proof.
induction xs as [| x xs IH]; cbn [sorted_desc fold_right]; [exact I |].
now apply insert_desc_sorted.
Qed.

Lemma sorted_desc_length (xs : list A) :
length (sorted_desc key xs) = length xs.
Proof.
induction xs as [| x xs IH]; cbn [sorted_desc fold_right length];
  [reflexivity |].
fold (sorted_desc key xs). rewrite <- IH. generalize (sorted_desc key xs).
intros l. induction l as [| z zs IHl]; cbn [insert_desc]; [reflexivity |].
destruct (fle (key z) (key x)); cbn [length]; [reflexivity |].
now rewrite IHl.
Qed.

Lemma existsb_eqb_in (x : T) (seen : list T) :
existsb (eqb x) seen = true <-> In x seen.
Proof.
rewrite existsb_exists. split.
- intros (y & Hy & E). apply eqb_eq in E. now subst.
- intros H. exists x. split; [exact H | now apply eqb_eq].
Qed.

(** What the filtering loop keeps: the list so far, then elements of the
    input with types that are new and pairwise distinct, never beyond three
    elements unless it started with more. *)
Lemma unique_top3_spec (xs : list A) (seen : list T) (kept : list A) :
exists more,
  unique_top3 eqb ty xs seen kept = kept ++ more
  /\ (forall x, In x more -> In x xs /\ ~ In (ty x) seen)
  /\ NoDup (map ty more)
  /\ (length (kept ++ more) <= Nat.max 3 (length kept))%nat.
Proof.
revert seen kept. induction xs as [| x xs IH]; intros seen kept;
  cbn [unique_top3].
- exists []. rewrite app_nil_r.
  split; [reflexivity |]. split; [intros ? [] |]. split; [constructor | lia].
- destruct (existsb (eqb (ty x)) seen) eqn:E; cbn [negb andb].
  + destruct (IH seen kept) as (more & -> & Hin & Hnd & Hlen).
    exists more. split; [reflexivity |]. split; [| auto].
    intros y Hy. destruct (Hin y Hy). split; [now right | assumption].
  + destruct (Nat.ltb_spec (length kept) 3) as [Hk | Hk].
    * destruct (IH (ty x :: seen) (kept ++ [x]))
        as (more & -> & Hin & Hnd & Hlen).
      exists (x :: more). rewrite <- app_assoc. split; [reflexivity |].
      assert (Hx : ~ In (ty x) seen).
      { intros H. apply existsb_eqb_in in H. congruence. }
      split; [| split].
      -- intros y [-> | Hy]; [split; [now left | exact Hx] |].
         destruct (Hin y Hy) as [H1 H2]. split; [now right |].
         intros H. apply H2. now right.
      -- cbn [map]. constructor; [| exact Hnd].
         intros H. apply in_map_iff in H as (y & Hty & Hy).
         destruct (Hin y Hy) as [_ H2]. apply H2. left. now symmetry.
      -- rewrite <- app_assoc, !length_app in *. cbn [length app] in *. lia.
    * destruct (IH seen kept) as (more & -> & Hin & Hnd & Hlen).
      exists more. split; [reflexivity |]. split; [| auto].
      intros y Hy. destruct (Hin y Hy). split; [now right | assumption].
Qed.

Lemma unique_top3_head (x : A) (xs : list A) :
exists more, unique_top3 eqb ty (x :: xs) [] [] = x :: more.
Proof.
cbn [unique_top3 existsb negb andb length Nat.ltb Nat.leb].
destruct (unique_top3_spec xs [ty x] ([] ++ [x])) as (more & -> & _).
exists more. reflexivity.
Qed.

(** The ranking of a list of signals by [key] and type. *)
Lemma rank_and_filter_spec (signals : list A) :
let result := unique_top3 eqb ty (sorted_desc key signals) [] [] in
(length result <= 3)%nat
/\ NoDup (map ty result)
/\ (forall x, In x result -> In x signals)
/\ (signals <> [] ->
    exists x more, result = x :: more
                   /\ forall y, In y signals -> key y <= key x).
Proof.
cbv zeta.
destruct (unique_top3_spec (sorted_desc key signals) [] [])
  as (more & Hr & Hin & Hnd & Hlen).
rewrite Hr. cbn [app length] in *.
split; [lia |]. split; [exact Hnd |]. split.
- intros x Hx. apply sorted_desc_in. now apply Hin.
- intros Hne.
  destruct (sorted_desc key signals) as [| x xs] eqn:Es.
  + apply (f_equal (@length _)) in Es. rewrite sorted_desc_length in Es.
    destruct signals; [congruence | discriminate].
  + destruct (unique_top3_head x xs) as [more' Hm].
    rewrite Hm in Hr. exists x, more'. split; [now rewrite <- Hr |].
    pose proof (sorted_desc_head_is_max signals) as Hmax.
    rewrite Es in Hmax. cbn [head_is_max] in Hmax.
    intros y Hy. apply Hmax. rewrite <- Es. now apply sorted_desc_in.
Qed.

End RankFacts.

Lemma ICTSignal_eqb_eq (a b : ICT.ICTSignal) :
ICT.ICTSignal_eqb a b = true <-> a = b.
Proof. destruct a, b; cbn; split; congruence. Qed.

Lemma SMCSignal_eqb_eq (a b : SMC.SMCSignal) :
SMC.SMCSignal_eqb a b = true <-> a = b.
Proof. destruct a, b; cbn; split; congruence. Qed.

(** X9. [_rank_and_filter_signals], of the ICT and of the SMC detector
    alike, returns at most three signals, no two of one type, each of them
    one of the signals it was given; and when it is given any signal, the
    first one returned has the largest product of strength and confidence
    among all of them. *)
Theorem rank_and_filter_signals_top3 :
(forall signals : list ICT.ICTSignalResult,
   let result := ICT._rank_and_filter_signals signals in
   (length result <= 3)%nat
   /\ NoDup (map ICT.signal_type result)
   /\ (forall x, In x result -> In x signals)
   /\ (signals <> [] ->
       exists x more,
         result = x :: more
         /\ forall y, In y signals ->
              (ICT.strength y * ICT.confidence y
               <= ICT.strength x * ICT.confidence x)%Q))
/\ (forall signals : list SMC.SMCSignalResult,
      let result := SMC._rank_and_filter_signals signals in
      (length result <= 3)%nat
      /\ NoDup (map SMC.signal_type result)
      /\ (forall x, In x result -> In x signals)
      /\ (signals <> [] ->
          exists x more,
            result = x :: more
            /\ forall y, In y signals ->
                 (SMC.strength y * SMC.confidence y
                  <= SMC.strength x * SMC.confidence x)%Q)).
Proof.
split; intros signals; cbv zeta.
- destruct (rank_and_filter_spec ICT.ICTSignal_eqb ICT.signal_type
              ICT.rank_key ICTSignal_eqb_eq signals)
    as (H1 & H2 & H3 & H4).
  repeat split; try assumption.
  intros Hne. destruct (H4 Hne) as (x & more & Hr & Hmax).
  exists x, more. split; [exact Hr |]. intros y Hy.
  specialize (Hmax y Hy). unfold ICT.rank_key in Hmax.
  now rewrite !fmul_correct in Hmax.
- destruct (rank_and_filter_spec SMC.SMCSignal_eqb SMC.signal_type
              SMC.rank_key SMCSignal_eqb_eq signals)
    as (H1 & H2 & H3 & H4).
  repeat split; try assumption.
  intros Hne. destruct (H4 Hne) as (x & more & Hr & Hmax).
  exists x, more. split; [exact Hr |]. intros y Hy.
  specialize (Hmax y Hy). unfold SMC.rank_key in Hmax.
  now rewrite !fmul_correct in Hmax.
Qed.

(* ===================================================================== *)
(** ** ICT: what a call leaves in the detector                            *)
(* ===================================================================== *)

Section LoopFacts.

Context {S : Type}.

(** A loop with an accumulator: an invariant of the turns that return holds
    when the loop returns, and what holds when a turn raises holds when the
    loop raises. *)
Lemma for_acc_post {X R} (I : R -> S -> Prop) (Q : exn -> S -> Prop)
  (xs : list X) (body : R -> X -> M S R) :
(forall acc x s, In x xs -> I acc s ->
   match body acc x s with
   | (Ok acc', s') => I acc' s'
   | (Raise e, s') => Q e s'
   end) ->
forall acc s, I acc s ->
  match ICT.for_acc xs acc body s with
  | (Ok r, s') => I r s'
  | (Raise e, s') => Q e s'
  end.
Proof.
induction xs as [| x xs IH]; intros Hbody acc s HI; cbn [ICT.for_acc].
- exact HI.
- unfold bind. specialize (Hbody acc x s (or_introl eq_refl) HI) as Hx.
  destruct (body acc x s) as [[acc' | e] s'].
  + apply IH; [| exact Hx]. intros acc0 y s0 Hy. apply Hbody. now right.
  + exact Hx.
Qed.

End LoopFacts.

Section OrderBlockFacts.

Import ICT.
Local Open Scope Q_scope.

Lemma state_eta (s : State) :
mkState (order_blocks s) (fair_value_gaps s) (market_structure s) = s.
Proof. now destruct s. Qed.

Lemma same_block_refl (b : OrderBlock) : same_block b b.
Proof. unfold same_block. tauto. Qed.

Lemma same_blocks_refl (bs : list OrderBlock) : Forall2 same_block bs bs.
Proof. induction bs; constructor; auto using same_block_refl. Qed.

Lemma adjacent_length {A} (xs : list A) : (length (adjacent xs) <= length xs - 1)%nat.
Proof.
unfold adjacent. rewrite length_combine. destruct xs; cbn [tl length]; lia.
Qed.

Lemma last_n_length {A} (n : nat) (xs : list A) : (length (last_n n xs) <= n)%nat.
Proof. unfold last_n. rewrite length_skipn. lia. Qed.

(** The scan for order blocks returns, and appends blocks as the constructor
    makes them: one for a pair of adjacent candles at most. *)
Lemma detect_order_blocks_spec (df : list Candle) (s : State) :
exists added,
  _detect_order_blocks df s
  = (Ok tt, mkState (order_blocks s ++ added) (fair_value_gaps s)
                    (market_structure s))
  /\ (length added <= 19)%nat
  /\ Forall fresh_block added.
Proof.
unfold _detect_order_blocks.
assert (Hlen : (length (adjacent (last_n 20 df)) <= 19)%nat).
{ pose proof (adjacent_length (last_n 20 df)).
  pose proof (last_n_length 20 df). lia. }
revert Hlen. generalize (adjacent (last_n 20 df)) as ps.
intros ps Hlen.
enough (H : exists added,
          for_each ps
            (fun p =>
               if flt (c (snd p)) (fmul (c (fst p)) 0.98)
               then modify (append_order_block
                              (OrderBlock_new (h (fst p)) (l (fst p))
                                              (t (snd p)) bearish))
               else if fgt (c (snd p)) (fmul (c (fst p)) 1.02)
               then modify (append_order_block
                              (OrderBlock_new (h (fst p)) (l (fst p))
                                              (t (snd p)) bullish))
               else ret tt) s
          = (Ok tt, mkState (order_blocks s ++ added) (fair_value_gaps s)
                            (market_structure s))
          /\ (length added <= length ps)%nat
          /\ Forall fresh_block added).
{ destruct H as (added & H1 & H2 & H3). exists added.
  split; [exact H1 |]. split; [lia | exact H3]. }
clear Hlen. revert s. induction ps as [| p ps IH]; intros s; cbn [for_each].
- exists []. rewrite app_nil_r, state_eta. unfold ret.
  split; [reflexivity |]. split; [cbn; lia | constructor].
- unfold bind.
  destruct (flt (c (snd p)) (fmul (c (fst p)) 0.98)).
  + unfold modify at 1.
    destruct (IH (append_order_block
                    (OrderBlock_new (h (fst p)) (l (fst p)) (t (snd p))
                                    bearish) s))
      as (added & -> & Hl & Hf).
    exists (OrderBlock_new (h (fst p)) (l (fst p)) (t (snd p)) bearish
            :: added).
    cbn [append_order_block order_blocks fair_value_gaps market_structure].
    rewrite <- app_assoc. split; [reflexivity |].
    split; [cbn [length]; lia |].
    constructor; [repeat split | exact Hf].
  + destruct (fgt (c (snd p)) (fmul (c (fst p)) 1.02)).
    * unfold modify at 1.
      destruct (IH (append_order_block
                      (OrderBlock_new (h (fst p)) (l (fst p)) (t (snd p))
                                      bullish) s))
        as (added & -> & Hl & Hf).
      exists (OrderBlock_new (h (fst p)) (l (fst p)) (t (snd p)) bullish
              :: added).
      cbn [append_order_block order_blocks fair_value_gaps market_structure].
      rewrite <- app_assoc. split; [reflexivity |].
      split; [cbn [length]; lia |].
      constructor; [repeat split | exact Hf].
    * unfold ret at 1. destruct (IH s) as (added & -> & Hl & Hf).
      exists added. split; [reflexivity |].
      split; [cbn [length]; lia | exact Hf].
Qed.

(** The scan for fair value gaps returns, and appends gaps. *)
Lemma detect_fair_value_gaps_spec (df : list Candle) (s : State) :
exists gaps,
  _detect_fair_value_gaps df s
  = (Ok tt, mkState (order_blocks s) (fair_value_gaps s ++ gaps)
                    (market_structure s)).
Proof.
unfold _detect_fair_value_gaps. generalize (combine df (skipn 2 df)) as ps.
intros ps. revert s. induction ps as [| p ps IH]; intros s; cbn [for_each].
- exists []. rewrite app_nil_r, state_eta. reflexivity.
- unfold bind.
  destruct (fgt (l (snd p)) (fmul (l (fst p)) 1.001)).
  + unfold modify at 1.
    match goal with
    | |- context [for_each ps _ ?s1] =>
        destruct (IH s1) as (gaps & ->)
    end.
    eexists (_ :: gaps).
    cbn [append_fvg order_blocks fair_value_gaps market_structure].
    rewrite <- app_assoc. reflexivity.
  + destruct (flt (h (snd p)) (fmul (h (fst p)) 0.999)).
    * unfold modify at 1.
      match goal with
      | |- context [for_each ps _ ?s1] =>
          destruct (IH s1) as (gaps & ->)
      end.
      eexists (_ :: gaps).
      cbn [append_fvg order_blocks fair_value_gaps market_structure].
      rewrite <- app_assoc. reflexivity.
    * unfold ret at 1. destruct (IH s) as (gaps & ->).
      exists gaps. reflexivity.
Qed.

(** The two break-of-structure tests leave the state as it is; they raise
    [ValueError], and nothing else, when the detector holds blocks but none
    of the type they take the extreme of. *)
Lemma check_bullish_bos_spec (s : State) :
match _check_bullish_bos s with
| (Ok _, s') => s' = s
| (Raise e, s') =>
    s' = s /\ e = ValueError /\ order_blocks s <> []
    /\ blocks_of bearish (order_blocks s) = []
end.
Proof.
unfold _check_bullish_bos, bind, get, lift, ret.
destruct (order_blocks s) as [| b bs] eqn:Eb; cbn [length Nat.eqb];
  [reflexivity |].
destruct (blocks_of bearish (b :: bs)) as [| x xs] eqn:Ef; cbn [map py_max].
- repeat split. discriminate.
- reflexivity.
Qed.

Lemma check_bearish_bos_spec (s : State) :
match _check_bearish_bos s with
| (Ok _, s') => s' = s
| (Raise e, s') =>
    s' = s /\ e = ValueError /\ order_blocks s <> []
    /\ blocks_of bullish (order_blocks s) = []
end.
Proof.
unfold _check_bearish_bos, bind, get, lift, ret.
destruct (order_blocks s) as [| b bs] eqn:Eb; cbn [length Nat.eqb];
  [reflexivity |].
destruct (blocks_of bullish (b :: bs)) as [| x xs] eqn:Ef; cbn [map py_min].
- repeat split. discriminate.
- reflexivity.
Qed.

(** The swing scan changes the market structure only; its signals are
    breaks of structure; it raises [ValueError], and nothing else, and then
    the detector holds blocks of one type only. *)
Lemma analyze_market_structure_post (df : list Candle) (s : State) :
match _analyze_market_structure df s with
| (Ok r, s') =>
    order_blocks s' = order_blocks s
    /\ fair_value_gaps s' = fair_value_gaps s
    /\ Forall reported_ict_signal r
| (Raise e, s') =>
    e = ValueError
    /\ order_blocks s' = order_blocks s
    /\ fair_value_gaps s' = fair_value_gaps s
    /\ order_blocks s <> []
    /\ (blocks_of bearish (order_blocks s) = []
        \/ blocks_of bullish (order_blocks s) = [])
end.
Proof.
unfold _analyze_market_structure.
destruct (length df <? 10)%nat.
- unfold ret. repeat split. constructor.
- apply (for_acc_post
           (fun r s' => order_blocks s' = order_blocks s
                        /\ fair_value_gaps s' = fair_value_gaps s
                        /\ Forall reported_ict_signal r)
           (fun e s' => e = ValueError
                        /\ order_blocks s' = order_blocks s
                        /\ fair_value_gaps s' = fair_value_gaps s
                        /\ order_blocks s <> []
                        /\ (blocks_of bearish (order_blocks s) = []
                            \/ blocks_of bullish (order_blocks s) = [])));
    [| repeat split; constructor].
  intros acc p s1 _ (Ho & Hg & Hr).
  destruct (forallb (fun x => fge (h (fst p)) (h x)) (snd p)).
  + unfold bind at 1. unfold update_ms at 1. unfold modify at 1.
    unfold bind at 1.
    match goal with
    | |- context [_check_bullish_bos ?s2] =>
        pose proof (check_bullish_bos_spec s2) as Hc;
        destruct (_check_bullish_bos s2) as [[b | e] s3]
    end.
    * subst s3. destruct b.
      -- unfold bind, update_ms, modify, ret.
         cbn [set_market_structure order_blocks fair_value_gaps].
         split; [exact Ho |]. split; [exact Hg |].
         apply Forall_app. split; [exact Hr |].
         constructor; [| constructor]. split; reflexivity.
      -- unfold ret.
         cbn [set_market_structure order_blocks fair_value_gaps]. auto.
    * destruct Hc as (-> & -> & Hne & Hnone).
      cbn [set_market_structure order_blocks fair_value_gaps] in *.
      rewrite Ho in Hne, Hnone. repeat split; auto.
  + destruct (forallb (fun x => fle (l (fst p)) (l x)) (snd p)).
    * unfold bind at 1. unfold update_ms at 1. unfold modify at 1.
      unfold bind at 1.
      match goal with
      | |- context [_check_bearish_bos ?s2] =>
          pose proof (check_bearish_bos_spec s2) as Hc;
          destruct (_check_bearish_bos s2) as [[b | e] s3]
      end.
      -- subst s3. destruct b.
         ++ unfold bind, update_ms, modify, ret.
            cbn [set_market_structure order_blocks fair_value_gaps].
            split; [exact Ho |]. split; [exact Hg |].
            apply Forall_app. split; [exact Hr |].
            constructor; [| constructor]. split; reflexivity.
         ++ unfold ret.
            cbn [set_market_structure order_blocks fair_value_gaps]. auto.
      -- destruct Hc as (-> & -> & Hne & Hnone).
         cbn [set_market_structure order_blocks fair_value_gaps] in *.
         rewrite Ho in Hne, Hnone. repeat split; auto.
    * unfold ret. auto.
Qed.

Lemma breaker_step_same_block (price : float) (b : OrderBlock) :
same_block b (fst (breaker_step price b)).
Proof.
unfold breaker_step.
destruct (negb (broken b)); [| apply same_block_refl].
destruct (Side_eqb (ob_type b) bearish && fgt price (ob_high b)).
- cbn [fst mark_broken]. unfold same_block. cbn. tauto.
- destruct (Side_eqb (ob_type b) bullish && flt price (ob_low b)).
  + cbn [fst mark_broken]. unfold same_block. cbn. tauto.
  + apply same_block_refl.
Qed.

Lemma breaker_step_signals (price : float) (b : OrderBlock) :
Forall reported_ict_signal (snd (breaker_step price b)).
Proof.
unfold breaker_step.
destruct (negb (broken b)); [| constructor].
destruct (Side_eqb (ob_type b) bearish && fgt price (ob_high b)).
- constructor; [split; reflexivity | constructor].
- destruct (Side_eqb (ob_type b) bullish && flt price (ob_low b)).
  + constructor; [split; reflexivity | constructor].
  + constructor.
Qed.

(** A second look at a block that a turn of the breaker scan has left
    changes nothing and reports nothing. *)
Lemma breaker_step_idem (price : float) (b : OrderBlock) :
breaker_step price (fst (breaker_step price b))
= (fst (breaker_step price b), []).
Proof.
unfold breaker_step at 2 3.
destruct (negb (broken b)) eqn:Eb.
- destruct (Side_eqb (ob_type b) bearish && fgt price (ob_high b)) eqn:E1.
  + reflexivity.
  + destruct (Side_eqb (ob_type b) bullish && flt price (ob_low b)) eqn:E2.
    * reflexivity.
    * cbn [fst]. unfold breaker_step. now rewrite Eb, E1, E2.
- cbn [fst]. unfold breaker_step. now rewrite Eb.
Qed.

(** The breaker scan returns; it leaves every block in its place, with the
    flags it had or set; its signals are breakers. *)
Lemma detect_breaker_blocks_spec (rc : list Candle) (s : State) :
exists r kept,
  _detect_breaker_blocks rc s
  = (Ok r, mkState kept (fair_value_gaps s) (market_structure s))
  /\ Forall2 same_block (order_blocks s) kept
  /\ Forall reported_ict_signal r.
Proof.
unfold _detect_breaker_blocks.
destruct (length rc <? 3)%nat.
{ exists [], (order_blocks s). rewrite state_eta.
  split; [reflexivity |]. split; [apply same_blocks_refl | constructor]. }
destruct (last_opt rc) as [last_candle |].
2:{ exists [], (order_blocks s). rewrite state_eta.
    split; [reflexivity |]. split; [apply same_blocks_refl | constructor]. }
unfold bind, get, modify, ret. cbn [set_order_blocks].
eexists _, _. split; [reflexivity |]. split.
- rewrite <- (firstn_skipn (length (order_blocks s) - 10) (order_blocks s))
    at 1.
  apply Forall2_app; [apply same_blocks_refl |].
  unfold last_n. generalize (skipn (length (order_blocks s) - 10)
                                   (order_blocks s)) as bs.
  intros bs. induction bs as [| b bs IH]; cbn [map]; constructor;
    [apply breaker_step_same_block | exact IH].
- generalize (last_n 10 (order_blocks s)) as bs.
  intros bs. induction bs as [| b bs IH]; cbn [map flat_map];
    [constructor |].
  apply Forall_app. split; [apply breaker_step_signals | exact IH].
Qed.

Lemma market_maker_model_signals (df : list Candle) :
Forall reported_ict_signal (_analyze_market_maker_model df).
Proof.
unfold _analyze_market_maker_model.
destruct (length df <? 30)%nat; [constructor |].
destruct (_detect_market_maker_buy_model (last_n 30 df)).
- constructor; [split; reflexivity | constructor].
- destruct (_detect_market_maker_sell_model (last_n 30 df)).
  + constructor; [split; reflexivity | constructor].
  + constructor.
Qed.

Lemma rank_and_filter_in (signals : list ICTSignalResult) (x : ICTSignalResult) :
In x (_rank_and_filter_signals signals) -> In x signals.
Proof.
intros H.
destruct (rank_and_filter_spec ICTSignal_eqb signal_type rank_key
            ICTSignal_eqb_eq signals) as (_ & _ & Hin & _).
now apply Hin.
Qed.

(** What one call of [analyze_candles] does to the detector, and what it can
    return. *)
Lemma analyze_candles_post (candles : list Candle) (s : State) :
exists added gaps,
  (length added <= 19)%nat
  /\ Forall fresh_block added
  /\ match analyze_candles candles s with
     | (Ok r, s') =>
         (exists kept,
            order_blocks s' = kept
            /\ Forall2 same_block (order_blocks s ++ added) kept)
         /\ fair_value_gaps s' = fair_value_gaps s ++ gaps
         /\ Forall reported_ict_signal r
     | (Raise e, s') =>
         e = ValueError
         /\ (50 <= length candles)%nat
         /\ order_blocks s' = order_blocks s ++ added
         /\ fair_value_gaps s' = fair_value_gaps s ++ gaps
         /\ order_blocks s' <> []
         /\ (blocks_of bearish (order_blocks s') = []
             \/ blocks_of bullish (order_blocks s') = [])
     end.
Proof.
unfold analyze_candles.
destruct (Nat.ltb_spec (length candles) 50) as [Hlt | Hge].
{ exists [], []. split; [cbn; lia |]. split; [constructor |].
  unfold ret. rewrite !app_nil_r.
  split; [eexists; split; [reflexivity | apply same_blocks_refl] |].
  split; [reflexivity | constructor]. }
destruct (detect_order_blocks_spec candles s) as (added & E1 & Hl & Hf).
unfold bind at 1. rewrite E1. unfold bind at 1.
match goal with
| |- context [_detect_fair_value_gaps candles ?s1] =>
    destruct (detect_fair_value_gaps_spec candles s1) as (gaps & E2)
end.
cbn [order_blocks fair_value_gaps market_structure] in E2.
rewrite E2.
exists added, gaps. split; [exact Hl |]. split; [exact Hf |].
unfold bind at 1.
match goal with
| |- context [_analyze_market_structure candles ?s2] =>
    pose proof (analyze_market_structure_post candles s2) as H3;
    destruct (_analyze_market_structure candles s2) as [[bos | e] s3]
end; cbn [order_blocks fair_value_gaps] in H3.
2:{ destruct H3 as (-> & Ho & Hg & Hne & Hside).
    rewrite Ho, Hg. repeat split; auto. }
destruct H3 as (Ho & Hg & Hbos).
unfold bind at 1.
destruct (detect_breaker_blocks_spec (last_n 20 candles) s3)
  as (br & kept & E4 & Hk & Hbr).
rewrite E4. unfold ret. cbn [order_blocks fair_value_gaps].
rewrite Ho in Hk. split; [exists kept; split; [reflexivity | exact Hk] |].
split; [exact Hg |].
apply Forall_forall. intros x Hx. apply rank_and_filter_in in Hx.
rewrite !in_app_iff in Hx.
pose proof (market_maker_model_signals candles) as Hmm.
rewrite Forall_forall in Hbos, Hbr, Hmm.
destruct Hx as [Hx | [Hx | Hx]]; auto.
Qed.

End OrderBlockFacts.

Lemma filter_nil_forall {A} (f : A -> bool) (xs : list A) :
filter f xs = [] -> Forall (fun x => f x = false) xs.
Proof.
induction xs as [| x xs IH]; cbn [filter]; [constructor |].
destruct (f x) eqn:E; [discriminate |]. intros H. constructor; auto.
Qed.

Lemma one_sided_blocks (bs : list ICT.OrderBlock) :
ICT.blocks_of ICT.bearish bs = [] \/ ICT.blocks_of ICT.bullish bs = [] ->
exists side, Forall (fun b => ICT.ob_type b = side) bs.
Proof.
intros [H | H]; apply filter_nil_forall in H.
- exists ICT.bullish. revert H. apply Forall_impl. intros b.
  now destruct (ICT.ob_type b).
- exists ICT.bearish. revert H. apply Forall_impl. intros b.
  now destruct (ICT.ob_type b).
Qed.

(** X10. A call of [ICTStrategies.analyze_candles] removes nothing from the
    detector, whether it returns or raises: afterwards the detector holds
    the order blocks it held, in their places, with their prices, timestamps
    and types and with every flag that was set still set, and after them at
    most 19 new blocks; and it holds the fair value gaps it held, and after
    them new ones. *)
Theorem ict_analyze_candles_keeps_blocks_and_gaps
  (candles : list Candle) (s : ICT.State) :
  let s' := snd (ICT.analyze_candles candles s) in
  exists kept added gaps,
    ICT.order_blocks s' = kept ++ added
    /\ Forall2 same_block (ICT.order_blocks s) kept
    /\ (length added <= 19)%nat
    /\ ICT.fair_value_gaps s' = ICT.fair_value_gaps s ++ gaps.
Proof.
  cbv zeta.
  destruct (analyze_candles_post candles s) as (added & gaps & Hl & _ & H).
  destruct (ICT.analyze_candles candles s) as [[r | e] s']; cbn [snd].
  - destruct H as ((kept & Hk & Hsame) & Hg & _).
    apply Forall2_app_inv_l in Hsame.
    destruct Hsame as (k1 & k2 & H1 & H2 & ->).
    exists k1, k2, gaps. repeat split; try assumption.
    apply Forall2_length in H2. lia.
  - destruct H as (_ & _ & Ho & Hg & _).
    exists (ICT.order_blocks s), added, gaps.
    repeat split; try assumption. apply same_blocks_refl.
Qed.

(** X11. [ICTStrategies.analyze_candles] raises nothing but [ValueError],
    and only on 50 candles or more; the detector then holds at least one
    order block, and the blocks it holds, like those it held before the
    call, are all of one type. *)
Theorem ict_analyze_candles_raises_value_error_on_one_sided_blocks
  (candles : list Candle) (s : ICT.State) (e : exn) :
  fst (ICT.analyze_candles candles s) = Raise e ->
  let s' := snd (ICT.analyze_candles candles s) in
  e = ValueError
  /\ (50 <= length candles)%nat
  /\ ICT.order_blocks s' <> []
  /\ exists side,
       Forall (fun b => ICT.ob_type b = side) (ICT.order_blocks s')
       /\ Forall (fun b => ICT.ob_type b = side) (ICT.order_blocks s).
Proof.
  cbv zeta.
  destruct (analyze_candles_post candles s) as (added & gaps & _ & _ & H).
  destruct (ICT.analyze_candles candles s) as [[r | e'] s']; cbn [fst snd];
    intros He; [discriminate |].
  injection He as ->.
  destruct H as (-> & Hlen & Ho & _ & Hne & Hside).
  repeat split; try assumption.
  destruct (one_sided_blocks _ Hside) as [side Hall].
  exists side. split; [exact Hall |].
  rewrite Ho in Hall. now apply Forall_app in Hall.
Qed.

Lemma ict_analyze_candles_raises_value_error_on_one_sided_blocks_witness :
  fst (ICT.analyze_candles rally_window ICT.init) = Raise ValueError
  /\ (50 <= length rally_window)%nat
  /\ ICT.order_blocks (snd (ICT.analyze_candles rally_window ICT.init)) <> [].
Proof.
  assert (H : fst (ICT.analyze_candles rally_window ICT.init)
              = Raise ValueError) by (vm_compute; reflexivity).
  destruct (ict_analyze_candles_raises_value_error_on_one_sided_blocks
              rally_window ICT.init ValueError H) as (_ & Hl & Hne & _).
  split; [exact H |]. split; [exact Hl | exact Hne].
Defined.

(** X12. A detector that holds a bullish and a bearish order block never
    raises: [ICTStrategies.analyze_candles] returns a list of signals for
    every list of candles. *)
Theorem ict_analyze_candles_returns_with_both_block_types
  (candles : list Candle) (s : ICT.State) (b1 b2 : ICT.OrderBlock) :
  In b1 (ICT.order_blocks s) -> ICT.ob_type b1 = ICT.bullish ->
  In b2 (ICT.order_blocks s) -> ICT.ob_type b2 = ICT.bearish ->
  exists r s', ICT.analyze_candles candles s = (Ok r, s').
Proof.
  intros H1 T1 H2 T2.
  destruct (analyze_candles_post candles s) as (added & gaps & _ & _ & H).
  destruct (ICT.analyze_candles candles s) as [[r | e] s']; [eauto |].
  exfalso. destruct H as (_ & _ & Ho & _ & _ & Hside).
  destruct (one_sided_blocks _ Hside) as [side Hall].
  rewrite Ho in Hall. apply Forall_app in Hall. destruct Hall as [Hall _].
  rewrite Forall_forall in Hall.
  pose proof (Hall b1 H1). pose proof (Hall b2 H2). congruence.
Qed.

Lemma ict_analyze_candles_returns_with_both_block_types_witness :
  exists r s', ICT.analyze_candles later_window two_sided_state = (Ok r, s').
Proof.
  apply (ict_analyze_candles_returns_with_both_block_types
           later_window two_sided_state
           (ICT.OrderBlock_new 100 98 1737802800 ICT.bullish)
           (ICT.OrderBlock_new 110 108 1737799200 ICT.bearish)).
  - right. left. reflexivity.
  - reflexivity.
  - left. reflexivity.
  - reflexivity.
Defined.

(** X13. The signals that [ICTStrategies.analyze_candles] returns are
    breaks of structure with strength 75 and confidence 80, breakers with
    strength 85 and confidence 90, and market-maker models with strength 90
    and confidence 85: no fair value gap, no market-structure shift and no
    neutral signal is ever returned. *)
Theorem ict_analyze_candles_reported_signals
  (candles : list Candle) (s s' : ICT.State) (r : list ICT.ICTSignalResult) :
  ICT.analyze_candles candles s = (Ok r, s') ->
  Forall reported_ict_signal r.
Proof.
  intros E.
  destruct (analyze_candles_post candles s) as (added & gaps & _ & _ & H).
  rewrite E in H. now destruct H as (_ & _ & H).
Qed.

Lemma ict_analyze_candles_reported_signals_witness :
  exists r s',
    ICT.analyze_candles later_window
      (snd (ICT.analyze_candles earlier_window ICT.init)) = (Ok r, s')
    /\ map ICT.signal_type r
       = [ICT.BULLISH_BREAKER; ICT.MM_BUY_MODEL; ICT.BOS_BULLISH]
    /\ Forall reported_ict_signal r.
Proof.
  assert (Hrun : exists r,
             fst (ICT.analyze_candles later_window
                    (snd (ICT.analyze_candles earlier_window ICT.init)))
             = Ok r
             /\ map ICT.signal_type r
                = [ICT.BULLISH_BREAKER; ICT.MM_BUY_MODEL; ICT.BOS_BULLISH])
    by (vm_compute; eexists; split; reflexivity).
  destruct Hrun as (r & Hr & Hty).
  destruct (ICT.analyze_candles later_window
              (snd (ICT.analyze_candles earlier_window ICT.init)))
    as [[r' | e] s'] eqn:E; cbn [fst] in Hr; [| discriminate Hr].
  injection Hr as ->. exists r, s'. split; [reflexivity |].
  split; [exact Hty |].
  exact (ict_analyze_candles_reported_signals _ _ _ _ E).
Defined.

(** X14. The breaker scan reports a block once: run again on the same
    candles, straight after a first run, [_detect_breaker_blocks] returns no
    signal and leaves the detector as the first run left it. *)
Theorem breaker_scan_reports_a_block_once
  (recent_candles : list Candle) (s : ICT.State) :
  let s1 := snd (ICT._detect_breaker_blocks recent_candles s) in
  ICT._detect_breaker_blocks recent_candles s1 = (Ok [], s1).
Proof.
  cbv zeta. unfold ICT._detect_breaker_blocks.
  destruct (length recent_candles <? 3)%nat; [reflexivity |].
  destruct (last_opt recent_candles) as [last_candle |]; [| reflexivity].
  unfold bind, get, modify, ret. cbn [snd ICT.set_order_blocks ICT.order_blocks
    ICT.fair_value_gaps ICT.market_structure].
  set (obs := ICT.order_blocks s).
  set (p := c last_candle).
  assert (Hlen : length (firstn (length obs - 10) obs
                         ++ map fst (map (ICT.breaker_step p) (last_n 10 obs)))
                 = length obs).
  { rewrite length_app, !length_map. unfold last_n.
    rewrite <- length_app, firstn_skipn. reflexivity. }
  rewrite Hlen.
  assert (Hf : length (firstn (length obs - 10) obs) = (length obs - 10)%nat).
  { rewrite length_firstn. lia. }
  assert (E1 : firstn (length obs - 10)
                 (firstn (length obs - 10) obs
                  ++ map fst (map (ICT.breaker_step p) (last_n 10 obs)))
               = firstn (length obs - 10) obs).
  { rewrite firstn_app, Hf, Nat.sub_diag, firstn_O, app_nil_r.
    rewrite firstn_all2; [reflexivity | lia]. }
  assert (E2 : last_n 10
                 (firstn (length obs - 10) obs
                  ++ map fst (map (ICT.breaker_step p) (last_n 10 obs)))
               = map fst (map (ICT.breaker_step p) (last_n 10 obs))).
  { unfold last_n at 1. rewrite Hlen, skipn_app, Hf, Nat.sub_diag.
    rewrite skipn_all2; [reflexivity | lia]. }
  rewrite E1, E2.
  assert (E3 : map (ICT.breaker_step p)
                 (map fst (map (ICT.breaker_step p) (last_n 10 obs)))
               = map (fun b => (b, []))
                   (map fst (map (ICT.breaker_step p) (last_n 10 obs)))).
  { rewrite !map_map. apply map_ext. intros b. apply breaker_step_idem. }
  rewrite E3. f_equal.
  - f_equal. generalize (map fst (map (ICT.breaker_step p) (last_n 10 obs))).
    intros bs. induction bs; cbn [map flat_map app snd]; auto.
  - unfold ICT.set_order_blocks.
    cbn [ICT.order_blocks ICT.fair_value_gaps ICT.market_structure].
    rewrite (map_map (fun b => (b, [])) fst). cbn [fst]. rewrite map_id.
    reflexivity.
Qed.

(* ===================================================================== *)
(** ** SMC: what a call leaves in the detector                            *)
(* ===================================================================== *)

Section SmcStateFacts.

Import SMC.
Local Open Scope Q_scope.

Lemma smc_state_eta (s : State) :
mkState (liquidity_pools s) (inducements s) (mitigation_zones s) (bpr_zones s)
= s.
Proof. now destruct s. Qed.

Lemma same_pool_refl (p : LiquidityPool) : same_pool p p.
Proof. unfold same_pool. tauto. Qed.

Lemma same_pools_refl (ps : list LiquidityPool) : Forall2 same_pool ps ps.
Proof. induction ps; constructor; auto using same_pool_refl. Qed.

Lemma no_close_pools_snoc (ps : list LiquidityPool) (q : LiquidityPool) :
no_close_pools ps ->
Forall (fun p => pool_type p = pool_type q ->
                 rel_close (price_level p) (price_level q) = false) ps ->
no_close_pools (ps ++ [q]).
Proof.
unfold no_close_pools. intros Hps Hq.
induction Hps as [| p ps Hp Hps IH]; cbn [app].
- constructor; constructor.
- inversion Hq as [| ? ? Hpq Hq']; subst. constructor.
  + apply Forall_app. split; [exact Hp |]. constructor; [exact Hpq |].
    constructor.
  + now apply IH.
Qed.

Lemma no_close_pools_same (ps ps' : list LiquidityPool) :
Forall2 same_pool ps ps' -> no_close_pools ps -> no_close_pools ps'.
Proof.
unfold no_close_pools. intros H. induction H as [| p p' ps ps' Hp Hps IH];
  intros Hn; [constructor |].
inversion Hn as [| ? ? Hhead Htail]; subst. constructor; [| now apply IH].
clear IH Htail Hn. destruct Hp as (Hl & Ht & _).
induction Hps as [| q q' qs qs' Hq Hqs IHq]; [constructor |].
inversion Hhead as [| ? ? Hpq Hrest]; subst.
constructor; [| now apply IHq].
destruct Hq as (Hl' & Ht' & _). rewrite Hl, Ht, Hl', Ht'. exact Hpq.
Qed.

Lemma existsb_filter_false {A} (f g : A -> bool) (xs : list A) :
existsb f (filter g xs) = false ->
Forall (fun x => g x = true -> f x = false) xs.
Proof.
induction xs as [| x xs IH]; cbn [filter]; [constructor |].
destruct (g x) eqn:Eg; cbn [existsb].
- intros H. apply orb_false_iff in H. destruct H as [Hf H].
  constructor; [auto | now apply IH].
- intros H. constructor; [intros; congruence | now apply IH].
Qed.

Lemma PoolSide_eqb_eq (a b : PoolSide) : PoolSide_eqb a b = true <-> a = b.
Proof. destruct a, b; cbn; split; congruence. Qed.

(** One side of the pool scan returns and appends pools, none of them within
    0.1% of an earlier pool of its side. *)
Lemma detect_pools_side_spec (side : PoolSide) (level : Candle -> float)
  (xs : list Candle) (s : State) :
exists added,
  detect_pools_side side level xs s
  = (Ok tt, set_pools (liquidity_pools s ++ added) s)
  /\ (no_close_pools (liquidity_pools s) ->
      no_close_pools (liquidity_pools s ++ added)).
Proof.
unfold detect_pools_side. generalize (index_pairs xs) as ps.
intros ps. revert s. induction ps as [| p ps IH]; intros s; cbn [for_each].
- exists []. rewrite app_nil_r. unfold set_pools. rewrite smc_state_eta.
  split; [reflexivity | auto].
- unfold bind.
  destruct (rel_close (level (snd p)) (level (fst p))).
  + unfold modify at 1.
    destruct (negb (existsb (fun q => rel_close (price_level q)
                                                (level (fst p)))
                            (filter (fun q => PoolSide_eqb (pool_type q) side)
                                    (liquidity_pools s)))) eqn:En.
    * match goal with
      | |- context [for_each ps _ ?s1] =>
          destruct (IH s1) as (added & -> & Hn)
      end.
      cbn [set_pools liquidity_pools inducements mitigation_zones bpr_zones]
        in *.
      eexists (_ :: added). rewrite <- app_assoc in *.
      split; [reflexivity |]. intros H0. apply Hn.
      apply no_close_pools_snoc; [exact H0 |].
      apply negb_true_iff in En. apply existsb_filter_false in En.
      revert En. apply Forall_impl. intros q Hq Hty. apply Hq.
      apply PoolSide_eqb_eq. exact Hty.
    * destruct (IH s) as (added & -> & Hn). exists added. auto.
  + unfold ret at 1. destruct (IH s) as (added & -> & Hn). exists added. auto.
Qed.

Lemma detect_liquidity_pools_spec (df : list Candle) (s : State) :
exists added,
  _detect_liquidity_pools df s
  = (Ok tt, set_pools (liquidity_pools s ++ added) s)
  /\ (no_close_pools (liquidity_pools s) ->
      no_close_pools (liquidity_pools s ++ added)).
Proof.
unfold _detect_liquidity_pools.
destruct (length df <? 20)%nat.
- exists []. rewrite app_nil_r. unfold set_pools. rewrite smc_state_eta.
  split; [reflexivity | auto].
- unfold bind.
  destruct (detect_pools_side_spec pool_buy_side h (last_n 20 df) s)
    as (a1 & -> & H1).
  match goal with
  | |- context [detect_pools_side pool_sell_side l _ ?s1] =>
      destruct (detect_pools_side_spec pool_sell_side l (last_n 20 df) s1)
        as (a2 & -> & H2)
  end.
  cbn [set_pools liquidity_pools inducements mitigation_zones bpr_zones] in *.
  exists (a1 ++ a2). rewrite app_assoc. split; [reflexivity | auto].
Qed.

Lemma sweep_step_same_pool (df : list Candle) (price : float)
  (p : LiquidityPool) :
same_pool p (fst (sweep_step df price p)).
Proof.
unfold sweep_step. destruct (swept p) eqn:Es; [apply same_pool_refl |].
destruct (pool_type p) eqn:Et;
  match goal with
  | |- context [if ?b then _ else _] => destruct b
  end; cbn [fst]; try apply same_pool_refl;
  unfold same_pool, mark_swept; cbn; auto.
Qed.

Lemma sweep_step_signals (df : list Candle) (price : float)
  (p : LiquidityPool) :
Forall reported_smc_signal (snd (sweep_step df price p)).
Proof.
unfold sweep_step. destruct (swept p); [constructor |].
destruct (pool_type p);
  match goal with
  | |- context [if ?b then _ else _] => destruct b
  end; cbn [snd]; constructor; try constructor; split; reflexivity.
Qed.

Lemma sweep_step_idem (df : list Candle) (price : float) (p : LiquidityPool) :
sweep_step df price (fst (sweep_step df price p))
= (fst (sweep_step df price p), []).
Proof.
unfold sweep_step at 2 3. destruct (swept p) eqn:Es.
- cbn [fst]. unfold sweep_step. now rewrite Es.
- destruct (pool_type p) eqn:Et.
  + match goal with
    | |- context [if ?b then _ else _] => destruct b eqn:Eb
    end; cbn [fst]; [reflexivity |].
    unfold sweep_step. rewrite Es, Et. cbv zeta. now rewrite Eb.
  + match goal with
    | |- context [if ?b then _ else _] => destruct b eqn:Eb
    end; cbn [fst]; [reflexivity |].
    unfold sweep_step. rewrite Es, Et. cbv zeta. now rewrite Eb.
Qed.

Lemma detect_liquidity_sweeps_spec (df : list Candle) (price : float)
  (s : State) :
exists r kept,
  _detect_liquidity_sweeps df price s = (Ok r, set_pools kept s)
  /\ Forall2 same_pool (liquidity_pools s) kept
  /\ Forall reported_smc_signal r.
Proof.
unfold _detect_liquidity_sweeps, bind, get, modify, ret.
eexists _, _. split; [reflexivity |]. split.
- generalize (liquidity_pools s) as ps. intros ps.
  induction ps as [| p ps IH]; cbn [map]; constructor;
    [apply sweep_step_same_pool | exact IH].
- generalize (liquidity_pools s) as ps. intros ps.
  induction ps as [| p ps IH]; cbn [map flat_map]; [constructor |].
  apply Forall_app. split; [apply sweep_step_signals | exact IH].
Qed.

(** A turn of the inducement scan hands the list on and leaves the detector
    alone, unless the candle has the shape it looks for: then it records one
    pattern and raises [NameError]. *)
Lemma inducement_turn_spec (results : list SMCSignalResult) (x : Candle)
  (s : State) :
match inducement_turn results x s with
| (Ok r, s') => r = results /\ s' = s
| (Raise e, s') =>
    e = NameError
    /\ (bullish_inducement_candle x \/ bearish_inducement_candle x)
    /\ exists p, s' = append_inducement p s
end.
Proof.
unfold inducement_turn, bind, modify, raise, ret.
destruct (fgt (fsub (pmin (o x) (c x)) (l x))
              (fmul (fabs (fsub (c x) (o x))) 2) && fgt (c x) (o x)) eqn:E1.
- apply andb_true_iff in E1. destruct E1 as [Hw Hco].
  unfold fgt in Hw, Hco. apply flt_iff in Hw, Hco.
  split; [reflexivity |]. split; [| eauto]. left.
  unfold bullish_inducement_candle. split; [exact Hco |].
  assert (Hmin : pmin (o x) (c x) = o x).
  { unfold pmin. replace (flt (c x) (o x)) with false; [reflexivity |].
    symmetry. apply flt_false_iff. now apply Qlt_le_weak. }
  assert (Hb : fabs (fsub (c x) (o x)) == c x - o x).
  { rewrite fabs_nonneg; [apply fsub_correct | rewrite fsub_correct; lra]. }
  rewrite Hmin, fmul_correct, (fsub_correct (o x) (l x)), Hb in Hw. lra.
- destruct (fgt (fsub (h x) (pmax (o x) (c x)))
                (fmul (fabs (fsub (c x) (o x))) 2) && flt (c x) (o x)) eqn:E2.
  + apply andb_true_iff in E2. destruct E2 as [Hw Hco].
    unfold fgt in Hw. apply flt_iff in Hw, Hco.
    split; [reflexivity |]. split; [| eauto]. right.
    unfold bearish_inducement_candle. split; [exact Hco |].
    assert (Hmax : pmax (o x) (c x) = o x).
    { unfold pmax, fgt. replace (flt (o x) (c x)) with false; [reflexivity |].
      symmetry. apply flt_false_iff. now apply Qlt_le_weak. }
    assert (Hb : fabs (fsub (c x) (o x)) == o x - c x).
    { rewrite fabs_nonpos; rewrite fsub_correct; lra. }
    rewrite Hmax, fmul_correct, (fsub_correct (h x) (o x)), Hb in Hw. lra.
  + split; reflexivity.
Qed.

Lemma detect_inducements_spec (df : list Candle) (s : State) :
match _detect_inducements df s with
| (Ok r, s') => r = [] /\ s' = s
| (Raise e, s') =>
    e = NameError
    /\ (5 <= length df)%nat
    /\ (exists x, In x (last_n 3 df)
                  /\ (bullish_inducement_candle x
                      \/ bearish_inducement_candle x))
    /\ exists p, s' = append_inducement p s
end.
Proof.
unfold _detect_inducements.
destruct (Nat.ltb_spec (length df) 5) as [Hlt | Hge];
  [split; reflexivity |].
rewrite last_three_of_last_five by exact Hge.
apply (for_acc_post
         (fun r s' => r = [] /\ s' = s)
         (fun e s' =>
            e = NameError /\ (5 <= length df)%nat
            /\ (exists x, In x (last_n 3 df)
                          /\ (bullish_inducement_candle x
                              \/ bearish_inducement_candle x))
            /\ exists p, s' = append_inducement p s));
  [| split; reflexivity].
intros acc x s1 Hin (-> & ->).
pose proof (inducement_turn_spec [] x s) as H.
destruct (inducement_turn [] x s) as [[r | e] s'].
- exact H.
- destruct H as (-> & Hx & Hp). repeat split; eauto.
Qed.

Lemma detect_bpr_zones_spec (df : list Candle) (price : float) (s : State) :
exists r zones,
  _detect_bpr_zones df price s
  = (Ok r, mkState (liquidity_pools s) (inducements s) (mitigation_zones s)
                   (bpr_zones s ++ zones))
  /\ (length zones <= 1)%nat
  /\ Forall reported_smc_signal r.
Proof.
unfold _detect_bpr_zones.
assert (Hsame : exists r zones,
          @ret State _ [] s
          = (Ok r, mkState (liquidity_pools s) (inducements s)
                           (mitigation_zones s) (bpr_zones s ++ zones))
          /\ (length zones <= 1)%nat
          /\ Forall reported_smc_signal r).
{ exists [], []. rewrite app_nil_r, smc_state_eta.
  split; [reflexivity |]. split; [cbn; lia | constructor]. }
destruct (length df <? 10)%nat; [exact Hsame |].
destruct (fgt _ _); [| exact Hsame].
destruct (fle _ _ && fle _ _); [| exact Hsame].
unfold bind, modify, ret.
destruct (fgt price _).
- eexists _, [_]. cbn [append_bpr]. split; [reflexivity |].
  split; [cbn; lia |]. constructor; [split; reflexivity | constructor].
- eexists _, [_]. cbn [append_bpr]. split; [reflexivity |].
  split; [cbn; lia |]. constructor; [split; reflexivity | constructor].
Qed.

Lemma mitigation_step_signals (price : float) (z : MitigationZone) :
Forall reported_smc_signal (snd (mitigation_step price z)).
Proof.
unfold mitigation_step.
destruct (mz_subsequent_rejection z && negb (signal_generated z));
  cbn [snd]; [| constructor].
constructor; [| constructor]. destruct (mz_direction z); split; reflexivity.
Qed.

Lemma mitigation_step_idem (price : float) (z : MitigationZone) :
mitigation_step price (fst (mitigation_step price z))
= (fst (mitigation_step price z), []).
Proof.
unfold mitigation_step at 2 3.
destruct (mz_subsequent_rejection z && negb (signal_generated z)) eqn:E;
  cbn [fst].
- unfold mitigation_step. cbn [set_generated signal_generated
    mz_subsequent_rejection]. now rewrite andb_false_r.
- unfold mitigation_step. now rewrite E.
Qed.

Lemma detect_mitigation_setups_spec (price : float) (s : State) :
exists r zones,
  _detect_mitigation_setups price s = (Ok r, set_mitigation_zones zones s)
  /\ length zones = length (mitigation_zones s)
  /\ Forall reported_smc_signal r.
Proof.
unfold _detect_mitigation_setups, bind, get, modify, ret.
eexists _, _. split; [reflexivity |]. split; [now rewrite !length_map |].
generalize (mitigation_zones s) as zs. intros zs.
induction zs as [| z zs IH]; cbn [map flat_map]; [constructor |].
apply Forall_app. split; [apply mitigation_step_signals | exact IH].
Qed.

Lemma smc_rank_and_filter_in (signals : list SMCSignalResult)
  (x : SMCSignalResult) :
In x (_rank_and_filter_signals signals) -> In x signals.
Proof.
intros H.
destruct (rank_and_filter_spec SMCSignal_eqb signal_type rank_key
            SMCSignal_eqb_eq signals) as (_ & _ & Hin & _).
now apply Hin.
Qed.

(** What one call of [analyze_candles] does to the detector, and what it can
    return. *)
Lemma smc_analyze_candles_post (candles : list Candle) (s : State) :
exists kept added,
  Forall2 same_pool (liquidity_pools s) kept
  /\ (no_close_pools (liquidity_pools s) -> no_close_pools (kept ++ added))
  /\ match analyze_candles candles s with
     | (Ok r, s') =>
         liquidity_pools s' = kept ++ added
         /\ inducements s' = inducements s
         /\ (exists zones, bpr_zones s' = bpr_zones s ++ zones
                           /\ (length zones <= 1)%nat)
         /\ length (mitigation_zones s') = length (mitigation_zones s)
         /\ Forall reported_smc_signal r
     | (Raise e, s') =>
         e = NameError
         /\ (30 <= length candles)%nat
         /\ (exists x, In x (last_n 3 candles)
                       /\ (bullish_inducement_candle x
                           \/ bearish_inducement_candle x))
         /\ liquidity_pools s' = kept ++ added
         /\ (exists p, inducements s' = inducements s ++ [p])
         /\ bpr_zones s' = bpr_zones s
         /\ mitigation_zones s' = mitigation_zones s
     end.
Proof.
unfold analyze_candles.
destruct (Nat.ltb_spec (length candles) 30) as [Hlt | Hge].
{ exists (liquidity_pools s), []. rewrite app_nil_r.
  split; [apply same_pools_refl |]. split; [auto |].
  unfold ret. repeat split; try reflexivity; try constructor.
  exists []. rewrite app_nil_r. split; [reflexivity | cbn; lia]. }
unfold bind at 1.
destruct (detect_liquidity_pools_spec candles s) as (added & -> & Hn1).
unfold bind at 1.
match goal with
| |- context [_detect_liquidity_sweeps candles ?p ?s1] =>
    destruct (detect_liquidity_sweeps_spec candles p s1)
      as (sw & kept' & -> & Hk & Hsw)
end.
cbn [set_pools liquidity_pools inducements mitigation_zones bpr_zones] in *.
apply Forall2_app_inv_l in Hk. destruct Hk as (k1 & k2 & Hk1 & Hk2 & ->).
exists k1, k2. split; [exact Hk1 |]. split.
{ intros H0. apply (no_close_pools_same (liquidity_pools s ++ added));
    [apply Forall2_app; assumption | auto]. }
unfold bind at 1.
match goal with
| |- context [_detect_inducements candles ?s2] =>
    pose proof (detect_inducements_spec candles s2) as Hi;
    destruct (_detect_inducements candles s2) as [[ir | e] s3]
end.
2:{ destruct Hi as (-> & _ & Hx & p & ->).
    cbn [append_inducement liquidity_pools inducements mitigation_zones
           bpr_zones].
    repeat split; eauto. }
destruct Hi as (-> & ->).
unfold bind at 1.
match goal with
| |- context [_detect_bpr_zones candles ?p ?s2] =>
    destruct (detect_bpr_zones_spec candles p s2)
      as (br & zones & -> & Hz & Hbr)
end.
cbn [liquidity_pools inducements mitigation_zones bpr_zones].
unfold bind at 1. unfold _update_mitigation_tracking at 1. unfold modify at 1.
unfold bind at 1.
match goal with
| |- context [_detect_mitigation_setups ?p ?s2] =>
    destruct (detect_mitigation_setups_spec p s2)
      as (mr & mz & -> & Hmz & Hmr)
end.
unfold ret.
cbn [set_mitigation_zones liquidity_pools inducements mitigation_zones
       bpr_zones] in *.
rewrite length_map in Hmz.
split; [reflexivity |]. split; [reflexivity |].
split; [eauto |]. split; [exact Hmz |].
apply Forall_forall. intros x Hx. apply smc_rank_and_filter_in in Hx.
cbn [app] in Hx. rewrite !in_app_iff in Hx.
rewrite Forall_forall in Hsw, Hbr, Hmr.
destruct Hx as [Hx | [Hx | Hx]]; auto.
Qed.

End SmcStateFacts.

(** X15. [SMCStrategies.analyze_candles] raises nothing but [NameError],
    and only on 30 candles or more of which one of the last three is an
    inducement candle; the detector has then recorded exactly one more
    inducement pattern, and its balanced price ranges and mitigation zones
    are as they were. *)
Theorem smc_analyze_candles_raises_only_on_inducement_candle
  (candles : list Candle) (s : SMC.State) (e : exn) :
  fst (SMC.analyze_candles candles s) = Raise e ->
  let s' := snd (SMC.analyze_candles candles s) in
  e = NameError
  /\ (30 <= length candles)%nat
  /\ (exists x, In x (last_n 3 candles)
                /\ (bullish_inducement_candle x
                    \/ bearish_inducement_candle x))
  /\ (exists p, SMC.inducements s' = SMC.inducements s ++ [p])
  /\ SMC.bpr_zones s' = SMC.bpr_zones s
  /\ SMC.mitigation_zones s' = SMC.mitigation_zones s.
Proof.
  cbv zeta.
  destruct (smc_analyze_candles_post candles s) as (kept & added & _ & _ & H).
  destruct (SMC.analyze_candles candles s) as [[r | e'] s']; cbn [fst snd];
    intros He; [discriminate |].
  injection He as ->.
  destruct H as (-> & Hlen & Hx & _ & Hp & Hb & Hm). auto 10.
Qed.

Lemma smc_analyze_candles_raises_only_on_inducement_candle_witness :
  fst (SMC.analyze_candles hammer_window SMC.init) = Raise NameError
  /\ exists p,
       SMC.inducements (snd (SMC.analyze_candles hammer_window SMC.init))
       = [p].
Proof.
  assert (H : fst (SMC.analyze_candles hammer_window SMC.init)
              = Raise NameError) by (vm_compute; reflexivity).
  destruct (smc_analyze_candles_raises_only_on_inducement_candle
              hammer_window SMC.init NameError H)
    as (_ & _ & _ & (p & Hp) & _).
  split; [exact H |]. exists p. exact Hp.
Defined.

(** X16. When [SMCStrategies.analyze_candles] returns, it has recorded no
    inducement, and the signals it returns are liquidity sweeps with strength
    85 and confidence 80, balanced price ranges with strength 65 and
    confidence 60, and mitigations with strength 80 and confidence 75: an
    inducement signal is never returned. *)
Theorem smc_analyze_candles_reported_signals
  (candles : list Candle) (s s' : SMC.State) (r : list SMC.SMCSignalResult) :
  SMC.analyze_candles candles s = (Ok r, s') ->
  Forall reported_smc_signal r
  /\ SMC.inducements s' = SMC.inducements s.
Proof.
  intros E.
  destruct (smc_analyze_candles_post candles s) as (kept & added & _ & _ & H).
  rewrite E in H. destruct H as (_ & Hi & _ & _ & Hr). auto.
Qed.

Lemma smc_analyze_candles_reported_signals_witness :
  exists r s',
    SMC.analyze_candles early_hammer_window SMC.init = (Ok r, s')
    /\ map SMC.signal_type r = [SMC.LIQUIDITY_SWEEP_BULLISH]
    /\ Forall reported_smc_signal r
    /\ SMC.inducements s' = [].
Proof.
  assert (Hrun : exists r,
             fst (SMC.analyze_candles early_hammer_window SMC.init) = Ok r
             /\ map SMC.signal_type r = [SMC.LIQUIDITY_SWEEP_BULLISH])
    by (vm_compute; eexists; split; reflexivity).
  destruct Hrun as (r & Hr & Hty).
  destruct (SMC.analyze_candles early_hammer_window SMC.init)
    as [[r' | e] s'] eqn:E; cbn [fst] in Hr; [| discriminate Hr].
  injection Hr as ->. exists r, s'. split; [reflexivity |].
  destruct (smc_analyze_candles_reported_signals _ _ _ _ E) as [Hrep Hi].
  split; [exact Hty |]. split; [exact Hrep | exact Hi].
Defined.

(** X17. A call of [SMCStrategies.analyze_candles] removes no liquidity
    pool, whether it returns or raises: the detector afterwards holds the
    pools it held, in their places, with their levels, sides and timestamps,
    swept if they were swept, and after them new pools.  And if no pool of
    the detector was within 0.1% of a later pool of its side, this is still
    so afterwards. *)
Theorem smc_analyze_candles_keeps_pools_apart
  (candles : list Candle) (s : SMC.State) :
  let s' := snd (SMC.analyze_candles candles s) in
  (exists kept added,
     SMC.liquidity_pools s' = kept ++ added
     /\ Forall2 same_pool (SMC.liquidity_pools s) kept)
  /\ (no_close_pools (SMC.liquidity_pools s) ->
      no_close_pools (SMC.liquidity_pools s')).
Proof.
  cbv zeta.
  destruct (smc_analyze_candles_post candles s)
    as (kept & added & Hk & Hn & H).
  destruct (SMC.analyze_candles candles s) as [[r | e] s']; cbn [snd].
  - destruct H as (-> & _). split; [eauto | exact Hn].
  - destruct H as (_ & _ & _ & -> & _). split; [eauto | exact Hn].
Qed.

Lemma smc_analyze_candles_keeps_pools_apart_witness :
  let s' := snd (SMC.analyze_candles early_hammer_window two_pool_state) in
  no_close_pools (SMC.liquidity_pools two_pool_state)
  /\ no_close_pools (SMC.liquidity_pools s')
  /\ map SMC.price_level (SMC.liquidity_pools s')
     = [100.5; 90; 100; 100; 100.5]%Q
  /\ map SMC.pool_type (SMC.liquidity_pools s')
     = [SMC.pool_buy_side; SMC.pool_sell_side; SMC.pool_buy_side;
        SMC.pool_sell_side; SMC.pool_sell_side].
Proof.
  cbv zeta.
  assert (H0 : no_close_pools (SMC.liquidity_pools two_pool_state)).
  { repeat constructor. }
  split; [exact H0 |]. split.
  - apply (smc_analyze_candles_keeps_pools_apart early_hammer_window
             two_pool_state). exact H0.
  - split; vm_compute; reflexivity.
Defined.

(** X18. The sweep scan and the mitigation scan report once: run again with
    the same arguments, straight after a first run,
    [_detect_liquidity_sweeps] and [_detect_mitigation_setups] return no
    signal and leave the detector as the first run left it. *)
Theorem smc_scans_report_once :
  (forall (df : list Candle) (price : float) (s : SMC.State),
     let s1 := snd (SMC._detect_liquidity_sweeps df price s) in
     SMC._detect_liquidity_sweeps df price s1 = (Ok [], s1))
  /\ (forall (price : float) (s : SMC.State),
        let s1 := snd (SMC._detect_mitigation_setups price s) in
        SMC._detect_mitigation_setups price s1 = (Ok [], s1)).
Proof.
  split.
  - intros df price s. cbv zeta.
    unfold SMC._detect_liquidity_sweeps, bind, get, modify, ret.
    cbn [snd SMC.set_pools SMC.liquidity_pools SMC.inducements
           SMC.mitigation_zones SMC.bpr_zones].
    assert (E : map (SMC.sweep_step df price)
                  (map fst (map (SMC.sweep_step df price)
                              (SMC.liquidity_pools s)))
                = map (fun p => (p, []))
                    (map fst (map (SMC.sweep_step df price)
                                (SMC.liquidity_pools s)))).
    { rewrite !map_map. apply map_ext. intros p. apply sweep_step_idem. }
    rewrite E. f_equal.
    + f_equal.
      generalize (map fst (map (SMC.sweep_step df price)
                             (SMC.liquidity_pools s))).
      intros ps. induction ps; cbn [map flat_map app snd]; auto.
    + rewrite (map_map (fun p => (p, [])) fst). cbn [fst]. rewrite map_id.
      reflexivity.
  - intros price s. cbv zeta.
    unfold SMC._detect_mitigation_setups, bind, get, modify, ret.
    cbn [snd SMC.set_mitigation_zones SMC.liquidity_pools SMC.inducements
           SMC.mitigation_zones SMC.bpr_zones].
    assert (E : map (SMC.mitigation_step price)
                  (map fst (map (SMC.mitigation_step price)
                              (SMC.mitigation_zones s)))
                = map (fun z => (z, []))
                    (map fst (map (SMC.mitigation_step price)
                                (SMC.mitigation_zones s)))).
    { rewrite !map_map. apply map_ext. intros z. apply mitigation_step_idem. }
    rewrite E. f_equal.
    + f_equal.
      generalize (map fst (map (SMC.mitigation_step price)
                             (SMC.mitigation_zones s))).
      intros zs. induction zs; cbn [map flat_map app snd]; auto.
    + rewrite (map_map (fun z => (z, [])) fst). cbn [fst]. rewrite map_id.
      reflexivity.
Qed.

(* ===================================================================== *)
(** ** Phase 1 enhancements                                               *)
(* ===================================================================== *)

Section Phase1Facts.

Import Phase1.
Local Open Scope Q_scope.

Lemma pmin_le_r (a b : Q) : pmin a b <= b.
Proof.
unfold pmin. destruct (flt b a) eqn:E; [apply Qle_refl |].
now apply flt_false_iff in E.
Qed.

Lemma pmin_le_l (a b : Q) : pmin a b <= a.
Proof.
unfold pmin. destruct (flt b a) eqn:E; [| apply Qle_refl].
apply flt_iff in E. now apply Qlt_le_weak.
Qed.

Lemma pmin_ge (a b x : Q) : x <= a -> x <= b -> x <= pmin a b.
Proof. unfold pmin. now destruct (flt b a). Qed.

Lemma pmax_ge_l (a b : Q) : a <= pmax a b.
Proof.
unfold pmax, fgt. destruct (flt a b) eqn:E; [| apply Qle_refl].
apply flt_iff in E. now apply Qlt_le_weak.
Qed.

Lemma pmax_le (a b x : Q) : a <= x -> b <= x -> pmax a b <= x.
Proof. unfold pmax. now destruct (fgt b a). Qed.

(** The bonus of a kill zone: the multiplier of an active zone is one of the
    five of the table. *)
Lemma kill_zone_bonus_values (cfg : Config.Settings) (ts : Z) :
let k := get_kill_zone_info cfg ts in
(if is_active k
 then fadd 0 (fmul (fsub (strength_multiplier k) 1) 100) else 0)
= (if is_active k
   then match zone_type k with
        | LONDON_OPEN => 30 | NY_OPEN => 25 | LONDON_CLOSE => 15
        | ASIAN_SESSION => 10 | NY_CLOSE => 5 | OFF_HOURS => 0
        end
   else 0).
Proof.
cbv zeta. unfold get_kill_zone_info.
destruct (negb (Config.ENABLE_KILL_ZONES cfg)); [reflexivity |].
generalize (fadd (of_int (ts mod 86400 / 3600))
                 (fdiv (of_int (ts mod 3600 / 60)) 60)) as td.
intros td. unfold kill_zones. cbn [first_zone].
repeat match goal with
       | |- context [if ?b then _ else _] =>
           lazymatch b with
           | andb _ _ => destruct b
           end
       end; reflexivity.
Qed.

Lemma kill_zone_active_iff (cfg : Config.Settings) (ts : Z) :
is_active (get_kill_zone_info cfg ts) = true
<-> zone_type (get_kill_zone_info cfg ts) <> OFF_HOURS.
Proof.
unfold get_kill_zone_info.
destruct (negb (Config.ENABLE_KILL_ZONES cfg));
  [cbn; split; [discriminate | congruence] |].
generalize (fadd (of_int (ts mod 86400 / 3600))
                 (fdiv (of_int (ts mod 3600 / 60)) 60)) as td.
intros td. unfold kill_zones. cbn [first_zone].
repeat match goal with
       | |- context [if ?b then _ else _] =>
           lazymatch b with
           | andb _ _ => destruct b
           end
       end; cbn; split; try discriminate; try congruence; auto.
Qed.

(** The strength of a sweep is 75, or 95 on a volume above the average. *)
Lemma detect_liquidity_sweeps_strength (cfg : Config.Settings)
  (candles : list Candle) (pools : ICT.LiquidityPools) :
Forall (fun s => sweep_strength s = 75 \/ sweep_strength s = 95)
       (detect_liquidity_sweeps cfg candles pools).
Proof.
unfold detect_liquidity_sweeps.
destruct (negb (Config.ENABLE_LIQUIDITY_SWEEPS cfg)); [constructor |].
destruct ((length candles =? 0)%nat || (length candles <? 10)%nat);
  [constructor |].
apply Forall_forall. intros s Hs.
apply in_flat_map in Hs. destruct Hs as ([[i prev] candle] & _ & Hs).
assert (Hv : forall ex level avg,
          sweep_strength
            (mkLiquiditySweep ex level (t candle)
               (pmin 95 (fadd 75 (if fgt (v candle) avg then 20 else 0)))
               true (length candles - length (last_n 10 candles) + i))
          = 75
          \/ sweep_strength
               (mkLiquiditySweep ex level (t candle)
                  (pmin 95 (fadd 75 (if fgt (v candle) avg then 20 else 0)))
                  true (length candles - length (last_n 10 candles) + i))
             = 95).
{ intros ex level avg. cbn [sweep_strength].
  destruct (fgt (v candle) avg); [right | left]; reflexivity. }
apply in_app_or in Hs. destruct Hs as [Hs | Hs];
  apply in_flat_map in Hs; destruct Hs as (kv & _ & Hs);
  repeat match type of Hs with
         | In _ (if ?b then _ else _) => destruct b
         end;
  try (destruct Hs as [<- | []]; apply Hv); destruct Hs.
Qed.

Lemma best_sweep_in (x : LiquiditySweep) (xs : list LiquiditySweep) :
In (best_sweep x xs) (x :: xs).
Proof.
unfold best_sweep. revert x. induction xs as [| y ys IH]; intros x;
  cbn [fold_left]; [now left |].
destruct (fgt (sweep_strength y) (sweep_strength x)).
- right. apply IH.
- destruct (IH x) as [H | H]; [left; exact H | right; right; exact H].
Qed.

End Phase1Facts.

(** X19. The bonus of [calculate_phase1_enhancement] lies between 0 and 40,
    whatever the candles, the pools, the flags, the base strength and the
    recommendation. *)
Theorem phase1_enhancement_between_0_and_40
  (cfg : Config.Settings) (candles : list Candle) (pools : ICT.LiquidityPools)
  (base_strength : float) (recommendation : Phase1.Prelim) :
  (0 <= Phase1.calculate_phase1_enhancement cfg candles pools base_strength
          recommendation <= 40)%Q.
Proof.
  unfold Phase1.calculate_phase1_enhancement.
  destruct (last_opt candles) as [last_candle |]; [| split; discriminate].
  rewrite kill_zone_bonus_values.
  set (b1 := if Phase1.is_active _ then _ else _).
  assert (H1 : (0 <= b1 <= 30)%Q).
  { subst b1. destruct (Phase1.is_active _); [| split; discriminate].
    destruct (Phase1.zone_type _); split; discriminate. }
  match goal with
  | |- context [match _ with [] => ?b | _ :: _ => _ end] => set (b2 := b)
  end.
  assert (H2 : (0 <= b2)%Q).
  { subst b2. destruct recommendation;
      try destruct (Phase1.current_location
                      (Phase1.calculate_pd_arrays cfg candles));
      try destruct (Phase1.is_in_ote
                      (Phase1.calculate_pd_arrays cfg candles));
      rewrite ?fadd_correct; lra. }
  split.
  - apply pmin_ge; [| discriminate].
    destruct (filter _ (filter Phase1.is_confirmed _)) as [| x xs] eqn:Ef;
      [exact H2 |].
    assert (Hin : In (Phase1.best_sweep x xs)
                     (Phase1.detect_liquidity_sweeps cfg candles pools)).
    { pose proof (best_sweep_in x xs) as Hb. rewrite <- Ef in Hb.
      apply filter_In in Hb. destruct Hb as [Hb _].
      apply filter_In in Hb. now destruct Hb. }
    pose proof (detect_liquidity_sweeps_strength cfg candles pools) as Hs.
    rewrite Forall_forall in Hs. specialize (Hs _ Hin).
    rewrite fadd_correct, fmul_correct, fdiv_correct.
    clearbody b2.
    destruct Hs as [-> | ->];
      [setoid_replace (75 / 100 * 25) with (75 # 4) by reflexivity
      | setoid_replace (95 / 100 * 25) with (95 # 4) by reflexivity]; lra.
  - apply pmin_le_r.
Qed.

Section Phase1Clock.

Import Phase1.
Local Open Scope Q_scope.

Lemma time_decimal_bounds (hour minute : Z) :
(0 <= minute < 60)%Z ->
inject_Z hour <= fadd (of_int hour) (fdiv (of_int minute) 60)
/\ fadd (of_int hour) (fdiv (of_int minute) 60) < inject_Z hour + 1.
Proof.
intros [H0 H1]. rewrite fadd_correct, fdiv_correct. unfold of_int.

rewrite Zle_Qle in H0. rewrite Zlt_Qlt in H1.
change (inject_Z 0) with 0 in H0. change (inject_Z 60) with 60 in H1.
change (inject_Z 1) with 1.
unfold Qdiv. change (/ 60) with (1 # 60).
generalize dependent (inject_Z minute). intros m H0 H1.
split; lra.
Qed.

Lemma fle_int_time_decimal (a hour minute : Z) :
(0 <= minute < 60)%Z ->
fle (inject_Z a) (fadd (of_int hour) (fdiv (of_int minute) 60))
= (a <=? hour)%Z.
Proof.
intros Hm. destruct (time_decimal_bounds hour minute Hm) as [Hlo Hhi].
destruct (Z.leb_spec a hour) as [H | H].
- apply fle_iff. rewrite Zle_Qle in H. lra.
- apply fle_false_iff.
  assert (H' : (hour + 1 <= a)%Z) by lia. rewrite Zle_Qle, inject_Z_plus in H'; change (inject_Z 1) with 1 in H'. lra.
Qed.

Lemma flt_time_decimal_int (a hour minute : Z) :
(0 <= minute < 60)%Z ->
flt (fadd (of_int hour) (fdiv (of_int minute) 60)) (inject_Z a)
= (hour <? a)%Z.
Proof.
intros Hm. destruct (time_decimal_bounds hour minute Hm) as [Hlo Hhi].
destruct (Z.ltb_spec hour a) as [H | H].
- apply flt_iff.
  assert (H' : (hour + 1 <= a)%Z) by lia. rewrite Zle_Qle, inject_Z_plus in H'; change (inject_Z 1) with 1 in H'. lra.
- apply flt_false_iff. rewrite Zle_Qle in H. lra.
Qed.

Lemma retracement_correct (high low k : Q) :
fsub high (fmul (fsub high low) k) == high - (high - low) * k.
Proof. now rewrite fsub_correct, fmul_correct, fsub_correct. Qed.

Lemma extension_correct (high low k : Q) :
fadd low (fmul (fsub high low) k) == low + (high - low) * k.
Proof. now rewrite fadd_correct, fmul_correct, fsub_correct. Qed.

End Phase1Clock.

(** X20. With kill zones enabled, the zone of [get_kill_zone_info] depends
    on the UTC hour of the timestamp alone: London open on the hours 7 to 9,
    New York open on 12 to 14, London close on 15 and 16, the Asian session
    on 0 to 6 only, because London open is tested first on the hour 7 that
    the two windows share, New York close on 19 and 20, and off-hours on 10,
    11, 17, 18 and from 21 on.  The record of the Asian session still names
    8 as its end. *)
Theorem phase1_kill_zone_by_utc_hour (cfg : Config.Settings) (ts : Z) :
  Config.ENABLE_KILL_ZONES cfg = true ->
  let hour := ((ts mod 86400) / 3600)%Z in
  let k := Phase1.get_kill_zone_info cfg ts in
  (0 <= hour <= 23)%Z
  /\ Phase1.zone_type k
     = (if (7 <=? hour)%Z && (hour <? 10)%Z then Phase1.LONDON_OPEN
        else if (12 <=? hour)%Z && (hour <? 15)%Z then Phase1.NY_OPEN
        else if (15 <=? hour)%Z && (hour <? 17)%Z then Phase1.LONDON_CLOSE
        else if (hour <? 7)%Z then Phase1.ASIAN_SESSION
        else if (19 <=? hour)%Z && (hour <? 21)%Z then Phase1.NY_CLOSE
        else Phase1.OFF_HOURS)
  /\ (Phase1.zone_type k = Phase1.ASIAN_SESSION ->
      Phase1.start_hour k = 0%Z /\ Phase1.end_hour k = 8%Z)
  /\ (Phase1.is_active k = true <-> Phase1.zone_type k <> Phase1.OFF_HOURS).
Proof.
  intros Hen. cbv zeta.
  assert (Hh : (0 <= ts mod 86400 / 3600 <= 23)%Z).
  { pose proof (Z.mod_pos_bound ts 86400 ltac:(lia)).
    split; [apply Z.div_pos; lia |].
    apply Z.lt_succ_r. apply Z.div_lt_upper_bound; lia. }
  assert (Hm : (0 <= ts mod 3600 / 60 < 60)%Z).
  { pose proof (Z.mod_pos_bound ts 3600 ltac:(lia)).
    split; [apply Z.div_pos; lia |].
    apply Z.div_lt_upper_bound; lia. }
  split; [exact Hh |].
  split; [| split; [| apply kill_zone_active_iff]].
  - unfold Phase1.get_kill_zone_info. rewrite Hen. cbn [negb].
    unfold Phase1.kill_zones. cbn [Phase1.first_zone].
    change 7%Q with (inject_Z 7). change 10%Q with (inject_Z 10).
    change 12%Q with (inject_Z 12). change 15%Q with (inject_Z 15).
    change 17%Q with (inject_Z 17). change 0%Q with (inject_Z 0).
    change 8%Q with (inject_Z 8). change 19%Q with (inject_Z 19).
    change 21%Q with (inject_Z 21).
    rewrite !(fle_int_time_decimal _ _ _ Hm), !(flt_time_decimal_int _ _ _ Hm).
    revert Hh. generalize (ts mod 86400 / 3600)%Z as hour. intros hour Hh.
    replace hour with (Z.of_nat (Z.to_nat hour)) by lia.
    assert (Hn : (Z.to_nat hour < 24)%nat) by lia.
    revert Hn. generalize (Z.to_nat hour) as n. intros n Hn.
    do 24 (destruct n as [| n]; [reflexivity |]). lia.
  - unfold Phase1.get_kill_zone_info. rewrite Hen. cbn [negb].
    generalize (fadd (of_int (ts mod 86400 / 3600))
                  (fdiv (of_int (ts mod 3600 / 60)) 60)) as td.
    intros td. unfold Phase1.kill_zones. cbn [Phase1.first_zone].
    repeat match goal with
           | |- context [if ?b then _ else _] =>
               lazymatch b with
               | andb _ _ => destruct b
               end
           end; cbn; intros H; try discriminate H; split; reflexivity.
Qed.

Lemma phase1_kill_zone_by_utc_hour_witness :
  Phase1.zone_type (Phase1.get_kill_zone_info Config.settings 1737876600)
  = Phase1.LONDON_OPEN.
Proof.
  destruct (phase1_kill_zone_by_utc_hour Config.settings 1737876600 eq_refl)
    as (_ & H & _).
  exact H.
Defined.

(** X21. When [calculate_pd_arrays] reports the close inside the optimal
    trade entry zone, the range is not empty, the close lies between the two
    ends of that zone and below the top of the discount zone, the location
    is "discount", the alignment score is 95 and the optimal entry is the
    close itself: the optimal trade entry zone lies inside the discount
    half. *)
Theorem pd_arrays_ote_lies_in_discount
  (cfg : Config.Settings) (candles : list Candle) :
  let pd := Phase1.calculate_pd_arrays cfg candles in
  let price := ICT.last_close candles in
  Phase1.is_in_ote pd = true ->
  Phase1.current_location pd = Phase1.discount
  /\ Phase1.alignment_score pd = 95%Q
  /\ Phase1.optimal_entry pd = price
  /\ (0 < Phase1.range_size pd)%Q
  /\ (fst (Phase1.ote_zone pd) <= price <= snd (Phase1.ote_zone pd))%Q
  /\ (price < snd (Phase1.discount_zone pd))%Q.
Proof.
  cbv zeta. unfold Phase1.calculate_pd_arrays.
  destruct (negb (Config.ENABLE_PD_ARRAYS cfg) || (length candles =? 0)%nat
            || (length candles <? 50)%nat); [discriminate |].
  set (high := ICT.list_max (map h (last_n 50 candles))).
  set (low := ICT.list_min (map l (last_n 50 candles))).
  set (price := ICT.last_close candles).
  destruct (feq (fsub high low) 0) eqn:Er; [discriminate |].
  assert (Hr : ~ (high - low == 0)%Q).
  { intros H. assert (Hf : feq (fsub high low) 0 = true).
    { apply feq_iff. now rewrite fsub_correct. }
    congruence. }
  match goal with
  | |- context [let '(_, _) := ?p in _] => set (loc := p)
  end.
  assert (Hote : fle (fsub high (fmul (fsub high low) 0.79)) price
                 && fle price (fsub high (fmul (fsub high low) 0.62)) = true
                 -> (0 < high - low)%Q
                    /\ (price < fadd low (fmul (fsub high low) 0.50))%Q
                    /\ ~ (fsub high (fmul (fsub high low) 0.50) < price)%Q).
  { intros H. apply andb_true_iff in H. destruct H as [H1 H2].
    apply fle_iff in H1, H2.
    rewrite retracement_correct in H1, H2.
    rewrite retracement_correct, extension_correct.
    clearbody high low price.
    assert (Hpos : (0 < high - low)%Q) by lra.
    repeat split; lra. }
  destruct (fle (fsub high (fmul (fsub high low) 0.79)) price
            && fle price (fsub high (fmul (fsub high low) 0.62))) eqn:Eo.
  2:{ destruct loc as [[a b] c0]. cbn [Phase1.is_in_ote]. discriminate. }
  destruct (Hote eq_refl) as (Hpos & Hdisc & Hprem).
  assert (Eloc : loc = (Phase1.discount,
                        (if flt price (fadd low (fmul (fsub high low) 0.05))
                         then 90 else 75)%Q,
                        fsub high (fmul (fsub high low) 0.62))).
  { subst loc. unfold fgt at 1.
    replace (flt (fsub high (fmul (fsub high low) 0.50)) price) with false
      by (symmetry; apply flt_false_iff; apply Qnot_lt_le; exact Hprem).
    replace (flt price (fadd low (fmul (fsub high low) 0.50))) with true
      by (symmetry; now apply flt_iff).
    reflexivity. }
  rewrite Eloc.
  cbn [Phase1.is_in_ote Phase1.current_location Phase1.alignment_score
         Phase1.optimal_entry Phase1.range_size Phase1.ote_zone
         Phase1.discount_zone fst snd].
  intros _. apply andb_true_iff in Eo. destruct Eo as [E1 E2].
  apply fle_iff in E1, E2.
  repeat split; try assumption. rewrite fsub_correct. exact Hpos.
Qed.

Lemma pd_arrays_ote_lies_in_discount_witness :
  Phase1.is_in_ote (Phase1.calculate_pd_arrays Config.settings ote_window)
  = true
  /\ Phase1.current_location
       (Phase1.calculate_pd_arrays Config.settings ote_window)
     = Phase1.discount.
Proof.
  assert (H : Phase1.is_in_ote
                (Phase1.calculate_pd_arrays Config.settings ote_window)
              = true) by (vm_compute; reflexivity).
  split; [exact H |].
  destruct (pd_arrays_ote_lies_in_discount Config.settings ote_window H)
    as (Hloc & _).
  exact Hloc.
Defined.

(* ===================================================================== *)
(** ** The AI enhancer                                                    *)
(* ===================================================================== *)

Section EnhancerFacts.

Import AI.
Local Open Scope Q_scope.

Lemma clamp_0_100 (x : Q) : 0 <= pmin 100 (pmax 0 x) <= 100.
Proof.
split; [| apply pmin_le_l].
apply pmin_ge; [discriminate | apply pmax_ge_l].
Qed.

Lemma false_signal_risk_range (df : list Candle) (regime : MarketRegime)
  (risk : float) :
_calculate_false_signal_risk df regime = Ok risk -> 0 <= risk <= 80.
Proof.
unfold _calculate_false_signal_risk. destruct df as [| x xs]; [discriminate |].
intros H. injection H as <-.
match goal with
| |- context [fadd (fadd (fadd (fadd 0 ?a) ?b) ?c) ?d] =>
    set (r1 := a); set (r2 := b); set (r3 := c); set (r4 := d)
end.
assert (H1 : 0 <= r1 <= 20).
{ subst r1.
  match goal with |- context [if ?b then _ else _] => destruct b end;
    split; discriminate. }
assert (H2 : 0 <= r2 <= 25).
{ subst r2.
  repeat match goal with |- context [if ?b then _ else _] => destruct b end;
    split; discriminate. }
assert (H3 : 0 <= r3 <= 15).
{ subst r3.
  match goal with |- context [if ?b then _ else _] => destruct b end;
    split; discriminate. }
assert (H4 : 0 <= r4 <= 20).
{ subst r4. destruct regime; split; discriminate. }
clearbody r1 r2 r3 r4.
assert (E : fadd (fadd (fadd (fadd 0 r1) r2) r3) r4 == r1 + r2 + r3 + r4).
{ rewrite !fadd_correct. ring. }
split.
- apply pmin_ge; [discriminate | rewrite E; lra].
- apply Qle_trans with (fadd (fadd (fadd (fadd 0 r1) r2) r3) r4);
    [apply pmin_le_r | rewrite E; lra].
Qed.

Lemma false_signal_risk_raises_iff (df : list Candle) (regime : MarketRegime) :
(df = [] -> _calculate_false_signal_risk df regime = Raise KeyError)
/\ (df <> [] -> exists risk, _calculate_false_signal_risk df regime = Ok risk).
Proof.
unfold _calculate_false_signal_risk. destruct df as [| x xs].
- split; [reflexivity | congruence].
- split; [discriminate | eauto].
Qed.

Lemma confluence_bonus_table (ict_signals : list ICT.ICTSignalResult)
  (smc_signals : list SMC.SMCSignalResult) :
let ict_bullish :=
  existsb (fun s => ict_name_bullish (ICT.signal_type s)) ict_signals in
let ict_bearish :=
  existsb (fun s => ict_name_bearish (ICT.signal_type s)) ict_signals in
let smc_bullish :=
  existsb (fun s => smc_name_bullish (SMC.signal_type s)) smc_signals in
let smc_bearish :=
  existsb (fun s => smc_name_bearish (SMC.signal_type s)) smc_signals in
_calculate_confluence_bonus ict_signals smc_signals
= match ict_signals, smc_signals with
  | [], _ | _, [] => 0
  | _, _ =>
      if (ict_bullish && smc_bullish) || (ict_bearish && smc_bearish)
      then if (2 <=? length ict_signals)%nat then 17 else 12
      else if (ict_bullish && smc_bearish) || (ict_bearish && smc_bullish)
      then 0
      else if (2 <=? length ict_signals)%nat then 5 else 0
  end.
Proof.
cbv zeta. unfold _calculate_confluence_bonus.
destruct ict_signals as [| i0 ires]; [reflexivity |].
destruct smc_signals as [| s0 ss]; [reflexivity |].
set (ib := existsb _ (i0 :: ires)). set (ie := existsb _ (i0 :: ires)).
set (sb := existsb _ (s0 :: ss)). set (se := existsb _ (s0 :: ss)).
replace (1 <=? length (s0 :: ss))%nat with true by reflexivity.
rewrite andb_true_r.
destruct ib, ie, sb, se, (2 <=? length (i0 :: ires))%nat; reflexivity.
Qed.

Lemma confluence_bonus_values
  (ict_signals : list ICT.ICTSignalResult)
  (smc_signals : list SMC.SMCSignalResult) :
In (_calculate_confluence_bonus ict_signals smc_signals) [0; 5; 12; 17].
Proof.
rewrite confluence_bonus_table.
destruct ict_signals as [| i0 ires]; [now left |].
destruct smc_signals as [| s0 ss]; [now left |].
repeat match goal with
       | |- context [if ?b then _ else _] => destruct b
       end; cbn; auto.
Qed.

End EnhancerFacts.

(** X22. [_calculate_confluence_bonus] yields 0, 5, 12 or 17, and never the
    5-point penalty its third branch subtracts for conflicting directions:
    the final clamp to the range 0-20 turns the penalty into 0, also when
    the 5 points for two or more ICT signals are added to it.  The bonus is
    12 or more exactly when both lists are non-empty and hold a bullish-named
    signal each, or a bearish-named signal each. *)
Theorem confluence_bonus_never_penalises
  (ict_signals : list ICT.ICTSignalResult)
  (smc_signals : list SMC.SMCSignalResult) :
  let ict_bullish :=
    existsb (fun s => AI.ict_name_bullish (ICT.signal_type s)) ict_signals in
  let ict_bearish :=
    existsb (fun s => AI.ict_name_bearish (ICT.signal_type s)) ict_signals in
  let smc_bullish :=
    existsb (fun s => AI.smc_name_bullish (SMC.signal_type s)) smc_signals in
  let smc_bearish :=
    existsb (fun s => AI.smc_name_bearish (SMC.signal_type s)) smc_signals in
  let bonus := AI._calculate_confluence_bonus ict_signals smc_signals in
  In bonus [0; 5; 12; 17]%Q
  /\ ((12 <= bonus)%Q
      <-> (ict_bullish && smc_bullish) || (ict_bearish && smc_bearish) = true)
  /\ ((ict_bullish && smc_bullish) || (ict_bearish && smc_bearish) = false ->
      (ict_bullish && smc_bearish) || (ict_bearish && smc_bullish) = true ->
      bonus = 0%Q).
Proof.
  cbv zeta. rewrite confluence_bonus_table.
  destruct ict_signals as [| i0 ires].
  { cbn [existsb andb orb]. split; [now left |].
    split; [split; [intros H; exfalso; revert H; apply Qlt_not_le; reflexivity
                   | discriminate] | reflexivity]. }
  destruct smc_signals as [| s0 ss].
  { cbn [existsb]. rewrite !andb_false_r. cbn [orb]. split; [now left |].
    split; [split; [intros H; exfalso; revert H; apply Qlt_not_le; reflexivity
                   | discriminate] | reflexivity]. }
  set (ib := existsb _ (i0 :: ires)). set (ie := existsb _ (i0 :: ires)).
  set (sb := existsb _ (s0 :: ss)). set (se := existsb _ (s0 :: ss)).
  destruct ((ib && sb) || (ie && se)) eqn:Ea.
  - destruct (2 <=? length (i0 :: ires))%nat.
    + split; [cbn; auto |].
      split; [split; [reflexivity | discriminate] | discriminate].
    + split; [cbn; auto |].
      split; [split; [reflexivity | intros _; apply Qle_refl] | discriminate].
  - destruct ((ib && se) || (ie && sb)) eqn:Ec.
    + split; [now left |].
      split; [split; [intros H; exfalso; revert H; apply Qlt_not_le;
                      reflexivity | discriminate] | reflexivity].
    + destruct (2 <=? length (i0 :: ires))%nat.
      * split; [cbn; auto |].
        split; [split; [intros H; exfalso; revert H; apply Qlt_not_le;
                        reflexivity | discriminate] | discriminate].
      * split; [now left |].
        split; [split; [intros H; exfalso; revert H; apply Qlt_not_le;
                        reflexivity | discriminate] | discriminate].
Qed.

(** X23. [enhance_signal] raises [KeyError] on an empty candle list and
    returns a score on every other one.  In the score the success
    probability and the regime alignment lie between 0 and 100, the false
    signal risk between 0 and 80, the confluence bonus is 0, 5, 12 or 17 and
    the adjusted strength is at most 100; the quality is "poor" or "reject"
    exactly for a success probability below 50, and "reject" exactly below
    25. *)
Theorem enhance_signal_scores_bounded
  (np : AI.Numpy) (candles : list Candle) (pattern_type : AI.Pattern)
  (base_strength base_confidence : float)
  (ict_signals : list ICT.ICTSignalResult)
  (smc_signals : list SMC.SMCSignalResult) :
  let run :=
    AI.enhance_signal np candles pattern_type base_strength base_confidence
      ict_signals smc_signals in
  (candles = [] -> run = Raise KeyError)
  /\ (candles <> [] ->
      exists ai,
        run = Ok ai
        /\ (0 <= AI.success_probability ai <= 100)%Q
        /\ (0 <= AI.regime_alignment_score ai <= 100)%Q
        /\ (0 <= AI.false_signal_risk ai <= 80)%Q
        /\ In (AI.confluence_bonus ai) [0; 5; 12; 17]%Q
        /\ (AI.adjusted_strength ai <= 100)%Q
        /\ (Engine.is_poor_or_reject (AI.quality_rating ai) = true
            <-> (AI.success_probability ai < 50)%Q)
        /\ (AI.quality_rating ai = AI.REJECT
            <-> (AI.success_probability ai < 25)%Q)).
Proof.
  cbv zeta. unfold AI.enhance_signal.
  destruct (false_signal_risk_raises_iff candles
              (AI._classify_market_regime np candles)) as [He Hne].
  split.
  - intros H. rewrite (He H). reflexivity.
  - intros H. destruct (Hne H) as [risk Hrisk]. rewrite Hrisk. cbn [rbind].
    eexists. split; [reflexivity |].
    cbn [AI.success_probability AI.regime_alignment_score
           AI.false_signal_risk AI.confluence_bonus AI.adjusted_strength
           AI.quality_rating].
    split; [apply clamp_0_100 |].
    split; [apply clamp_0_100 |].
    split; [exact (false_signal_risk_range _ _ _ Hrisk) |].
    split; [apply confluence_bonus_values |].
    split; [apply pmin_le_l |].
    unfold AI._determine_quality_rating, fge.
    set (p := AI._calculate_success_probability _ _ _ _ _).
    destruct (fle 90 p) eqn:E90; destruct (fle 75 p) eqn:E75;
      destruct (fle 50 p) eqn:E50; destruct (fle 25 p) eqn:E25;
      rewrite ?fle_iff, ?fle_false_iff in *; cbn [Engine.is_poor_or_reject];
      clearbody p;
      (split; split; intros Hx; try discriminate Hx; try reflexivity;
       try lra).
Qed.

(* ===================================================================== *)
(** ** The engine: one timeframe                                          *)
(* ===================================================================== *)

Section TimeframeFacts.

Import Engine.
Local Open Scope Z_scope.

Lemma last_opt_defined {A} (xs : list A) :
xs <> [] -> exists x, last_opt xs = Some x.
Proof.
intros H. unfold last_opt.
destruct (nth_error xs (length xs - 1)) as [x |] eqn:E; [eauto |].
apply nth_error_None in E. destruct xs; [congruence | cbn in E; lia].
Qed.

(** A list that is defined at its last index has a latest value. *)
Lemma latest_defined (xs : list (option Q)) (n : nat) :
length xs = n -> (1 <= n)%nat ->
(exists x, nth_error xs (n - 1) = Some (Some x)) ->
exists x, latest xs = Some x.
Proof.
intros Hl Hn [x Hx]. exists x. unfold latest, last_opt.
now rewrite Hl, Hx.
Qed.

Lemma sma_latest_defined (prices : list Q) (p : nat) :
(1 <= p)%nat -> (p <= length prices)%nat ->
exists out x, Indicators.sma prices p = Ok out /\ latest out = Some x.
Proof.
intros Hp Hlen. unfold Indicators.sma.
destruct (Nat.ltb_spec (length prices) p) as [Hlt | _]; [lia |].
destruct (Nat.eqb_spec p 0) as [H0 | _]; [lia |].
eexists. 
destruct (sma_entry prices p (length prices - 1) Hp ltac:(lia) ltac:(lia))
  as (x & Hx & _).
exists x. split; [reflexivity |].
unfold latest, last_opt.
rewrite length_app, repeat_length, length_map, convolve_valid_length,
  repeat_length.
replace (p - 1 + (length prices - p + 1) - 1)%nat
  with (length prices - 1)%nat by lia.
now rewrite Hx.
Qed.

Lemma rsi_latest_defined (prices : list Q) (period : nat) :
(period < length prices)%nat ->
exists x, latest (Indicators.rsi prices period) = Some x.
Proof.
intros Hlen. unfold Indicators.rsi.
destruct (Nat.ltb_spec (length prices) (period + 1)) as [Hlt | Hge]; [lia |].
pose proof (rsi_values_length prices period Hge) as Hl.
apply (latest_defined _ (length prices)); [rewrite pad_length; lia | lia |].
apply pad_defined_iff. lia.
Qed.

Lemma macd_latest_defined (prices : list Q) :
(35 <= length prices)%nat ->
exists ml sl hl x1 x2 x3,
  Indicators.macd prices 12 26 9 = Ok (ml, sl, hl)
  /\ latest ml = Some x1 /\ latest sl = Some x2 /\ latest hl = Some x3.
Proof.
intros Hlen.
destruct (macd_lists prices 12 26 9 ltac:(lia) ltac:(lia) ltac:(lia)
            ltac:(lia) ltac:(lia))
  as (m & g & d & Lm & Lg & Ld & ->).
destruct (latest_defined
            (repeat None (26 - 1) ++ map Some (skipn (26 - 1) m))
            (length prices)) as [x1 H1];
  [rewrite pad_length; lia | lia | apply pad_defined_iff; lia |].
destruct (latest_defined
            (repeat None (26 + 9 - 1) ++ map Some (skipn (26 + 9 - 1) g))
            (length prices)) as [x2 H2];
  [rewrite pad_length; lia | lia | apply pad_defined_iff; lia |].
destruct (latest_defined
            (repeat None (26 + 9 - 1) ++ map Some (skipn (26 + 9 - 1) d))
            (length prices)) as [x3 H3];
  [rewrite pad_length; lia | lia | apply pad_defined_iff; lia |].
eexists _, _, _, x1, x2, x3. split; [reflexivity |]. auto.
Qed.

(** The score of a timeframe: a whole number between 0 and 100, above 30
    exactly when the mini-signal is not neutral. *)
Lemma score_timeframe_range (close s50 s200 r ml sg mh : Q) :
exists sig st,
  score_timeframe close s50 s200 r ml sg mh = (sig, inject_Z st)
  /\ 0 <= st <= 100
  /\ (sig = MINI_NEUTRAL <-> st <= 30).
Proof.
unfold score_timeframe.
destruct (fgt s50 s200); [| destruct (flt s50 s200)];
  (destruct (fgt close s50); [| destruct (flt close s50)]);
  (destruct (flt r 30);
   [| destruct (fgt r 70);
      [| destruct (fle 40 r && fle r 60); [| destruct (fgt r 60)]]]);
  (destruct (fgt ml sg && fgt mh 0);
   [| destruct (flt ml sg && flt mh 0)]);
  cbv iota beta zeta;
  match goal with
  | |- exists sig st, (?a, of_int ?b) = _ /\ _ =>
      exists a, b; split; [reflexivity |]
  end;
  (split; [cbn; lia |]); cbn; split; intros H;
  try discriminate H; try reflexivity; try lia.
Qed.

End TimeframeFacts.

(** On 200 candles or more every indicator has a latest value, and
    [evaluate_timeframe] returns the score of these values. *)
Lemma evaluate_timeframe_scored (candles : list Candle) :
(200 <= length candles)%nat ->
exists close s50 s200 r ml sg mh,
  Engine.evaluate_timeframe candles
  = Ok (Engine.score_timeframe close s50 s200 r ml sg mh).
Proof.
intros Hge. unfold Engine.evaluate_timeframe.
destruct (Nat.eqb_spec (length candles) 0) as [H0 | H0]; [lia |].
destruct (Nat.ltb_spec (length candles) 200) as [Hlt | _]; [lia |].
cbn [orb]. unfold Engine.calculate_all_indicators.
assert (Hl : length (map c candles) = length candles) by apply length_map.
destruct (sma_latest_defined (map c candles) 50 ltac:(lia) ltac:(lia))
  as (o50 & x50 & -> & L50).
destruct (sma_latest_defined (map c candles) 200 ltac:(lia) ltac:(lia))
  as (o200 & x200 & -> & L200).
destruct (rsi_latest_defined (map c candles) 14 ltac:(lia)) as [xr Lr].
destruct (macd_latest_defined (map c candles) ltac:(lia))
  as (ml & sl & hl & x1 & x2 & x3 & -> & L1 & L2 & L3).
cbn [rbind Engine.close_prices Engine.macd_histogram Engine.sma50
       Engine.sma200 Engine.rsi14 Engine.macd_line Engine.macd_signal].
destruct (last_opt_defined (map c candles)) as [close ->].
{ intros E. rewrite E in Hl. cbn in Hl. lia. }
rewrite L50, L200, Lr, L1, L2, L3. eauto 10.
Qed.

(** [evaluate_timeframe] never raises. *)
Lemma evaluate_timeframe_total (candles : list Candle) :
exists r, Engine.evaluate_timeframe candles = Ok r.
Proof.
destruct (Nat.ltb_spec (length candles) 200) as [Hlt | Hge].
- unfold Engine.evaluate_timeframe.
  destruct (Nat.ltb_spec (length candles) 200) as [_ | H]; [| lia].
  rewrite orb_true_r. eauto.
- destruct (evaluate_timeframe_scored candles Hge)
    as (close & s50 & s200 & r & ml & sg & mh & ->).
  eauto.
Qed.

(** X24. [evaluate_timeframe] returns on every candle list and never
    raises.  The strength it returns is a whole number between 0 and 100, it
    is above 30 exactly when the mini-signal is bullish or bearish, and it
    is 0 on fewer than 200 candles. *)
Theorem evaluate_timeframe_returns (candles : list Candle) :
  exists sig st,
    Engine.evaluate_timeframe candles = Ok (sig, inject_Z st)
    /\ (0 <= st <= 100)%Z
    /\ (sig = MINI_NEUTRAL <-> (st <= 30)%Z)
    /\ ((length candles < 200)%nat -> st = 0%Z).
Proof.
  destruct (Nat.ltb_spec (length candles) 200) as [Hlt | Hge].
  - unfold Engine.evaluate_timeframe.
    destruct (Nat.ltb_spec (length candles) 200) as [_ | H]; [| lia].
    rewrite orb_true_r.
    exists MINI_NEUTRAL, 0%Z. repeat split; try reflexivity; lia.
  - destruct (evaluate_timeframe_scored candles Hge)
      as (close & s50 & s200 & r & ml & sg & mh & ->).
    destruct (score_timeframe_range close s50 s200 r ml sg mh)
      as (sig & st & -> & Hr & Hn).
    exists sig, st. repeat split; try apply Hn; lia.
Qed.

(* ===================================================================== *)
(** ** The engine: the response                                           *)
(* ===================================================================== *)

Section ResponseFacts.

Import Engine.
Local Open Scope Z_scope.

(** [finalize] recommends a direction only on the count of two timeframes. *)
Lemma finalize_direction ws cb pb ai bc sc now :
(fst (finalize ws cb pb ai bc sc now) = BUY -> 2 <= bc)
/\ (fst (finalize ws cb pb ai bc sc now) = SELL -> 2 <= sc).
Proof.
unfold finalize. cbn [fst].
destruct (Z.leb_spec 2 bc) as [Hb | Hb];
  destruct (Z.leb_spec 2 sc) as [Hs | Hs];
  repeat match goal with
         | |- context [if ?b then _ else _] => destruct b
         end; split; intros H; try discriminate H; assumption.
Qed.

Lemma int_of_float_nonneg (x : Q) : (0 <= x)%Q -> 0 <= int_of_float x.
Proof.
intros H. unfold int_of_float. apply Z.quot_pos; [| lia].
unfold Qle in H. cbn in H. lia.
Qed.

End ResponseFacts.

(** X25. A response that [generate_signal] returns has a strength between 0
    and 100; its breakdown holds the mini-signals of [evaluate_timeframe] on
    the three candle lists; it recommends "Buy" only when two of them are
    bullish and "Sell" only when two of them are bearish; and when it is not
    neutral its strength is 25 at least. *)
Theorem generate_signal_response_consistent
  (np : AI.Numpy) (c15 c1h c1d : list Candle) (now : Z)
  (s s' : Engine.State) (x : SignalResponse) :
  Engine.generate_signal np c15 c1h c1d now s = (Ok x, s') ->
  (0 <= strength x <= 100)%Z
  /\ (exists st15 st1h st1d,
        Engine.evaluate_timeframe c15 = Ok (m15 (breakdown x), st15)
        /\ Engine.evaluate_timeframe c1h = Ok (h1 (breakdown x), st1h)
        /\ Engine.evaluate_timeframe c1d = Ok (d1 (breakdown x), st1d))
  /\ (recommendation x = BUY ->
      (2 <= Engine.count_signal BULLISH
              [m15 (breakdown x); h1 (breakdown x); d1 (breakdown x)])%Z)
  /\ (recommendation x = SELL ->
      (2 <= Engine.count_signal BEARISH
              [m15 (breakdown x); h1 (breakdown x); d1 (breakdown x)])%Z)
  /\ (recommendation x <> NEUTRAL -> (25 <= strength x)%Z).
Proof.
  unfold Engine.generate_signal. intros H.
  apply bind_ok_inv in H. destruct H as (ict_signals & s1 & _ & H).
  apply bind_ok_inv in H. destruct H as (s1a & s1b & _ & H).
  apply bind_ok_inv in H. destruct H as (smc_signals & s2 & _ & H).
  apply bind_ok_inv in H. destruct H as ([m15s m15x] & s3 & E15 & H).
  apply bind_ok_inv in H. destruct H as ([h1s h1x] & s4 & E1h & H).
  apply bind_ok_inv in H. destruct H as ([d1s d1x] & s5 & E1d & H).
  apply bind_ok_inv in H. destruct H as (s6 & s7 & _ & H).
  match type of H with
  | context [let '(_, _) := ?p in _] => destruct p as [[pt bs] bc]
  end.
  apply bind_ok_inv in H. destruct H as (ai & s8 & _ & H).
  match type of H with
  | context [let '(_, _) := Engine.finalize ?a ?b ?c ?d ?e ?f ?g in _] =>
      pose proof (finalize_direction a b c d e f g) as [Hbuy Hsell];
      pose proof (finalize_not_neutral_at_least_25 a b c d e f g) as Hmin;
      destruct (Engine.finalize a b c d e f g) as [rec fs] eqn:Ep
  end.
  unfold lift in H. inversion H as [[Hx Hs]].
  apply SignalResponse_new_ok in Hx. destruct Hx as [-> Hr].
  cbn [strength recommendation breakdown m15 h1 d1].
  unfold lift in E15, E1h, E1d.
  injection E15 as F15 _. injection E1h as F1h _. injection E1d as F1d _.
  split; [exact Hr |]. split; [exists m15x, h1x, d1x; auto |].
  cbn [fst snd] in Hbuy, Hsell, Hmin.
  auto.
Qed.

Lemma generate_signal_response_consistent_witness :
  exists x s',
    Engine.generate_signal flat_numpy signal_15m signal_1h signal_1d
      signal_now Engine.init = (Ok x, s')
    /\ recommendation x = BUY
    /\ (25 <= strength x <= 100)%Z.
Proof.
  assert (Hrun : fst (Engine.generate_signal flat_numpy signal_15m signal_1h
                        signal_1d signal_now Engine.init)
                 = Ok (mkSignalResponse BUY 39
                         (mkBreakdown BULLISH MINI_NEUTRAL BULLISH)))
    by (vm_compute; reflexivity).
  destruct (Engine.generate_signal flat_numpy signal_15m signal_1h signal_1d
              signal_now Engine.init) as [[x | e] s'] eqn:E;
    cbn [fst] in Hrun; [| discriminate Hrun].
  exists x, s'. split; [reflexivity |].
  destruct (generate_signal_response_consistent _ _ _ _ _ _ _ _ E)
    as (Hr & _ & _ & _ & Hmin).
  assert (Hx : recommendation x = BUY).
  { injection Hrun as ->. reflexivity. }
  split; [exact Hx |]. split; [| apply Hr].
  apply Hmin. rewrite Hx. discriminate.
Defined.

(** X26. [aggregate_signals], on strengths that are not negative, returns a
    strength between 0 and 100; it is neutral whenever that strength is below
    40, and it recommends "Buy" only on two bullish mini-signals and "Sell"
    only on two bearish ones. *)
Theorem aggregate_signals_consistent
  (s15 s1h s1d : MiniSignal) (x15 x1h x1d : float) :
  (0 <= x15)%Q -> (0 <= x1h)%Q -> (0 <= x1d)%Q ->
  let r := Engine.aggregate_signals (s15, x15) (s1h, x1h) (s1d, x1d) in
  (0 <= snd r <= 100)%Z
  /\ ((snd r < 40)%Z -> fst r = NEUTRAL)
  /\ (fst r = BUY ->
      (2 <= Engine.count_signal BULLISH [s15; s1h; s1d])%Z)
  /\ (fst r = SELL ->
      (2 <= Engine.count_signal BEARISH [s15; s1h; s1d])%Z).
Proof.
  intros H15 H1h H1d. cbv zeta. unfold Engine.aggregate_signals.
  cbn [fst snd].
  set (bc := Engine.count_signal BULLISH [s15; s1h; s1d]).
  set (sc := Engine.count_signal BEARISH [s15; s1h; s1d]).
  assert (Hbc : (0 <= bc)%Z) by (subst bc; unfold Engine.count_signal; lia).
  assert (Hsc : (0 <= sc)%Z) by (subst sc; unfold Engine.count_signal; lia).
  set (bonus := if (2 <=? bc)%Z then (15 * bc)%Z
                else if (2 <=? sc)%Z then (15 * sc)%Z else 0%Z).
  assert (Hbonus : (0 <= bonus)%Z).
  { subst bonus. destruct (2 <=? bc)%Z; [lia |].
    destruct (2 <=? sc)%Z; lia. }
  assert (Hi : (0 <= int_of_float
                       (fadd (fadd (fadd (fmul x15 0.35) (fmul x1h 0.35))
                                   (fmul x1d 0.30))
                             (of_int bonus)))%Z).
  { apply int_of_float_nonneg.
    rewrite !fadd_correct, !fmul_correct. unfold of_int.
    assert (Hq : (0 <= inject_Z bonus)%Q).
    { change 0%Q with (inject_Z 0). rewrite <- Zle_Qle. exact Hbonus. }
    clearbody bonus. nra. }
  split; [lia |].
  destruct (Z.ltb_spec
              (Z.min 100
                 (int_of_float
                    (fadd (fadd (fadd (fmul x15 0.35) (fmul x1h 0.35))
                                (fmul x1d 0.30))
                          (of_int bonus)))) 40) as [Hlt | Hge].
  - split; [reflexivity |]. split; discriminate.
  - split; [lia |].
    destruct (Z.leb_spec 2 bc); [split; [auto | discriminate] |].
    destruct (Z.leb_spec 2 sc); split; try discriminate; auto.
Qed.

Lemma aggregate_signals_consistent_witness :
  fst (Engine.aggregate_signals (BULLISH, 35%Q) (MINI_NEUTRAL, 0%Q)
         (BULLISH, 35%Q)) = BUY
  /\ (2 <= Engine.count_signal BULLISH [BULLISH; MINI_NEUTRAL; BULLISH])%Z.
Proof.
  destruct (aggregate_signals_consistent BULLISH MINI_NEUTRAL BULLISH
              35%Q 0%Q 35%Q ltac:(discriminate) ltac:(discriminate)
              ltac:(discriminate))
    as (_ & _ & Hbuy & _).
  assert (H : fst (Engine.aggregate_signals (BULLISH, 35%Q)
                     (MINI_NEUTRAL, 0%Q) (BULLISH, 35%Q)) = BUY)
    by (vm_compute; reflexivity).
  split; [exact H | exact (Hbuy H)].
Defined.

(** X27. Without 15-minute and hourly candles [generate_signal] raises
    [KeyError], whatever the daily candles, the time and the state of the
    engine, and it leaves the state as it was. *)
Theorem generate_signal_needs_analysis_candles
  (np : AI.Numpy) (c1d : list Candle) (now : Z) (s : Engine.State) :
  Engine.generate_signal np [] [] c1d now s = (Raise KeyError, s).
Proof.
  unfold Engine.generate_signal.
  assert (E0 : Engine.evaluate_timeframe [] = Ok (MINI_NEUTRAL, 0%Q))
    by reflexivity.
  destruct (evaluate_timeframe_total c1d) as ([g1 t1] & E1).
  unfold bind, Engine.on_ict, Engine.on_smc, get, lift.
  change (ICT.analyze_candles [] (Engine.ict_strategies s))
    with (@Ok (list ICT.ICTSignalResult) [], Engine.ict_strategies s).
  cbv iota beta.
  cbn [Engine.ict_strategies Engine.smc_strategies Engine.phase1_flags].
  change (SMC.analyze_candles [] (Engine.smc_strategies s))
    with (@Ok (list SMC.SMCSignalResult) [], Engine.smc_strategies s).
  cbv iota beta.
  rewrite E0, E1. cbv iota beta.
  cbn [Engine.strongest].
  destruct s as [i x f]. reflexivity.
Qed.

(* ===================================================================== *)
(** ** What the detectors record and never read                           *)
(* ===================================================================== *)

Section AgreementFacts.

Context {S : Type} (R : S -> S -> Prop).

Lemma agree_ret {A} (a : A) : agree R (@ret S A a).
Proof. intros s s' H. split; [reflexivity | exact H]. Qed.

Lemma agree_raise {A} (e : exn) : agree R (@raise S A e).
Proof. intros s s' H. split; [reflexivity | exact H]. Qed.

Lemma agree_modify (f : S -> S) :
(forall s s', R s s' -> R (f s) (f s')) -> agree R (modify f).
Proof. intros Hf s s' H. split; [reflexivity | now apply Hf]. Qed.

Lemma agree_bind {A B} (m : M S A) (k : A -> M S B) :
agree R m -> (forall a, agree R (k a)) -> agree R (bind m k).
Proof.
intros Hm Hk s s' H. unfold bind.
destruct (Hm s s' H) as [Hf Hs].
destruct (m s) as [[a | e] s1], (m s') as [[a' | e'] s1'];
  cbn [fst snd] in Hf, Hs; try discriminate Hf.
- injection Hf as <-. now apply Hk.
- injection Hf as <-. split; [reflexivity | exact Hs].
Qed.

Lemma agree_for_each {X} (xs : list X) (body : X -> M S unit) :
(forall x, agree R (body x)) -> agree R (for_each xs body).
Proof.
intros Hb. induction xs as [| x xs IH]; cbn [for_each].
- apply agree_ret.
- apply agree_bind; [apply Hb | intros _; exact IH].
Qed.

Lemma agree_for_acc {X A} (xs : list X) (body : A -> X -> M S A) :
(forall acc x, agree R (body acc x)) ->
forall acc, agree R (ICT.for_acc xs acc body).
Proof.
intros Hb. induction xs as [| x xs IH]; intros acc; cbn [ICT.for_acc].
- apply agree_ret.
- apply agree_bind; [apply Hb | intros a; apply IH].
Qed.

End AgreementFacts.

Section WriteOnlyFacts.

Local Open Scope Q_scope.

Lemma agree_check_bullish_bos : agree same_but_gaps ICT._check_bullish_bos.
Proof.
intros [o g m] [o' g' m'] [Ho Hm]. cbn in Ho, Hm. subst o' m'.
unfold ICT._check_bullish_bos, bind, get, lift, ret.
cbn [ICT.order_blocks ICT.market_structure].
destruct (length o =? 0)%nat; [split; [reflexivity | split; reflexivity] |].
destruct (ICT.py_max _); split; try reflexivity; split; reflexivity.
Qed.

Lemma agree_check_bearish_bos : agree same_but_gaps ICT._check_bearish_bos.
Proof.
intros [o g m] [o' g' m'] [Ho Hm]. cbn in Ho, Hm. subst o' m'.
unfold ICT._check_bearish_bos, bind, get, lift, ret.
cbn [ICT.order_blocks ICT.market_structure].
destruct (length o =? 0)%nat; [split; [reflexivity | split; reflexivity] |].
destruct (ICT.py_min _); split; try reflexivity; split; reflexivity.
Qed.

Lemma agree_update_ms (f : ICT.MarketStructure -> ICT.MarketStructure) :
agree same_but_gaps (ICT.update_ms f).
Proof.
apply agree_modify. intros s s' [Ho Hm]. split; cbn; congruence.
Qed.

Lemma agree_detect_breaker_blocks (rc : list Candle) :
agree same_but_gaps (ICT._detect_breaker_blocks rc).
Proof.
unfold ICT._detect_breaker_blocks.
destruct (length rc <? 3)%nat; [apply agree_ret |].
destruct (last_opt rc) as [last_candle |]; [| apply agree_ret].
intros [o g m] [o' g' m'] [Ho Hm]. cbn in Ho, Hm. subst o' m'.
unfold bind, get, modify, ret. cbn. split; [reflexivity | split; reflexivity].
Qed.

Lemma agree_ict_analyze_candles (candles : list Candle) :
agree same_but_gaps (ICT.analyze_candles candles).
Proof.
unfold ICT.analyze_candles.
destruct (length candles <? 50)%nat; [apply agree_ret |].
apply agree_bind.
{ unfold ICT._detect_order_blocks. apply agree_for_each. intros p.
  destruct (flt _ _);
    [apply agree_modify; intros s s' [Ho Hm]; split; cbn; congruence |].
  destruct (fgt _ _);
    [apply agree_modify; intros s s' [Ho Hm]; split; cbn; congruence |].
  apply agree_ret. }
intros _. apply agree_bind.
{ unfold ICT._detect_fair_value_gaps. apply agree_for_each. intros p.
  destruct (fgt _ _);
    [apply agree_modify; intros s s' [Ho Hm]; split; cbn; congruence |].
  destruct (flt _ _);
    [apply agree_modify; intros s s' [Ho Hm]; split; cbn; congruence |].
  apply agree_ret. }
intros _. apply agree_bind.
{ unfold ICT._analyze_market_structure.
  destruct (length candles <? 10)%nat; [apply agree_ret |].
  apply agree_for_acc. intros acc p.
  destruct (forallb _ _).
  { apply agree_bind; [apply agree_update_ms |]. intros _.
    apply agree_bind; [apply agree_check_bullish_bos |]. intros [|].
    - apply agree_bind; [apply agree_update_ms |]. intros _.
      apply agree_ret.
    - apply agree_ret. }
  destruct (forallb _ _).
  { apply agree_bind; [apply agree_update_ms |]. intros _.
    apply agree_bind; [apply agree_check_bearish_bos |]. intros [|].
    - apply agree_bind; [apply agree_update_ms |]. intros _.
      apply agree_ret.
    - apply agree_ret. }
  apply agree_ret. }
intros bos. apply agree_bind; [apply agree_detect_breaker_blocks |].
intros br. apply agree_ret.
Qed.

Lemma agree_smc_analyze_candles (candles : list Candle) :
agree same_but_records (SMC.analyze_candles candles).
Proof.
unfold SMC.analyze_candles.
destruct (length candles <? 30)%nat; [apply agree_ret |].
assert (Hside : forall side level xs,
           agree same_but_records (SMC.detect_pools_side side level xs)).
{ intros side level xs. unfold SMC.detect_pools_side.
  apply agree_for_each. intros p.
  destruct (SMC.rel_close _ _); [| apply agree_ret].
  apply agree_modify. intros [a1 b1 c1 d1] [a2 b2 c2 d2] [Hp Hz].
  cbn in Hp, Hz. subst a2 c2.
  cbn [SMC.liquidity_pools].
  destruct (negb _); split; reflexivity. }
apply agree_bind.
{ unfold SMC._detect_liquidity_pools.
  destruct (length candles <? 20)%nat; [apply agree_ret |].
  apply agree_bind; [apply Hside | intros _; apply Hside]. }
intros _. apply agree_bind.
{ intros [a1 b1 c1 d1] [a2 b2 c2 d2] [Hp Hz]. cbn in Hp, Hz. subst a2 c2.
  unfold SMC._detect_liquidity_sweeps, bind, get, modify, ret. cbn.
  split; [reflexivity | split; reflexivity]. }
intros sw. apply agree_bind.
{ unfold SMC._detect_inducements.
  destruct (length candles <? 5)%nat; [apply agree_ret |].
  apply agree_for_acc. intros acc x. unfold SMC.inducement_turn.
  apply agree_bind.
  { destruct (_ && _); [| apply agree_ret].
    apply agree_bind; [| intros _; apply agree_raise].
    apply agree_modify. intros s s' [Hp Hz]. split; cbn; congruence. }
  intros r1. destruct (_ && _); [| apply agree_ret].
  apply agree_bind; [| intros _; apply agree_raise].
  apply agree_modify. intros s s' [Hp Hz]. split; cbn; congruence. }
intros ir. apply agree_bind.
{ unfold SMC._detect_bpr_zones.
  destruct (length candles <? 10)%nat; [apply agree_ret |].
  destruct (fgt _ _); [| apply agree_ret].
  destruct (_ && _); [| apply agree_ret].
  apply agree_bind.
  { apply agree_modify. intros s s' [Hp Hz]. split; cbn; congruence. }
  intros _. destruct (fgt _ _); apply agree_ret. }
intros br. apply agree_bind.
{ unfold SMC._update_mitigation_tracking. apply agree_modify.
  intros s s' [Hp Hz]. split; cbn; congruence. }
intros _. apply agree_bind.
{ intros [a1 b1 c1 d1] [a2 b2 c2 d2] [Hp Hz]. cbn in Hp, Hz. subst a2 c2.
  unfold SMC._detect_mitigation_setups, bind, get, modify, ret. cbn.
  split; [reflexivity | split; reflexivity]. }
intros mr. apply agree_ret.
Qed.

End WriteOnlyFacts.

(** X28. [ICTStrategies.analyze_candles] never reads the fair value gaps
    that the detector has recorded: on two detectors that hold the same
    order blocks and the same market structure, whatever gaps they hold, it
    returns the same signals, or raises the same exception, and leaves the
    same order blocks and the same market structure. *)
Theorem ict_recorded_gaps_are_never_read
  (candles : list Candle) (s s' : ICT.State) :
  ICT.order_blocks s = ICT.order_blocks s' ->
  ICT.market_structure s = ICT.market_structure s' ->
  let r := ICT.analyze_candles candles s in
  let r' := ICT.analyze_candles candles s' in
  fst r = fst r'
  /\ ICT.order_blocks (snd r) = ICT.order_blocks (snd r')
  /\ ICT.market_structure (snd r) = ICT.market_structure (snd r').
Proof.
  intros Ho Hm. cbv zeta.
  destruct (agree_ict_analyze_candles candles s s' (conj Ho Hm))
    as (Hf & Ho' & Hm').
  auto.
Qed.

Lemma ict_recorded_gaps_are_never_read_witness :
  fst (ICT.analyze_candles later_window ICT.init)
  = fst (ICT.analyze_candles later_window gap_only_state).
Proof.
  destruct (ict_recorded_gaps_are_never_read later_window ICT.init
              gap_only_state eq_refl eq_refl) as (H & _).
  exact H.
Defined.

(** X29. [SMCStrategies.analyze_candles] never reads the inducements and
    the balanced price ranges that the detector has recorded: on two
    detectors that hold the same liquidity pools and the same mitigation
    zones, whatever else they hold, it returns the same signals, or raises
    the same exception, and leaves the same pools and the same zones. *)
Theorem smc_recorded_patterns_are_never_read
  (candles : list Candle) (s s' : SMC.State) :
  SMC.liquidity_pools s = SMC.liquidity_pools s' ->
  SMC.mitigation_zones s = SMC.mitigation_zones s' ->
  let r := SMC.analyze_candles candles s in
  let r' := SMC.analyze_candles candles s' in
  fst r = fst r'
  /\ SMC.liquidity_pools (snd r) = SMC.liquidity_pools (snd r')
  /\ SMC.mitigation_zones (snd r) = SMC.mitigation_zones (snd r').
Proof.
  intros Hp Hz. cbv zeta.
  destruct (agree_smc_analyze_candles candles s s' (conj Hp Hz))
    as (Hf & Hp' & Hz').
  auto.
Qed.

Lemma smc_recorded_patterns_are_never_read_witness :
  fst (SMC.analyze_candles early_hammer_window SMC.init)
  = fst (SMC.analyze_candles early_hammer_window records_only_state).
Proof.
  destruct (smc_recorded_patterns_are_never_read early_hammer_window SMC.init
              records_only_state eq_refl eq_refl) as (H & _).
  exact H.
Defined.

(* ===================================================================== *)
(** ** ICT: the output depends on the state of the instance               *)
(* ===================================================================== *)

Section RepeatFacts.

Import ICT.
Local Open Scope Q_scope.

Lemma modify_run {S} (f : S -> S) (s : S) : modify f s = (Ok tt, f s).
Proof. reflexivity. Qed.

Lemma ret_run {S A} (a : A) (s : S) : ret a s = (Ok a, s).
Proof. reflexivity. Qed.

(** The scan for order blocks appends the blocks found in the candles,
    whatever the detector holds. *)
Lemma detect_order_blocks_run (df : list Candle) (s : State) :
_detect_order_blocks df s
= (Ok tt, mkState (order_blocks s ++ found_blocks df) (fair_value_gaps s)
                  (market_structure s)).
Proof.
unfold found_blocks, _detect_order_blocks.
generalize (adjacent (last_n 20 df)) as ps. intros ps. revert s.
induction ps as [| p ps IH]; intros s; cbn [for_each].
- unfold ret. cbn [snd order_blocks init]. now rewrite app_nil_r, state_eta.
- unfold bind.
  destruct (flt (c (snd p)) (fmul (c (fst p)) 0.98)).
  + rewrite !modify_run. rewrite (IH (append_order_block _ s)).
    rewrite (IH (append_order_block _ init)).
    cbn [append_order_block order_blocks fair_value_gaps market_structure
         init snd app].
    now rewrite <- app_assoc.
  + destruct (fgt (c (snd p)) (fmul (c (fst p)) 1.02)).
    * rewrite !modify_run. rewrite (IH (append_order_block _ s)).
      rewrite (IH (append_order_block _ init)).
      cbn [append_order_block order_blocks fair_value_gaps market_structure
           init snd app].
      now rewrite <- app_assoc.
    * rewrite !ret_run. apply IH.
Qed.

Lemma last_opt_last_n_20 (candles : list Candle) :
(50 <= length candles)%nat ->
exists last, last_opt (last_n 20 candles) = Some last.
Proof.
intros H. unfold last_opt.
destruct (nth_error (last_n 20 candles) (length (last_n 20 candles) - 1))
  as [x |] eqn:E; [eauto |].
apply nth_error_None in E. unfold last_n in E. rewrite length_skipn in E.
lia.
Qed.

(** A call on fifty candles or more, as a function of the state. *)
Lemma analyze_candles_run (candles : list Candle) (last : Candle) (s : State) :
(50 <= length candles)%nat ->
last_opt (last_n 20 candles) = Some last ->
exists gaps,
  analyze_candles candles s
  = match _analyze_market_structure candles
            (mkState (order_blocks s ++ found_blocks candles)
                     (fair_value_gaps s ++ gaps) (market_structure s)) with
    | (Ok bos, s3) =>
        (Ok (_rank_and_filter_signals
               (bos
                ++ flat_map snd (map (breaker_step (c last))
                                     (last_n 10 (order_blocks s3)))
                ++ _analyze_market_maker_model candles)),
         set_order_blocks
           (firstn (length (order_blocks s3) - 10) (order_blocks s3)
            ++ map fst (map (breaker_step (c last))
                            (last_n 10 (order_blocks s3))))
           s3)
    | (Raise e, s3) => (Raise e, s3)
    end.
Proof.
intros Hlen Hlast. unfold analyze_candles.
destruct (Nat.ltb_spec (length candles) 50) as [| _]; [lia |].
unfold bind at 1. rewrite detect_order_blocks_run. unfold bind at 1.
match goal with
| |- context [_detect_fair_value_gaps candles ?s1] =>
    destruct (detect_fair_value_gaps_spec candles s1) as (gaps & E2)
end.
cbn [order_blocks fair_value_gaps market_structure] in E2. rewrite E2.
exists gaps. unfold bind at 1.
destruct (_analyze_market_structure candles _) as [[bos | e] s3];
  [| reflexivity].
unfold bind at 1.
rewrite (detect_breaker_blocks_run _ last).
- reflexivity.
- unfold last_n. rewrite length_skipn. lia.
- exact Hlast.
Qed.

Lemma pmax_ge_r (a b : Q) : b <= pmax a b.
Proof.
unfold pmax, fgt. destruct (flt a b) eqn:E; [apply Qle_refl |].
now apply flt_false_iff in E.
Qed.

Lemma fold_pmax_upper (xs : list Q) (x y : Q) :
In y (x :: xs) -> y <= fold_left pmax xs x.
Proof.
revert x y. induction xs as [| a xs IH]; intros x y Hy; cbn [fold_left].
- destruct Hy as [-> | []]. apply Qle_refl.
- destruct Hy as [-> | [-> | Hy]].
  + apply Qle_trans with (pmax y a); [apply pmax_ge_l |].
    apply IH. now left.
  + apply Qle_trans with (pmax x y); [apply pmax_ge_r |].
    apply IH. now left.
  + apply IH. now right.
Qed.

Lemma fold_pmax_absorb (ys : list Q) (m : Q) :
(forall y, In y ys -> y <= m) -> fold_left pmax ys m = m.
Proof.
induction ys as [| y ys IH]; intros H; cbn [fold_left]; [reflexivity |].
assert (E : pmax m y = m).
{ unfold pmax, fgt. destruct (flt m y) eqn:E; [| reflexivity].
  apply flt_iff in E. exfalso. apply (Qlt_not_le _ _ E). apply H. now left. }
rewrite E. apply IH. intros z Hz. apply H. now right.
Qed.

Lemma fold_pmin_lower (xs : list Q) (x y : Q) :
In y (x :: xs) -> fold_left pmin xs x <= y.
Proof.
revert x y. induction xs as [| a xs IH]; intros x y Hy; cbn [fold_left].
- destruct Hy as [-> | []]. apply Qle_refl.
- destruct Hy as [-> | [-> | Hy]].
  + apply Qle_trans with (pmin y a); [| apply pmin_le_l].
    apply IH. now left.
  + apply Qle_trans with (pmin x y); [| apply pmin_le_r].
    apply IH. now left.
  + apply IH. now right.
Qed.

Lemma fold_pmin_absorb (ys : list Q) (m : Q) :
(forall y, In y ys -> m <= y) -> fold_left pmin ys m = m.
Proof.
induction ys as [| y ys IH]; intros H; cbn [fold_left]; [reflexivity |].
assert (E : pmin m y = m).
{ unfold pmin. destruct (flt y m) eqn:E; [| reflexivity].
  apply flt_iff in E. exfalso. apply (Qlt_not_le _ _ E). apply H. now left. }
rewrite E. apply IH. intros z Hz. apply H. now right.
Qed.

(** The extreme of a list of levels is the extreme of the list followed by
    a copy of itself. *)
Lemma py_max_twice (hs : list Q) : py_max (hs ++ hs) = py_max hs.
Proof.
destruct hs as [| x xs]; [reflexivity |].
cbn [app py_max]. f_equal. rewrite fold_left_app.
apply fold_pmax_absorb. intros y Hy. now apply fold_pmax_upper.
Qed.

Lemma py_min_twice (hs : list Q) : py_min (hs ++ hs) = py_min hs.
Proof.
destruct hs as [| x xs]; [reflexivity |].
cbn [app py_min]. f_equal. rewrite fold_left_app.
apply fold_pmin_absorb. intros y Hy. now apply fold_pmin_lower.
Qed.

Lemma same_blocks_levels (ty : Side) (bs bs' : list OrderBlock) :
Forall2 same_block bs bs' ->
map ob_high (blocks_of ty bs') = map ob_high (blocks_of ty bs)
/\ map ob_low (blocks_of ty bs') = map ob_low (blocks_of ty bs).
Proof.
induction 1 as [| b b' bs bs' Hb _ IH]; [split; reflexivity |].
destruct IH as [IH1 IH2].
destruct Hb as (Hh & Hl & _ & Ht & _).
unfold blocks_of in *. cbn [filter]. rewrite Ht.
destruct (Side_eqb (ob_type b) ty); cbn [map]; [| auto].
split; congruence.
Qed.

(** A detector that holds, before the blocks of another, copies of these
    blocks gives the break-of-structure tests the same answers. *)
Lemma copies_same_break_levels (bs bs' : list OrderBlock)
  (g g' : list FairValueGap) (m m' : MarketStructure) :
Forall2 same_block bs bs' ->
same_break_levels (mkState bs g m) (mkState (bs' ++ bs) g' m').
Proof.
intros H. unfold same_break_levels. cbn [order_blocks].
split; [| split].
- destruct H; [reflexivity |]. reflexivity.
- replace (blocks_of bearish (bs' ++ bs))
    with (blocks_of bearish bs' ++ blocks_of bearish bs)
    by (symmetry; apply filter_app).
  rewrite map_app, (proj1 (same_blocks_levels bearish _ _ H)).
  symmetry. apply py_max_twice.
- replace (blocks_of bullish (bs' ++ bs))
    with (blocks_of bullish bs' ++ blocks_of bullish bs)
    by (symmetry; apply filter_app).
  rewrite map_app, (proj2 (same_blocks_levels bullish _ _ H)).
  symmetry. apply py_min_twice.
Qed.

(** The swing scan reads the order blocks through the two tests only, and
    the market structure not at all before it has written it. *)
Lemma agree_analyze_market_structure (df : list Candle) :
agree same_break_levels (_analyze_market_structure df).
Proof.
unfold _analyze_market_structure.
destruct (length df <? 10)%nat; [apply agree_ret |].
apply agree_for_acc. intros acc p [o g m] [o' g' m'] (H0 & Hmax & Hmin).
cbn [order_blocks] in H0, Hmax, Hmin.
assert (HR : forall ms ms',
          same_break_levels (mkState o g ms) (mkState o' g' ms'))
  by (intros ms ms'; repeat split; assumption).
destruct (forallb (fun x => fge (h (fst p)) (h x)) (snd p)).
- unfold _check_bullish_bos, update_ms, bind, modify, get, lift, ret.
  cbn [set_market_structure order_blocks market_structure fair_value_gaps
       set_swing_high last_swing_high].
  rewrite <- H0, <- Hmax.
  destruct (length o =? 0)%nat;
    [split; [reflexivity | apply HR] |].
  destruct (py_max _) as [x | e];
    [| split; [reflexivity | apply HR]].
  destruct (fgt (h (fst p)) (fmul x 1.001));
    (split; [reflexivity | apply HR]).
- destruct (forallb (fun x => fle (l (fst p)) (l x)) (snd p)).
  + unfold _check_bearish_bos, update_ms, bind, modify, get, lift, ret.
    cbn [set_market_structure order_blocks market_structure fair_value_gaps
         set_swing_low last_swing_low].
    rewrite <- H0, <- Hmin.
    destruct (length o =? 0)%nat;
      [split; [reflexivity | apply HR] |].
    destruct (py_min _) as [x | e];
      [| split; [reflexivity | apply HR]].
    destruct (flt (l (fst p)) (fmul x 0.999));
      (split; [reflexivity | apply HR]).
  + unfold ret. split; [reflexivity | apply HR].
Qed.

Lemma rescan_reports_nothing (price : float) (bs : list OrderBlock) :
flat_map snd (map (breaker_step price)
                  (map fst (map (breaker_step price) bs))) = [].
Proof.
induction bs as [| b bs IH]; [reflexivity |].
cbn [map flat_map]. now rewrite breaker_step_idem, IH.
Qed.

(** The breaker scan of a detector that holds the blocks a first scan has
    left, followed by the blocks as they were before it, reports what the
    first scan reported. *)
Lemma breaker_scan_of_copies (price : float) (bs : list OrderBlock) :
flat_map snd
  (map (breaker_step price)
       (last_n 10
          ((firstn (length bs - 10) bs
            ++ map fst (map (breaker_step price) (last_n 10 bs)))
           ++ bs)))
= flat_map snd (map (breaker_step price) (last_n 10 bs)).
Proof.
set (left := firstn (length bs - 10) bs
             ++ map fst (map (breaker_step price) (last_n 10 bs))).
assert (Hl : length left = length bs).
{ subst left. rewrite length_app, !length_map, length_firstn.
  unfold last_n. rewrite length_skipn. lia. }
unfold last_n at 1. rewrite length_app, Hl, skipn_app, Hl.
destruct (Nat.le_gt_cases 10 (length bs)) as [Hge | Hlt].
- rewrite skipn_all2 by lia. cbn [app]. unfold last_n. do 3 f_equal. lia.
- replace (length bs + length bs - 10 - length bs)%nat with 0%nat by lia.
  subst left. unfold last_n.
  replace (length bs - 10)%nat with 0%nat by lia.
  cbn [firstn skipn app].
  rewrite !skipn_map, map_app, flat_map_app, rescan_reports_nothing.
  reflexivity.
Qed.

(** On a detector that has just been created, a second call with the same
    candles repeats the answer of the first, whatever the candles: the
    blocks that the first call has left are found again, and the copies
    answer the tests and the scan as the first ones did. *)
Lemma fresh_detector_repeats (candles : list Candle) :
fst (analyze_candles candles (snd (analyze_candles candles init)))
= fst (analyze_candles candles init).
Proof.
destruct (Nat.ltb_spec (length candles) 50) as [Hlt | Hge].
{ unfold analyze_candles. apply Nat.ltb_lt in Hlt. now rewrite Hlt. }
destruct (last_opt_last_n_20 candles Hge) as [last Hlast].
destruct (analyze_candles_run candles last init Hge Hlast) as (g1 & E1).
rewrite E1. cbn [order_blocks fair_value_gaps market_structure init app].
match goal with
| |- context [_analyze_market_structure candles ?s2] =>
    set (st2 := s2);
    pose proof (analyze_market_structure_post candles st2) as Hpost;
    destruct (_analyze_market_structure candles st2) as [[bos | e] s3] eqn:E3
end.
- destruct Hpost as (Ho & _). cbn [order_blocks st2] in Ho.
  cbn [fst snd].
  match goal with
  | |- context [analyze_candles candles ?sf] =>
      destruct (analyze_candles_run candles last sf Hge Hlast) as (g2 & E2)
  end.
  rewrite E2. cbn [set_order_blocks order_blocks fair_value_gaps
                   market_structure].
  rewrite Ho.
  match goal with
  | |- context [_analyze_market_structure candles ?s2'] =>
      set (st2' := s2');
      pose proof (analyze_market_structure_post candles st2') as Hpost';
      assert (Hag : same_break_levels st2 st2')
  end.
  { apply copies_same_break_levels.
    rewrite <- (firstn_skipn (length (found_blocks candles) - 10)
                             (found_blocks candles)) at 1.
    apply Forall2_app; [apply same_blocks_refl |].
    unfold last_n. generalize (skipn (length (found_blocks candles) - 10)
                                     (found_blocks candles)) as bs.
    intros bs. induction bs as [| b bs IH]; cbn [map]; constructor;
      [apply breaker_step_same_block | exact IH]. }
  destruct (agree_analyze_market_structure candles st2 st2' Hag) as [Hf _].
  rewrite E3 in Hf.
  destruct (_analyze_market_structure candles st2') as [[bos' | e'] s3'];
    cbn [fst] in Hf; [| discriminate Hf].
  injection Hf as <-. destruct Hpost' as (Ho' & _).
  cbn [order_blocks st2'] in Ho'. cbn [fst]. rewrite Ho'.
  now rewrite breaker_scan_of_copies.
- destruct Hpost as (_ & Ho & _). cbn [order_blocks st2] in Ho.
  cbn [fst snd].
  destruct (analyze_candles_run candles last s3 Hge Hlast) as (g2 & E2).
  rewrite E2, Ho.
  match goal with
  | |- context [_analyze_market_structure candles ?s2'] =>
      assert (Hag : same_break_levels st2 s2')
        by (apply copies_same_break_levels, same_blocks_refl);
      destruct (agree_analyze_market_structure candles st2 s2' Hag)
        as [Hf _];
      rewrite E3 in Hf;
      destruct (_analyze_market_structure candles s2') as [[bos' | e'] s3']
  end; cbn [fst] in Hf; [discriminate Hf |].
  now injection Hf as <-.
Qed.

End RepeatFacts.

(** C10 (counterexample). The order blocks and the fair value gaps that a
    first call accumulates do not change what a second call returns.  On a
    detector that has just been created, the first call on [breakout_window]
    records a bearish order block and five gaps, finds the block exceeded by
    the close and reports a bullish breaker; the second call, on the same
    candles, holds that block and those gaps, records a copy of each, and
    returns the very same signals. *)
Lemma ict_second_call_repeats_on_fresh_detector :
  let first := ICT.analyze_candles breakout_window ICT.init in
  let second := ICT.analyze_candles breakout_window (snd first) in
  (exists r,
     fst first = Ok r /\ fst second = Ok r
     /\ map ICT.signal_type r
        = [ICT.BULLISH_BREAKER; ICT.MM_BUY_MODEL; ICT.BOS_BULLISH])
  /\ map ICT.ob_type (ICT.order_blocks (snd first)) = [ICT.bearish]
  /\ length (ICT.fair_value_gaps (snd first)) = 5%nat
  /\ map ICT.ob_type (ICT.order_blocks (snd second))
     = [ICT.bearish; ICT.bearish]
  /\ length (ICT.fair_value_gaps (snd second)) = 10%nat.
Proof.
  vm_compute. split; [eexists; repeat split | repeat split].
Qed.

(** C10 (amended). There are candle lists for which two successive calls of
    [analyze_candles] on one detector, with the identical argument, return
    different signal lists, so the output is not a function of the candles
    alone; what differs between the calls is the [broken] flag of an order
    block that the detector held before the first of them.  The detector has
    analysed [earlier_window] and kept the bearish order block it found
    there.  The first call on [later_window] adds no block and no gap; it
    finds the block exceeded by the close, reports a bullish breaker and sets
    the block's [broken] flag.  The second call, on the same candles, finds
    the block broken and reports no breaker, whatever gaps the detector has
    recorded; with the flag as it was, and everything else as the first call
    left it, it reports the breaker again.  And on a detector that has just
    been created nothing of the kind happens: for every candle list the
    second of two successive calls returns, or raises, what the first did. *)
Theorem ict_successive_calls_differ_by_broken_flag :
  (let s0 := snd (ICT.analyze_candles earlier_window ICT.init) in
   let first := ICT.analyze_candles later_window s0 in
   let second := ICT.analyze_candles later_window (snd first) in
   exists r1 r2 b,
     fst first = Ok r1 /\ fst second = Ok r2 /\ r1 <> r2
     /\ map ICT.signal_type r1
        = [ICT.BULLISH_BREAKER; ICT.MM_BUY_MODEL; ICT.BOS_BULLISH]
     /\ map ICT.signal_type r2 = [ICT.MM_BUY_MODEL; ICT.BOS_BULLISH]
     /\ ICT.order_blocks s0 = [b] /\ ICT.broken b = false
     /\ ICT.order_blocks (snd first) = [ICT.mark_broken b]
     /\ ICT.fair_value_gaps (snd first) = ICT.fair_value_gaps s0
     /\ (forall gaps,
           fst (ICT.analyze_candles later_window
                  (ICT.mkState [ICT.mark_broken b] gaps
                               (ICT.market_structure (snd first))))
           = Ok r2)
     /\ (forall gaps,
           fst (ICT.analyze_candles later_window
                  (ICT.mkState [b] gaps
                               (ICT.market_structure (snd first))))
           = Ok r1))
  /\ (forall candles : list Candle,
        let first := ICT.analyze_candles candles ICT.init in
        fst (ICT.analyze_candles candles (snd first)) = fst first).
Proof.
  split; [| intros candles; apply fresh_detector_repeats].
  vm_compute. eexists _, _, _.
  split; [reflexivity |]. split; [reflexivity |].
  split; [intros H; discriminate H |].
  repeat (split; [reflexivity |]).
  split; intros gaps; reflexivity.
Qed.
